(** * Pulse: relay pairing core and transfer protocol engine

    A shallow embedding of the Go sources
      - [internal/transfer] (sender, receiver) and
      - [cmd/pulse] (the relay's room manager and websocket handler),
    followed by the properties proved about them.

    Conventions.  Go's [int], [int64] and [time.Duration] are 64-bit signed
    integers, modelled as [Z] with the wrap-around written out ([wrap64]);
    [[]byte] is [list Byte.byte]; [string] is [string]; a nil-able pointer
    is an [option]; a Go [map] is a [gmap].  A function that talks to the
    outside world (network, disk, clock, context) takes the answers of the
    outside world as an explicit argument and returns, next to its result,
    what it left of the world (the disk) or the list of effects it
    performed, in program order. *)

From Stdlib Require Import ZArith Lia List String Ascii Floats.
From stdpp Require Import base option list gmap strings pretty.

Open Scope Z_scope.

(** ** Go base layer *)

Module Go.

(** Two's complement wrap-around of a 64-bit signed integer. *)
Definition wrap64 (z : Z) : Z := (z + 2 ^ 63) mod 2 ^ 64 - 2 ^ 63.

Definition MaxInt64 : Z := 2 ^ 63 - 1.

(** [time.Duration]: nanoseconds. *)
Definition Nanosecond : Z := 1.
Definition Second : Z := 1000000000.
Definition Minute : Z := 60 * Second.

(** The [error] values the program builds: [errors.New]-like leaves and
    [fmt.Errorf] with a [%w] operand.  The operand of [%w] may be a nil
    error, hence the [option]. *)
#[warnings="-register-all"]
Inductive error : Type :=
| errorString (s : string)
| wrapError (msg : string) (err : option error).

(** [errors.Unwrap]. *)
Definition Unwrap (e : error) : option error :=
  match e with
  | errorString _ => None
  | wrapError _ err => err
  end.

(** A Go call that yields [(value, error)]. *)
Inductive result (A : Type) : Type :=
| Ok (a : A)
| Err (err : error).
Arguments Ok {A} a.
Arguments Err {A} err.

(** How a Go function call ends: it returns, or the runtime panics. *)
Inductive outcome (A : Type) : Type :=
| Returned (a : A)
| Panicked (msg : string).
Arguments Returned {A} a.
Arguments Panicked {A} msg.

(** [[]byte(s)] and [string(b)]. *)
Definition bytes_of_string (s : string) : list Byte.byte := list_byte_of_string s.
Definition string_of_bytes (b : list Byte.byte) : string := string_of_list_byte b.

(** Integer division [a / b] of two [int64] ([b] non-zero): truncated, and
    wrapping in the one overflowing case. *)
Definition quot64 (a b : Z) : Z := wrap64 (Z.quot a b).

(** [float64(z)] for an [int64] [z]. *)
Definition float64_of_int64 (z : Z) : float :=
  if 0 <=? z then PrimFloat.of_uint63 (Uint63.of_Z z)
  else if z =? - 2 ^ 63 then PrimFloat.opp (PrimFloat.mul 2 (PrimFloat.of_uint63 (Uint63.of_Z (2 ^ 62))))
  else PrimFloat.opp (PrimFloat.of_uint63 (Uint63.of_Z (- z))).

(** [time.Duration.Seconds]:
    [sec := d / Second; nsec := d % Second; float64(sec) + float64(nsec)/1e9]. *)
Definition Seconds (d : Z) : float :=
  let sec := Z.quot d Second in
  let nsec := Z.rem d Second in
  PrimFloat.add (float64_of_int64 sec)
                (PrimFloat.div (float64_of_int64 nsec) (float64_of_int64 Second)).

(** *** path/filepath, on a Unix system

    [Clean] is the lexical normalisation of the library: empty and ["."]
    elements are dropped, an inner [".."] removes the element before it, a
    [".."] at the start of a rooted path is dropped and one at the start of
    a relative path is kept. *)

Definition slash : ascii := "/"%char.

(** [strings.Split(s, "/")], on the characters of [s]; [cur] is the element
    being read, reversed. *)
Fixpoint split_slash (cur : list ascii) (s : list ascii) : list (list ascii) :=
  match s with
  | [] => [rev cur]
  | c :: s' =>
      if Ascii.eqb c slash then rev cur :: split_slash [] s'
      else split_slash (c :: cur) s'
  end.

Definition is_dot (e : list ascii) : bool :=
  match e with ["."%char] => true | _ => false end.
Definition is_dotdot (e : list ascii) : bool :=
  match e with ["."%char; "."%char] => true | _ => false end.

(** One element of the path against the elements written so far ([out], last
    element first). *)
Definition clean_step (rooted : bool) (out : list (list ascii)) (e : list ascii)
    : list (list ascii) :=
  match e with
  | [] => out
  | _ =>
      if is_dot e then out
      else if is_dotdot e then
        match out with
        | top :: rest => if is_dotdot top then e :: out else rest
        | [] => if rooted then out else [e]
        end
      else e :: out
  end.

(** [strings.Join(elems, "/")]. *)
Fixpoint join_slash (elems : list (list ascii)) : list ascii :=
  match elems with
  | [] => []
  | [e] => e
  | e :: rest => e ++ slash :: join_slash rest
  end.

(** The elements of the cleaned path, first element first. *)
Definition clean_elems (path : list ascii) : list (list ascii) :=
  let rooted := match path with c :: _ => Ascii.eqb c slash | [] => false end in
  rev (fold_left (clean_step rooted) (split_slash [] path) []).

Definition Clean (path : string) : string :=
  let p := list_ascii_of_string path in
  match p with
  | [] => "."
  | c :: _ =>
      let body := join_slash (clean_elems p) in
      if Ascii.eqb c slash then string_of_list_ascii (slash :: body)
      else match body with
           | [] => "."
           | _ => string_of_list_ascii body
           end
  end.

(** [filepath.Join(a, b)]: the elements from the first non-empty one on,
    joined by a slash and cleaned; the empty string if both are empty. *)
Definition Join (a b : string) : string :=
  if String.eqb a "" then
    if String.eqb b "" then "" else Clean b
  else Clean (a +:+ "/" +:+ b).

(** [filepath.Base]: the last element of the path, trailing slashes removed. *)
Definition Base (path : string) : string :=
  match list_ascii_of_string path with
  | [] => "."
  | p =>
      match filter (fun e => negb (match e with [] => true | _ => false end))
                   (split_slash [] p) with
      | [] => "/"
      | e :: es => string_of_list_ascii (List.last es e)
      end
  end.

(** [filepath.Ext]: the suffix of the last element from its last dot on. *)
Fixpoint ext_rev (seen : list ascii) (r : list ascii) : list ascii :=
  match r with
  | [] => []
  | c :: r' =>
      if Ascii.eqb c slash then []
      else if Ascii.eqb c "."%char then c :: seen
      else ext_rev (c :: seen) r'
  end.
Definition Ext (path : string) : string :=
  string_of_list_ascii (ext_rev [] (rev (list_ascii_of_string path))).

(** Lexical containment: the elements of the cleaned [dir] start the
    elements of the cleaned [path], both rooted or both relative, and what
    follows them does not climb out again with a [".."]. *)
Fixpoint strip_elems (pre l : list (list ascii)) : option (list (list ascii)) :=
  match pre, l with
  | [], _ => Some l
  | _ :: _, [] => None
  | a :: pre', b :: l' =>
      if bool_decide (a = b) then strip_elems pre' l' else None
  end.
Definition is_rooted (p : string) : bool :=
  match p with String c _ => Ascii.eqb c slash | EmptyString => false end.
Definition inside (dir path : string) : bool :=
  Bool.eqb (is_rooted (Clean dir)) (is_rooted (Clean path)) &&
  match strip_elems (clean_elems (list_ascii_of_string (Clean dir)))
                    (clean_elems (list_ascii_of_string (Clean path))) with
  | Some (e :: _) => negb (is_dotdot e)
  | Some [] => true
  | None => false
  end.

End Go.

(** ** internal/transfer *)

Module transfer.
Import Go.

(** A [*websocket.Conn], by identity. *)
Abbreviation Conn := nat.

(** The regular files of the disk, by path. *)
Abbreviation FS := (gmap string (list Byte.byte)).

(** *** Protocol messages *)

Inductive MsgType : Type :=
| MsgTypeReady | MsgTypeMetadata | MsgTypeChunk
| MsgTypeComplete | MsgTypeCancel | MsgTypeError.

Record Message : Type := mkMessage {
  msg_Type : MsgType;
  msg_Payload : list Byte.byte
}.

Record Metadata : Type := mkMetadata {
  Filename : string;
  Size : Z;            (* int64 *)
  Chunks : Z;          (* int *)
  Checksum : string;
  MimeType : string;
  BatchIndex : Z;
  BatchTotal : Z
}.

(** The zero value of [Metadata] ([var metadata Metadata]). *)
Definition zeroMetadata : Metadata := mkMetadata "" 0 0 "" "" 0 0.

Record Stats : Type := mkStats {
  Duration : Z;        (* time.Duration *)
  BytesSent : Z;       (* int64 *)
  Speed : float        (* bytes/sec *)
}.

(** The zero value [Stats{}]. *)
Definition zeroStats : Stats := mkStats 0 0 0%float.

(** The functions of the repository's [crypto] package and of the codec of
    the [transfer] package, and [mime.TypeByExtension], as the sender and
    the receiver call them.  [EncryptChunk] draws a fresh nonce on every
    call; here the nonce source is part of the instance. *)
Class Packages : Type := {
  EncryptChunk : list Byte.byte -> list Byte.byte -> result (list Byte.byte);
  DecryptChunk : list Byte.byte -> list Byte.byte -> result (list Byte.byte);
  ComputeChecksum : list Byte.byte -> string;
  EncodeMessage : Message -> list Byte.byte;
  DecodeMessage : list Byte.byte -> result Message;
  MarshalMetadata : Metadata -> result (list Byte.byte);
  ParseMetadata : list Byte.byte -> result Metadata;
  TypeByExtension : string -> string
}.

(** Modelled from the spec: the message constructors of the codec are not
    among the sources.  A message is a type tag and a payload; [Chunk]
    carries the raw slice, [Cancel] its reason, [Ready] and [Complete]
    nothing, and [Metadata] the serialised metadata record. *)
Definition NewReadyMessage : Message := mkMessage MsgTypeReady [].
Definition NewChunkMessage (data : list Byte.byte) : Message := mkMessage MsgTypeChunk data.
Definition NewCompleteMessage : Message := mkMessage MsgTypeComplete [].
Definition NewCancelMessage (reason : string) : Message :=
  mkMessage MsgTypeCancel (bytes_of_string reason).
Definition NewMetadataMessage `{Packages} (meta : Metadata) : result Message :=
  match MarshalMetadata meta with
  | Ok payload => Ok (mkMessage MsgTypeMetadata payload)
  | Err err => Err err
  end.

(** *** The disk *)

(** [os.Remove(path)], its error ignored: the entry is unlinked; removing
    the empty path fails and changes nothing. *)
Definition os_Remove (path : string) (fs : FS) : FS :=
  if String.eqb path "" then fs else delete path fs.

(** [os.Create(path)] when it succeeds: the file exists and is empty. *)
Definition os_Create (path : string) (fs : FS) : FS := <[path := []]> fs.

(** The error of [os.Create(path)]: creating the empty path always fails;
    for any other path the outside world ([world_err]) decides. *)
Definition os_Create_err (path : string) (world_err : option error) : option error :=
  if String.eqb path "" then Some (errorString "open : no such file or directory")
  else world_err.

(** [file.Write(data)] when it succeeds, on the handle opened at [path]:
    the bytes are appended at the handle's offset, the end of what it wrote. *)
Definition file_Write (path : string) (data : list Byte.byte) (fs : FS) : FS :=
  alter (fun content => content ++ data) path fs.

(** *** Receiver *)

Record Receiver : Type := mkReceiver {
  r_relayURL : string;
  r_token : string;
  r_key : list Byte.byte;
  r_conn : option Conn;
  r_debug : bool
}.

Definition NewReceiver (relayURL token : string) (key : list Byte.byte) : Receiver :=
  mkReceiver relayURL token key None false.

Definition NewReceiverWithDebug (relayURL token : string) (key : list Byte.byte)
    (debug : bool) : Receiver :=
  mkReceiver relayURL token key None debug.

(** What the outside world answers during one iteration of the receive
    loop. *)
Record RecvTurn : Type := mkRecvTurn {
  ctx_done : bool;                       (* ctx.Done() is closed at the select *)
  read_msg : result (list Byte.byte);    (* r.conn.ReadMessage() *)
  disk_err : option error;               (* the error of os.Create / file.Write, if called *)
  since_start : Z                        (* time.Since(startTime), if called *)
}.

(** The local variables of [ReceiveFile]; [file] is the path the open
    handle was created at, [None] for a nil handle. *)
Record RecvState : Type := mkRecvState {
  metadata : Metadata;
  file : option string;
  bytesReceived : Z;
  destPath : string;
  fileContent : list Byte.byte
}.

Definition initRecvState : RecvState := mkRecvState zeroMetadata None 0 "" [].

(** How one iteration ends. *)
Inductive RecvStep : Type :=
| RecvNext (st : RecvState) (fs : FS) (progress : list (Z * Z))
| RecvReturn (path : string) (stats : Stats) (err : option error) (fs : FS)
| RecvPanic (msg : string) (fs : FS).

(** [if file != nil { os.Remove(destPath) }]. *)
Definition remove_if_open (st : RecvState) (fs : FS) : FS :=
  match file st with
  | Some _ => os_Remove (destPath st) fs
  | None => fs
  end.

Section ReceiveFile.
Context `{Packages}.
Variable r : Receiver.
Variable destDir : string.
Variable has_progressFn : bool.

(** The [MsgTypeMetadata] case.  The buffer for the in-memory copy is
    allocated with capacity [metadata.Size]; a negative capacity makes the
    runtime panic (running out of memory on a very large one is not
    modelled). *)
Definition on_metadata (t : RecvTurn) (msg : Message) (st : RecvState) (fs : FS) : RecvStep :=
  match ParseMetadata (msg_Payload msg) with
  | Err err =>
      RecvReturn "" zeroStats (Some (wrapError "failed to parse metadata: " (Some err))) fs
  | Ok meta =>
      let destPath := Join destDir (Filename meta) in
      match os_Create_err destPath (disk_err t) with
      | Some err =>
          RecvReturn "" zeroStats (Some (wrapError "failed to create file: " (Some err))) fs
      | None =>
          let fs := os_Create destPath fs in
          (* fileContent = make([]byte, 0, metadata.Size) *)
          if Size meta <? 0 then RecvPanic "makeslice: cap out of range" fs
          else RecvNext (mkRecvState meta (Some destPath) (bytesReceived st) destPath []) fs []
      end
  end.

(** The [MsgTypeChunk] case. *)
Definition on_chunk (t : RecvTurn) (msg : Message) (st : RecvState) (fs : FS) : RecvStep :=
  match file st with
  | None =>
      RecvReturn "" zeroStats (Some (errorString "received chunk before metadata")) fs
  | Some handle =>
      match disk_err t with
      | Some err =>
          RecvReturn "" zeroStats (Some (wrapError "failed to write chunk: " (Some err)))
                     (os_Remove (destPath st) fs)
      | None =>
          let n := Z.of_nat (length (msg_Payload msg)) in
          let received := wrap64 (bytesReceived st + n) in
          RecvNext (mkRecvState (metadata st) (file st) received (destPath st)
                                (fileContent st ++ msg_Payload msg))
                   (file_Write handle (msg_Payload msg) fs)
                   (if has_progressFn then [(received, Size (metadata st))] else [])
      end
  end.

(** The [MsgTypeComplete] case. *)
Definition on_complete (t : RecvTurn) (st : RecvState) (fs : FS) : RecvStep :=
  let finish :=
    let duration := since_start t in
    let speed := PrimFloat.div (float64_of_int64 (bytesReceived st)) (Seconds duration) in
    RecvReturn (destPath st) (mkStats duration (bytesReceived st) speed) None fs in
  if negb (String.eqb (Checksum (metadata st)) "") then
    let computedChecksum := ComputeChecksum (fileContent st) in
    if negb (String.eqb computedChecksum (Checksum (metadata st))) then
      RecvReturn "" zeroStats
        (Some (errorString ("checksum mismatch: expected " +:+ Checksum (metadata st)
                            +:+ ", got " +:+ computedChecksum)))
        (os_Remove (destPath st) fs)
    else finish
  else finish.

(** One iteration of the [for] loop. *)
Definition recv_iteration (t : RecvTurn) (st : RecvState) (fs : FS) : RecvStep :=
  if ctx_done t then
    RecvReturn "" zeroStats (Some (errorString "transfer cancelled by receiver"))
               (remove_if_open st fs)
  else
    match r_conn r with
    | None => RecvPanic "invalid memory address or nil pointer dereference" fs
    | Some _ =>
        match read_msg t with
        | Err err =>
            RecvReturn "" zeroStats (Some (wrapError "failed to read message: " (Some err)))
                       (remove_if_open st fs)
        | Ok encryptedData =>
            match DecryptChunk encryptedData (r_key r) with
            | Err err =>
                RecvReturn "" zeroStats
                  (Some (wrapError "failed to decrypt message: " (Some err)))
                  (remove_if_open st fs)
            | Ok decrypted =>
                match DecodeMessage decrypted with
                | Err err =>
                    RecvReturn "" zeroStats
                      (Some (wrapError "failed to decode message: " (Some err)))
                      (remove_if_open st fs)
                | Ok msg =>
                    match msg_Type msg with
                    | MsgTypeMetadata => on_metadata t msg st fs
                    | MsgTypeChunk => on_chunk t msg st fs
                    | MsgTypeComplete => on_complete t st fs
                    | MsgTypeCancel =>
                        RecvReturn "" zeroStats
                          (Some (errorString ("sender cancelled transfer: "
                                              +:+ string_of_bytes (msg_Payload msg))))
                          (os_Remove (destPath st) fs)
                    | MsgTypeError =>
                        RecvReturn "" zeroStats
                          (Some (errorString ("sender error: "
                                              +:+ string_of_bytes (msg_Payload msg))))
                          (os_Remove (destPath st) fs)
                    | MsgTypeReady => RecvNext st fs []
                    end
                end
            end
        end
    end.

(** What a call of [ReceiveFile] leaves behind: how it ended, the disk, the
    calls of the progress callback, and the number of iterations it ran. *)
Record RecvRun : Type := mkRecvRun {
  recv_result : outcome (string * Stats * option error);
  recv_fs : FS;
  recv_progress : list (Z * Z);
  recv_turns : nat
}.

(** The loop, over the turns the world grants, [n] iterations done; [None]
    when the turns are used up and the loop is still running. *)
Fixpoint receive_loop (turns : list RecvTurn) (st : RecvState) (fs : FS)
    (progress : list (Z * Z)) (n : nat) : option RecvRun :=
  match turns with
  | [] => None
  | t :: turns' =>
      match recv_iteration t st fs with
      | RecvNext st' fs' calls => receive_loop turns' st' fs' (progress ++ calls) (S n)
      | RecvReturn path stats err fs' =>
          Some (mkRecvRun (Returned (path, stats, err)) fs' progress (S n))
      | RecvPanic msg fs' => Some (mkRecvRun (Panicked msg) fs' progress (S n))
      end
  end.

Definition ReceiveFile (turns : list RecvTurn) (fs : FS) : option RecvRun :=
  receive_loop turns initRecvState fs [] 0.

End ReceiveFile.

Definition DefaultChunkSize : Z := 64 * 1024.

Record Config : Type := mkConfig {
  ChunkSize : Z;     (* int *)
  Timeout : Z;       (* time.Duration *)
  Retries : Z;       (* int *)
  Debug : bool
}.

Record Sender : Type := mkSender {
  s_relayURL : string;
  s_token : string;
  s_key : list Byte.byte;
  s_conn : option Conn;
  s_config : Config
}.

Definition NewSender (relayURL token : string) (key : list Byte.byte) (cfg : Config) : Sender :=
  let cfg := if ChunkSize cfg =? 0
             then mkConfig DefaultChunkSize (Timeout cfg) (Retries cfg) (Debug cfg) else cfg in
  let cfg := if Timeout cfg =? 0
             then mkConfig (ChunkSize cfg) (5 * Minute) (Retries cfg) (Debug cfg) else cfg in
  let cfg := if Retries cfg =? 0
             then mkConfig (ChunkSize cfg) (Timeout cfg) 3 (Debug cfg) else cfg in
  mkSender relayURL token key None cfg.

(** *** Sender.Connect *)

(** What [Connect] does to the outside world. *)
Inductive ConnectEffect : Type :=
| Dial (url : string)          (* websocket.DefaultDialer.Dial(url, nil) *)
| Sleep (d : Z).               (* time.Sleep(d) *)

(** The answer of one [Dial]. *)
Inductive DialResult : Type :=
| DialOk (conn : Conn)
| DialErr (err : error).

(** The relay URL of a session: [fmt.Sprintf("%s/ws/%s", relayURL, token)]. *)
Definition ws_url (relayURL token : string) : string :=
  relayURL +:+ "/ws/" +:+ token.

(** The body of the [for attempt := 0; attempt < Retries; attempt++] loop.
    [dial i] is the answer to the [i]-th call of [Dial] (from 0); [fuel]
    bounds the number of iterations, [None] means the bound was hit. *)
Fixpoint connect_loop (dial : nat -> DialResult) (s : Sender) (fuel : nat)
    (attempt : Z) (lastErr : option error) (tr : list ConnectEffect)
    : option (Sender * list ConnectEffect * option error) :=
  if attempt <? Retries (s_config s) then
    match fuel with
    | O => None
    | S fuel' =>
        let url := ws_url (s_relayURL s) (s_token s) in
        let tr := tr ++ [Dial url] in
        match dial (Z.to_nat attempt) with
        | DialOk conn =>
            Some (mkSender (s_relayURL s) (s_token s) (s_key s) (Some conn) (s_config s),
                  tr, None)
        | DialErr err =>
            let lastErr := Some err in
            let tr :=
              if attempt <? Retries (s_config s) - 1 then
                let backoff := wrap64 (wrap64 ((attempt + 1) * 2) * Second) in
                tr ++ [Sleep backoff]
              else tr in
            connect_loop dial s fuel' (wrap64 (attempt + 1)) lastErr tr
        end
    end
  else
    Some (s, tr,
          Some (wrapError ("failed to connect to relay after "
                            +:+ pretty (Retries (s_config s)) +:+ " attempts: ") lastErr)).

Definition Connect (dial : nat -> DialResult) (s : Sender)
    : option (Sender * list ConnectEffect * option error) :=
  connect_loop dial s (Z.to_nat (Retries (s_config s))) 0 None [].

(** The [Dial] calls and the [Sleep] intervals of a trace. *)
Definition dials (tr : list ConnectEffect) : list string :=
  omap (fun e => match e with Dial u => Some u | _ => None end) tr.
Definition sleeps (tr : list ConnectEffect) : list Z :=
  omap (fun e => match e with Sleep d => Some d | _ => None end) tr.

(** *** Sender.SendFile *)

(** What the outside world answers during one call of [SendFile]. *)
Record SendWorld : Type := mkSendWorld {
  open_file : result (list Byte.byte);  (* os.Open(filePath): the content of the file *)
  stat_err : option error;              (* file.Stat() *)
  readall_err : option error;           (* io.ReadAll(file) *)
  seek_err : option error;              (* file.Seek(0, 0) *)
  read_err : nat -> option error;       (* file.Read(buf) of iteration i, io.EOF apart *)
  write_err : nat -> option error;      (* the i-th s.conn.WriteMessage, from 0 *)
  send_ctx_done : nat -> bool;          (* ctx.Done() is closed at the select of iteration i *)
  ctx_Err : error;                      (* ctx.Err() *)
  send_since_start : Z                  (* time.Since(startTime) *)
}.

(** What [SendFile] does to the outside world, in program order. *)
Inductive SendEffect : Type :=
| FileReadAll                           (* io.ReadAll(file) *)
| FileSeekStart                         (* file.Seek(0, 0) *)
| FileRead (n : nat)                    (* file.Read(buf) returned n bytes *)
| FileReadEOF                           (* file.Read(buf) returned io.EOF *)
| ConnWrite (frame : list Byte.byte)    (* s.conn.WriteMessage(BinaryMessage, frame) *)
| ProgressCall (sent total : Z).        (* progressFn(sent, total) *)

(** The frames handed to the connection. *)
Definition frames (tr : list SendEffect) : list (list Byte.byte) :=
  omap (fun e => match e with ConnWrite f => Some f | _ => None end) tr.

(** [file.Read(buf)] on a regular file at offset [off], for a buffer of
    [buflen] bytes: the number of bytes read, or [None] for [io.EOF].  A
    read of a regular file fills the buffer unless the file ends first. *)
Definition file_Read (content : list Byte.byte) (off buflen : nat) : option nat :=
  if (buflen =? 0)%nat then Some 0%nat
  else if (length content <=? off)%nat then None
  else Some (Nat.min buflen (length content - off)).

Section SendFile.
Context `{Packages}.
Variable s : Sender.
Variable has_progressFn : bool.
Variable w : SendWorld.

(** The chunk loop: iteration [i], the file offset [off], [fuel] bounds the
    iterations left.  It ends in a return, or falls out at [io.EOF] with the
    number of chunks written and the bytes sent ([inl]). *)
Fixpoint send_loop (content : list Byte.byte) (fileSize : Z) (fuel : nat) (i off : nat)
    (bytesSent : Z) (tr : list SendEffect)
    : option ((nat * Z + outcome (Stats * option error)) * list SendEffect) :=
  match fuel with
  | O => None
  | S fuel' =>
      if send_ctx_done w i then
        let cancelMsg := NewCancelMessage "cancelled by sender" in
        let tr :=
          match EncryptChunk (EncodeMessage cancelMsg) (s_key s) with
          | Ok encMsg => tr ++ [ConnWrite encMsg]
          | Err _ => tr
          end in
        Some (inr (Returned (zeroStats, Some (ctx_Err w))), tr)
      else
        match file_Read content off (Z.to_nat (ChunkSize (s_config s))) with
        | None => Some (inl (i, bytesSent), tr ++ [FileReadEOF])
        | Some n =>
            match read_err w i with
            | Some err =>
                Some (inr (Returned (zeroStats,
                             Some (wrapError "failed to read file: " (Some err)))), tr)
            | None =>
                let tr := tr ++ [FileRead n] in
                let chunkMsg := NewChunkMessage (take n (drop off content)) in
                match EncryptChunk (EncodeMessage chunkMsg) (s_key s) with
                | Err err =>
                    Some (inr (Returned (zeroStats,
                                 Some (wrapError "failed to encrypt chunk: " (Some err)))), tr)
                | Ok encryptedChunk =>
                    let tr := tr ++ [ConnWrite encryptedChunk] in
                    match write_err w (S i) with
                    | Some err =>
                        Some (inr (Returned (zeroStats,
                                     Some (wrapError "failed to send chunk: " (Some err)))), tr)
                    | None =>
                        let bytesSent := wrap64 (bytesSent + Z.of_nat n) in
                        let tr := if has_progressFn
                                  then tr ++ [ProgressCall bytesSent fileSize] else tr in
                        send_loop content fileSize fuel' (S i) (off + n) bytesSent tr
                    end
                end
            end
        end
  end.

(** The statements after the loop. *)
Definition send_complete (i : nat) (bytesSent : Z) (tr : list SendEffect)
    : outcome (Stats * option error) * list SendEffect :=
  let completeMsg := NewCompleteMessage in
  match EncryptChunk (EncodeMessage completeMsg) (s_key s) with
  | Err err =>
      (Returned (zeroStats,
         Some (wrapError "failed to encrypt complete message: " (Some err))), tr)
  | Ok encryptedComplete =>
      let tr := tr ++ [ConnWrite encryptedComplete] in
      match write_err w (S i) with
      | Some err =>
          (Returned (zeroStats,
             Some (wrapError "failed to send complete message: " (Some err))), tr)
      | None =>
          let duration := send_since_start w in
          let speed := PrimFloat.div (float64_of_int64 bytesSent) (Seconds duration) in
          (Returned (mkStats duration bytesSent speed, None), tr)
      end
  end.

(** The metadata record of a file. *)
Definition file_metadata (filePath : string) (content : list Byte.byte) : Metadata :=
  let chunkSize := ChunkSize (s_config s) in
  let fileSize := Z.of_nat (length content) in
  let totalChunks := quot64 (wrap64 (wrap64 (fileSize + chunkSize) - 1)) chunkSize in
  let mimeType := TypeByExtension (Ext filePath) in
  let mimeType := if String.eqb mimeType "" then "application/octet-stream" else mimeType in
  mkMetadata (Base filePath) fileSize totalChunks (ComputeChecksum content) mimeType 0 1.

(** [SendFile]; [None] when the chunk loop does not end. *)
Definition SendFile (filePath : string)
    : option (outcome (Stats * option error) * list SendEffect) :=
  match open_file w with
  | Err err =>
      Some (Returned (zeroStats, Some (wrapError "failed to open file: " (Some err))), [])
  | Ok content =>
  match stat_err w with
  | Some err =>
      Some (Returned (zeroStats, Some (wrapError "failed to stat file: " (Some err))), [])
  | None =>
  let tr := [FileReadAll] in
  match readall_err w with
  | Some err =>
      Some (Returned (zeroStats,
              Some (wrapError "failed to read file for checksum: " (Some err))), tr)
  | None =>
  let tr := tr ++ [FileSeekStart] in
  match seek_err w with
  | Some err =>
      Some (Returned (zeroStats, Some (wrapError "failed to seek file: " (Some err))), tr)
  | None =>
  let fileSize := Z.of_nat (length content) in
  if ChunkSize (s_config s) =? 0 then Some (Panicked "integer divide by zero", tr)
  else
  match NewMetadataMessage (file_metadata filePath content) with
  | Err err => Some (Returned (zeroStats, Some err), tr)
  | Ok metaMsg =>
  match EncryptChunk (EncodeMessage metaMsg) (s_key s) with
  | Err err =>
      Some (Returned (zeroStats,
              Some (wrapError "failed to encrypt metadata: " (Some err))), tr)
  | Ok encryptedMeta =>
  match s_conn s with
  | None => Some (Panicked "invalid memory address or nil pointer dereference", tr)
  | Some _ =>
  let tr := tr ++ [ConnWrite encryptedMeta] in
  match write_err w 0%nat with
  | Some err =>
      Some (Returned (zeroStats, Some (wrapError "failed to send metadata: " (Some err))), tr)
  | None =>
  (* buf := make([]byte, s.config.ChunkSize) *)
  if ChunkSize (s_config s) <? 0 then Some (Panicked "makeslice: len out of range", tr)
  else
  match send_loop content fileSize (S (length content)) 0 0 0 tr with
  | None => None
  | Some (inr res, tr) => Some (res, tr)
  | Some (inl (i, bytesSent), tr) => Some (send_complete i bytesSent tr)
  end
  end end end end end end end end.

End SendFile.

(** *** The handshake: Receiver.Connect and Sender.WaitForReceiver *)

(** What [Receiver.Connect] does to the outside world. *)
Inductive HandshakeEffect : Type :=
| HDial (url : string)                  (* websocket.DefaultDialer.Dial(url, nil) *)
| HWrite (frame : list Byte.byte).      (* r.conn.WriteMessage(BinaryMessage, frame) *)

(** [Receiver.Connect]: one dial, then the encrypted [Ready] message.
    [dial] is the answer of the dialer and [write_err] that of
    [WriteMessage].  The connection is stored as soon as the dial has
    succeeded, also when the call then fails. *)
Definition Receiver_Connect `{Packages} (dial : DialResult) (write_err : option error)
    (r : Receiver) : Receiver * list HandshakeEffect * option error :=
  let url := ws_url (r_relayURL r) (r_token r) in
  match dial with
  | DialErr err =>
      (r, [HDial url], Some (wrapError "failed to connect to relay: " (Some err)))
  | DialOk conn =>
      let r := mkReceiver (r_relayURL r) (r_token r) (r_key r) (Some conn) (r_debug r) in
      let readyMsg := NewReadyMessage in
      match EncryptChunk (EncodeMessage readyMsg) (r_key r) with
      | Err err =>
          (r, [HDial url], Some (wrapError "failed to encrypt ready message: " (Some err)))
      | Ok encryptedReady =>
          match write_err with
          | Some err =>
              (r, [HDial url; HWrite encryptedReady],
               Some (wrapError "failed to send ready message: " (Some err)))
          | None => (r, [HDial url; HWrite encryptedReady], None)
          end
      end
  end.

(** [Sender.WaitForReceiver]: [read] is the answer of [s.conn.ReadMessage()]
    under the deadline; [type_code] gives the integer behind a message type
    (the constants are declared with the codec), printed by [%d]. *)
Definition WaitForReceiver `{Packages} (type_code : MsgType -> Z)
    (read : result (list Byte.byte)) (s : Sender) : outcome (option error) :=
  match s_conn s with
  | None => Panicked "invalid memory address or nil pointer dereference"
  | Some _ =>
      match read with
      | Err err => Returned (Some (wrapError "timeout waiting for receiver: " (Some err)))
      | Ok message =>
          match DecryptChunk message (s_key s) with
          | Err err =>
              Returned (Some (wrapError "failed to decrypt ready message: " (Some err)))
          | Ok decrypted =>
              match DecodeMessage decrypted with
              | Err err => Returned (Some err)
              | Ok msg =>
                  match msg_Type msg with
                  | MsgTypeReady => Returned None
                  | ty =>
                      Returned (Some (errorString ("unexpected message type: "
                                                   +:+ pretty (type_code ty))))
                  end
              end
          end
      end
  end.

End transfer.

(** ** internal/history *)

Module history.
Import Go.

Record Entry : Type := mkEntry {
  Time : Z;              (* time.Time *)
  Direction : string;    (* "send" | "receive" *)
  Filename : string;
  Size : Z;
  Duration : Z;
  Speed : float;
  Status : string;
  Checksum : string
}.

(** [encoding/json] on the history: [json.MarshalIndent(entries, "", "  ")]
    and [json.Unmarshal(data, &entries)]. *)
Class Json : Type := {
  MarshalIndent : list Entry -> result (list Byte.byte);
  Unmarshal : list Byte.byte -> result (list Entry)
}.

(** What the outside world answers to the calls of the package: the path
    the [k]-th call of [historyFile()] arrives at (or the error of
    [os.UserHomeDir] or [os.MkdirAll]), the error of [os.ReadFile] on a file
    that exists, and the error of [os.WriteFile], with the number of bytes
    that were written when it failed after the file had been opened and
    truncated. *)
Record World : Type := mkWorld {
  historyFile : nat -> result string;
  read_err : option error;
  write_err : option (error * option nat)
}.

Section History.
Context `{Json}.
Variable w : World.

(** [LoadEntries], with the [call]-th call of [historyFile()]: a file that
    does not exist is an empty history. *)
Definition LoadEntries (call : nat) (fs : gmap string (list Byte.byte))
    : result (list Entry) :=
  match historyFile w call with
  | Err err => Err err
  | Ok path =>
      match fs !! path with
      | None => Ok []
      | Some data =>
          match read_err w with
          | Some err => Err err
          | None => Unmarshal data
          end
      end
  end.

(** [entries = append(entries, e)], cut to the last 100. *)
Definition keep_last_100 (entries : list Entry) (e : Entry) : list Entry :=
  let entries := entries ++ [e] in
  if (100 <? length entries)%nat then drop (length entries - 100) entries else entries.

(** [SaveEntry]: the error it returns and the disk it leaves. *)
Definition SaveEntry (e : Entry) (fs : gmap string (list Byte.byte))
    : option error * gmap string (list Byte.byte) :=
  match LoadEntries 0 fs with
  | Err err => (Some err, fs)
  | Ok entries =>
      let entries := keep_last_100 entries e in
      match historyFile w 1 with
      | Err err => (Some err, fs)
      | Ok path =>
          match MarshalIndent entries with
          | Err err => (Some err, fs)
          | Ok data =>
              match write_err w with
              | Some (err, None) => (Some err, fs)
              | Some (err, Some n) => (Some err, <[path := take n data]> fs)
              | None => (None, <[path := data]> fs)
              end
          end
      end
  end.

End History.

End history.

(** ** cmd/pulse: the receive command *)

Module cli.
Import Go transfer.

(** [os.Stat(path)] on the regular files of the disk: the name and the size,
    or nothing (a nil [FileInfo]) for the empty path or a missing file. *)
Definition os_Stat (path : string) (fs : FS) : option (string * Z) :=
  if String.eqb path "" then None
  else match fs !! path with
       | Some content => Some (Base path, Z.of_nat (length content))
       | None => None
       end.

(** What the outside world answers during one call of [cmdReceive]. *)
Record ReceiveWorld : Type := mkReceiveWorld {
  mkdir_err : option error;          (* os.MkdirAll(destDir, 0755) *)
  token : string;                    (* genToken() *)
  key : list Byte.byte;              (* crypto.GenerateKey() *)
  qr_err : option error;             (* qr.GenerateTerminal(url) *)
  dial : DialResult;                 (* the dial of receiver.Connect() *)
  ready_write_err : option error;    (* the write of the Ready message *)
  turns : list RecvTurn;             (* the iterations of receiver.ReceiveFile *)
  clock : Z;                         (* time.Now() for the history entry *)
  hist : history.World               (* the calls of history.SaveEntry *)
}.

(** The progress callbacks of [cmdReceive] and of [makeProgressFn] draw a
    bar of [int(pct/2.5)] full and [40 - int(pct/2.5)] empty cells with
    [strings.Repeat], which panics on a negative count, where [pct] is
    [float64(received) / float64(total) * 100]; for
    [0 <= received <= total] and [0 < total] both counts are between 0 and
    40. *)
Definition bar_in_range (call : Z * Z) : bool :=
  let '(received, total) := call in
  (0 <=? received) && (received <=? total) && (0 <? total).

(** [cmdReceive(relay, destDir, ...)], printing and the desktop
    notification left out: how it ends and the disk it leaves.  [None] when
    [ReceiveFile] is still running after the turns of the world, and when
    the progress callback was called with counts for which its bar is not
    in range: what the call does then is not modelled.  The error of
    [history.SaveEntry] is dropped, as in the source. *)
Definition cmdReceive `{Packages} `{history.Json} (w : ReceiveWorld) (relay destDir : string)
    (debug : bool) (fs : FS) : option (outcome (option error) * FS) :=
  match mkdir_err w with
  | Some err =>
      Some (Returned (Some (wrapError "failed to create destination directory: " (Some err))),
            fs)
  | None =>
      match qr_err w with
      | Some err => Some (Returned (Some err), fs)
      | None =>
          let receiver := NewReceiverWithDebug relay (token w) (key w) debug in
          match Receiver_Connect (dial w) (ready_write_err w) receiver with
          | (_, _, Some err) => Some (Returned (Some err), fs)
          | (receiver, _, None) =>
              match ReceiveFile receiver destDir true (turns w) fs with
              | None => None
              | Some run =>
                  if negb (forallb bar_in_range (recv_progress run)) then None else
                  match recv_result run with
                  | Panicked msg => Some (Panicked msg, recv_fs run)
                  | Returned (_, _, Some err) => Some (Returned (Some err), recv_fs run)
                  | Returned (savedPath, stats, None) =>
                      match os_Stat savedPath (recv_fs run) with
                      | None =>
                          (* fi.Name() on a nil FileInfo *)
                          Some (Panicked "invalid memory address or nil pointer dereference",
                                recv_fs run)
                      | Some (name, size) =>
                          let histEntry :=
                            history.mkEntry (clock w) "receive" name size
                              (transfer.Duration stats) (transfer.Speed stats) "ok" "" in
                          let '(_, fs') := history.SaveEntry (hist w) histEntry (recv_fs run) in
                          Some (Returned None, fs')
                      end
                  end
              end
          end
      end
  end.

End cli.

(** ** cmd/pulse: the relay *)

Module relay.
Import Go.

(** A [*websocket.Conn] and a [*Room], by identity. *)
Abbreviation Conn := nat.
Abbreviation RoomRef := nat.

(** Constants of the websocket library. *)
Definition TextMessage : Z := 1.
Definition BinaryMessage : Z := 2.
Definition CloseMessage : Z := 8.
Definition ClosePolicyViolation : Z := 1008.

Record Room : Type := mkRoom {
  token : string;
  clients : list Conn;
  createdAt : Z            (* time.Time, in nanoseconds *)
}.

(** What the relay does to its connections. *)
Inductive Effect : Type :=
| ConnClose (c : Conn)                                   (* c.Close() *)
| ConnWriteClose (c : Conn) (code : Z) (text : string)   (* c.WriteMessage(CloseMessage, FormatCloseMessage(code, text)) *)
| ConnWriteBinary (c : Conn) (message : list Byte.byte). (* c.WriteMessage(BinaryMessage, message) *)

(** *** Methods of [Room], each run under [room.mu] *)

Definition AddClient (room : Room) (conn : Conn) : Room * bool :=
  if (2 <=? length (clients room))%nat then (room, false)
  else (mkRoom (token room) (clients room ++ [conn]) (createdAt room), true).

(** The first entry equal to [conn] is cut out of the slice. *)
Fixpoint remove_first (conn : Conn) (l : list Conn) : list Conn :=
  match l with
  | [] => []
  | c :: l' => if (c =? conn)%nat then l' else c :: remove_first conn l'
  end.

Definition RemoveClient (room : Room) (conn : Conn) : Room :=
  mkRoom (token room) (remove_first conn (clients room)) (createdAt room).

Definition Broadcast (room : Room) (sender : Conn) (message : list Byte.byte) : list Effect :=
  (fun conn => ConnWriteBinary conn message)
    <$> filter (fun conn => conn <> sender) (clients room).

(** *** The relay process *)

(** The program points of one [handleWebSocket] goroutine between two
    critical sections; [room] is the pointer the goroutine holds. *)
Inductive Handler : Type :=
| AtGetOrCreateRoom (tok : string)              (* upgraded, before roomManager.GetOrCreateRoom *)
| AtAddClient (tok : string) (room : RoomRef)   (* before room.AddClient(conn) *)
| AtReadMessage (tok : string) (room : RoomRef) (* in the loop, in conn.ReadMessage() *)
| AtIsEmpty (tok : string) (room : RoomRef)     (* out of the loop, before the emptiness test *)
| AtDeleteRoom (tok : string) (room : RoomRef)  (* isEmpty held, before roomManager.DeleteRoom *)
| AtDeferRemoveClient (room : RoomRef)          (* returning: deferred room.RemoveClient(conn) *)
| AtDeferClose                                  (* returning: deferred conn.Close() *)
| Finished.

(** The answer of [conn.ReadMessage()]. *)
Inductive ReadResult : Type :=
| ReadErr
| ReadMsg (messageType : Z) (message : list Byte.byte).

(** The state of the relay process: the rooms ever allocated, by address;
    the session table [roomManager.rooms]; the goroutines serving
    connections; the clock; the instant of the next tick of the cleanup
    ticker; and the effects so far. *)
Record Relay : Type := mkRelay {
  heap : list Room;
  rooms : gmap string RoomRef;
  handlers : gmap Conn Handler;
  now : Z;
  next_tick : Z;
  log : list Effect
}.

(** [NewRoomManager()] at instant [t0]: an empty table, and a ticker of
    period one minute. *)
Definition NewRoomManager (t0 : Z) : Relay :=
  mkRelay [] ∅ ∅ t0 (t0 + 1 * Minute) [].

Definition set_handler (c : Conn) (h : Handler) (st : Relay) : Relay :=
  mkRelay (heap st) (rooms st) (<[c := h]> (handlers st)) (now st) (next_tick st) (log st).

Definition set_room (p : RoomRef) (room : Room) (st : Relay) : Relay :=
  mkRelay (<[p := room]> (heap st)) (rooms st) (handlers st) (now st) (next_tick st) (log st).

Definition emit (es : list Effect) (st : Relay) : Relay :=
  mkRelay (heap st) (rooms st) (handlers st) (now st) (next_tick st) (log st ++ es).

(** [rm.GetOrCreateRoom(token)], under [rm.mu]. *)
Definition GetOrCreateRoom (tok : string) (st : Relay) : RoomRef * Relay :=
  match rooms st !! tok with
  | Some p => (p, st)
  | None =>
      let p := length (heap st) in
      (p, mkRelay (heap st ++ [mkRoom tok [] (now st)]) (<[tok := p]> (rooms st))
                  (handlers st) (now st) (next_tick st) (log st))
  end.

(** [rm.DeleteRoom(token)], under [rm.mu]. *)
Definition DeleteRoom (tok : string) (st : Relay) : Relay :=
  mkRelay (heap st) (delete tok (rooms st)) (handlers st) (now st) (next_tick st) (log st).

(** The test of the cleanup loop: [time.Since(room.createdAt) > 10*time.Minute]. *)
Definition expired (st : Relay) (p : RoomRef) : bool :=
  match heap st !! p with
  | Some room => 10 * Minute <? now st - createdAt room
  | None => false
  end.

(** One round of the cleanup loop, under [rm.mu]: every expired room has its
    connections closed and leaves the table.  (The room locks are taken one
    at a time inside; another goroutine can only touch a room before or
    after its turn, which is the same as before or after the whole round.) *)
Definition cleanup (st : Relay) : Relay :=
  let victims := filter (fun e => expired st e.2 = true) (map_to_list (rooms st)) in
  let closes :=
    victims ≫= (fun e => match heap st !! e.2 with
                        | Some room => ConnClose <$> clients room
                        | None => []
                        end) in
  mkRelay (heap st) (filter (fun e => expired st e.2 = false) (rooms st))
          (handlers st) (now st) (next_tick st) (log st ++ closes).

(** One tick of the ticker: the clock is at the tick, the round runs, and the
    next tick is a period later. *)
Definition at_tick (st : Relay) : Relay :=
  mkRelay (heap st) (rooms st) (handlers st) (next_tick st)
          (next_tick st + 1 * Minute) (log st).

Definition tick (st : Relay) : Relay := cleanup (at_tick st).

(** The ticks that fall within the next [dt] nanoseconds. *)
Definition ticks_within (st : Relay) (dt : Z) : nat :=
  if next_tick st <=? now st + dt
  then S (Z.to_nat ((now st + dt - next_tick st) / (1 * Minute)))
  else 0%nat.

(** [dt] nanoseconds pass with no request served. *)
Definition elapse (dt : Z) (st : Relay) : Relay :=
  let st' := Nat.iter (ticks_within st dt) tick st in
  mkRelay (heap st') (rooms st') (handlers st') (now st + dt) (next_tick st') (log st').

(** One critical section, or one blocking call, of the goroutine serving
    [conn]; [input] is what [conn.ReadMessage()] answers if that is the call. *)
Definition run_handler (conn : Conn) (input : ReadResult) (st : Relay) : Relay :=
  match handlers st !! conn with
  | None | Some Finished => st
  | Some (AtGetOrCreateRoom tok) =>
      let '(p, st) := GetOrCreateRoom tok st in
      set_handler conn (AtAddClient tok p) st
  | Some (AtAddClient tok p) =>
      match heap st !! p with
      | None => st
      | Some room =>
          let '(room', ok) := AddClient room conn in
          if ok then set_handler conn (AtReadMessage tok p) (set_room p room' st)
          else
            set_handler conn AtDeferClose
              (emit [ConnWriteClose conn ClosePolicyViolation "room full"] st)
      end
  | Some (AtReadMessage tok p) =>
      match input with
      | ReadErr => set_handler conn (AtIsEmpty tok p) st
      | ReadMsg messageType message =>
          if messageType =? BinaryMessage then
            match heap st !! p with
            | None => st
            | Some room => emit (Broadcast room conn message) st
            end
          else st
      end
  | Some (AtIsEmpty tok p) =>
      match heap st !! p with
      | None => st
      | Some room =>
          let isEmpty := (length (clients room) =? 0)%nat in
          if isEmpty then set_handler conn (AtDeleteRoom tok p) st
          else set_handler conn (AtDeferRemoveClient p) st
      end
  | Some (AtDeleteRoom tok p) =>
      set_handler conn (AtDeferRemoveClient p) (DeleteRoom tok st)
  | Some (AtDeferRemoveClient p) =>
      match heap st !! p with
      | None => st
      | Some room => set_handler conn AtDeferClose (set_room p (RemoveClient room conn) st)
      end
  | Some AtDeferClose =>
      set_handler conn Finished (emit [ConnClose conn] st)
  end.

(** What happens to the relay. *)
Inductive Event : Type :=
| Request (conn : Conn) (tok : string)       (* GET /ws/{token}, upgraded to [conn] *)
| Run (conn : Conn) (input : ReadResult)     (* the goroutine of [conn] runs one step *)
| Elapse (dt : Z).                           (* time passes *)

Definition step (st : Relay) (ev : Event) : Relay :=
  match ev with
  | Request conn tok =>
      if String.eqb tok "" then st                 (* http.Error "missing token" *)
      else match handlers st !! conn with
           | Some _ => st                          (* a connection is served once *)
           | None => set_handler conn (AtGetOrCreateRoom tok) st
           end
  | Run conn input => run_handler conn input st
  | Elapse dt => if dt <? 0 then st else elapse dt st
  end.

Definition run (evs : list Event) (st : Relay) : Relay := fold_left step evs st.

(** The room a token leads to. *)
Definition room_of (st : Relay) (tok : string) : option Room :=
  rooms st !! tok ≫= fun p => heap st !! p.

End relay.

(** * Specification vocabulary *)

Import Go transfer relay.

(** ** An instance of the packages

    For running the model on concrete frames: the cipher leaves the bytes
    as they are; a frame is a tag byte followed by the payload; a metadata
    payload is the file name, the checksum and the size in decimal, one per
    line; the checksum of a byte sequence is the sum of its bytes, in
    decimal. *)

Definition tag_of (ty : MsgType) : Byte.byte :=
  match ty with
  | MsgTypeReady => Byte.x00 | MsgTypeMetadata => Byte.x01 | MsgTypeChunk => Byte.x02
  | MsgTypeComplete => Byte.x03 | MsgTypeCancel => Byte.x04 | MsgTypeError => Byte.x05
  end.

Definition plain_decode (data : list Byte.byte) : result Message :=
  match data with
  | [] => Err (errorString "message too short")
  | tag :: payload =>
      match tag with
      | Byte.x00 => Ok (mkMessage MsgTypeReady payload)
      | Byte.x01 => Ok (mkMessage MsgTypeMetadata payload)
      | Byte.x02 => Ok (mkMessage MsgTypeChunk payload)
      | Byte.x03 => Ok (mkMessage MsgTypeComplete payload)
      | Byte.x04 => Ok (mkMessage MsgTypeCancel payload)
      | Byte.x05 => Ok (mkMessage MsgTypeError payload)
      | _ => Err (errorString "unknown message type")
      end
  end.

Fixpoint split_line (name : list Byte.byte) (data : list Byte.byte)
    : option (list Byte.byte * list Byte.byte) :=
  match data with
  | [] => None
  | b :: rest =>
      if Byte.eqb b Byte.x0a then Some (rev name, rest) else split_line (b :: name) rest
  end.

(** A decimal number, with an optional minus sign. *)
Definition parse_digits (digits : list Byte.byte) : Z :=
  fold_left (fun acc b => acc * 10 + (Z.of_N (Byte.to_N b) - 48)) digits 0.

Definition parse_decimal (data : list Byte.byte) : Z :=
  match data with
  | Byte.x2d :: digits => - parse_digits digits
  | _ => parse_digits data
  end.

Definition plain_parse (payload : list Byte.byte) : result Metadata :=
  match split_line [] payload with
  | None => Err (errorString "malformed metadata")
  | Some (name, rest) =>
      match split_line [] rest with
      | None => Err (errorString "malformed metadata")
      | Some (checksum, size) =>
          Ok (mkMetadata (string_of_bytes name) (parse_decimal size) 0
                         (string_of_bytes checksum) "" 0 1)
      end
  end.

Definition plain_marshal (meta : Metadata) : result (list Byte.byte) :=
  Ok (bytes_of_string (Filename meta) ++ Byte.x0a :: bytes_of_string (Checksum meta)
      ++ Byte.x0a :: bytes_of_string (pretty (Size meta))).

Definition plain_checksum (data : list Byte.byte) : string :=
  pretty (fold_right (fun b acc => Z.of_N (Byte.to_N b) + acc) 0 data).

Definition plain : Packages := {|
  EncryptChunk data key := Ok data;
  DecryptChunk data key := Ok data;
  ComputeChecksum := plain_checksum;
  EncodeMessage msg := tag_of (msg_Type msg) :: msg_Payload msg;
  DecodeMessage := plain_decode;
  MarshalMetadata := plain_marshal;
  ParseMetadata := plain_parse;
  TypeByExtension ext := ""
|}.

(** A turn of the receive loop in which a frame arrives and nothing fails. *)
Definition arrives (data : list Byte.byte) (since : Z) : RecvTurn :=
  mkRecvTurn false (Ok data) None since.

(** The frame of a message under [plain]. *)
Definition plain_frame (ty : MsgType) (payload : list Byte.byte) : list Byte.byte :=
  tag_of ty :: payload.

(** The metadata payload of [plain] for a size, a file name and a checksum. *)
Definition plain_meta (size : Z) (name checksum : string) : list Byte.byte :=
  bytes_of_string name ++ Byte.x0a :: bytes_of_string checksum
  ++ Byte.x0a :: bytes_of_string (pretty size).

(** A receiver that has connected. *)
Definition connected_receiver : Receiver := mkReceiver "wss://pulse.relay.app" "tok" [] (Some 7%nat) false.

(** ** Sender.Connect *)

(** Every attempt to dial fails. *)
Definition always_failing (dial : nat -> DialResult) : Prop :=
  forall i, exists err, dial i = DialErr err.

Definition default_config : Config := mkConfig 0 0 0 false.

(** ** The relay *)

(** The room a goroutine holds a pointer to, and whether it has joined it. *)
Definition handler_room (h : Handler) : option RoomRef :=
  match h with
  | AtAddClient _ p | AtReadMessage _ p | AtIsEmpty _ p | AtDeleteRoom _ p
  | AtDeferRemoveClient p => Some p
  | _ => None
  end.

Definition joined (h : Handler) : option RoomRef :=
  match h with
  | AtReadMessage _ p | AtIsEmpty _ p | AtDeleteRoom _ p | AtDeferRemoveClient p => Some p
  | _ => None
  end.

(** The invariant of the relay: every room holds at most two connections;
    the table and the goroutines point into the heap; a goroutine that has
    joined a room and not yet run its deferred [RemoveClient] is in the
    room's list; and no goroutine ever stands before [DeleteRoom]. *)
Record relay_inv (st : Relay) : Prop := mkRelayInv {
  inv_capacity : Forall (fun room => (length (clients room) <= 2)%nat) (heap st);
  inv_rooms : forall tok p, rooms st !! tok = Some p -> (p < length (heap st))%nat;
  inv_handlers : forall c h p, handlers st !! c = Some h -> handler_room h = Some p ->
                   (p < length (heap st))%nat;
  inv_joined : forall c h p, handlers st !! c = Some h -> joined h = Some p ->
                 exists room, heap st !! p = Some room /\ c ∈ clients room;
  inv_no_delete : forall c tok p, handlers st !! c <> Some (AtDeleteRoom tok p)
}.

(** The room of [tok] has left the table and the connections of [room] have
    been closed. *)
Definition closed_out (tok : string) (room : Room) (st' : Relay) : Prop :=
  rooms st' !! tok = None /\ forall c, c ∈ clients room -> ConnClose c ∈ log st'.

(** ** Receiver.ReceiveFile *)

Section ReceiveVocabulary.
Context `{Packages}.
Variable r : Receiver.
Variable destDir : string.
Variable pf : bool.

(** The message a turn brings, through read, decryption and decoding, or
    the error [ReceiveFile] returns for it. *)
Definition incoming (t : RecvTurn) : result Message :=
  match read_msg t with
  | Err err => Err (wrapError "failed to read message: " (Some err))
  | Ok encryptedData =>
      match DecryptChunk encryptedData (r_key r) with
      | Err err => Err (wrapError "failed to decrypt message: " (Some err))
      | Ok decrypted =>
          match DecodeMessage decrypted with
          | Err err => Err (wrapError "failed to decode message: " (Some err))
          | Ok msg => Ok msg
          end
      end
  end.

(** The context is not cancelled at the turn and the turn brings [msg]. *)
Definition delivers (t : RecvTurn) (msg : Message) : Prop :=
  ctx_done t = false /\ incoming t = Ok msg.

(** The turn brings a chunk with payload [payload], and the write succeeds. *)
Definition delivers_chunk (t : RecvTurn) (payload : list Byte.byte) : Prop :=
  delivers t (mkMessage MsgTypeChunk payload) /\ disk_err t = None.

(** The [switch] on the type of a decoded message. *)
Definition dispatch (t : RecvTurn) (msg : Message) (st : RecvState) (fs : FS) : RecvStep :=
  match msg_Type msg with
  | MsgTypeMetadata => on_metadata destDir t msg st fs
  | MsgTypeChunk => on_chunk pf t msg st fs
  | MsgTypeComplete => on_complete t st fs
  | MsgTypeCancel =>
      RecvReturn "" zeroStats
        (Some (errorString ("sender cancelled transfer: " +:+ string_of_bytes (msg_Payload msg))))
        (os_Remove (destPath st) fs)
  | MsgTypeError =>
      RecvReturn "" zeroStats
        (Some (errorString ("sender error: " +:+ string_of_bytes (msg_Payload msg))))
        (os_Remove (destPath st) fs)
  | MsgTypeReady => RecvNext st fs []
  end.

(** The byte count after a run of chunks, starting from [b]. *)
Definition received_total (b : Z) (payloads : list (list Byte.byte)) : Z :=
  fold_left (fun acc p => wrap64 (acc + Z.of_nat (length p))) payloads b.

(** The calls of the progress callback over a run of chunks. *)
Fixpoint chunk_progress (size b : Z) (payloads : list (list Byte.byte)) : list (Z * Z) :=
  match payloads with
  | [] => []
  | p :: ps =>
      let b' := wrap64 (b + Z.of_nat (length p)) in
      (if pf then [(b', size)] else []) ++ chunk_progress size b' ps
  end.



(** The metadata the first metadata message among the turns declares. *)
Fixpoint declared (turns : list RecvTurn) : option Metadata :=
  match turns with
  | [] => None
  | t :: rest =>
      match incoming t with
      | Ok msg =>
          match msg_Type msg with
          | MsgTypeMetadata =>
              match ParseMetadata (msg_Payload msg) with
              | Ok meta => Some meta
              | Err _ => None
              end
          | _ => declared rest
          end
      | Err _ => declared rest
      end
  end.

(** The turns a run went through. *)
Definition seen (turns : list RecvTurn) (run : RecvRun) : list RecvTurn :=
  take (recv_turns run) turns.




End ReceiveVocabulary.

(** ** Sender.SendFile *)

(** The fixed-size slices of a file content, in file order: each takes the
    next [cs] bytes, the last one what is left. *)
Fixpoint slices (fuel cs : nat) (l : list Byte.byte) : list (list Byte.byte) :=
  match fuel with
  | O => []
  | S fuel' =>
      match l with
      | [] => []
      | _ => take cs l :: slices fuel' cs (drop cs l)
      end
  end.

Definition slices_of (cs : Z) (l : list Byte.byte) : list (list Byte.byte) :=
  slices (length l) (Z.to_nat cs) l.

(** The frame [frame] is the message [msg], encoded and encrypted under
    [key]. *)
Definition sealed `{Packages} (key : list Byte.byte) (frame : list Byte.byte)
    (msg : Message) : Prop :=
  EncryptChunk (EncodeMessage msg) key = Ok frame.


(** A sender that has connected, with chunk size [cs]. *)
Definition connected_sender (cs : Z) : Sender :=
  mkSender "wss://pulse.relay.app" "tok" [] (Some 7%nat) (mkConfig cs (5 * Minute) 3 false).

(** A world in which nothing fails; the context is cancelled from the
    checkpoint of iteration [k] on, if [cancel_at] is [Some k]. *)
Definition calm_world (content : list Byte.byte) (cancel_at : option nat) : SendWorld :=
  mkSendWorld (Ok content) None None None (fun _ => None) (fun _ => None)
              (fun i => match cancel_at with Some k => (k <=? i)%nat | None => false end)
              (errorString "context canceled") (2 * Second).

Definition ten_bytes : list Byte.byte :=
  [Byte.x01; Byte.x02; Byte.x03; Byte.x04; Byte.x05; Byte.x06; Byte.x07; Byte.x08;
   Byte.x09; Byte.x0a].

(** ** The relay: membership and age *)

(** Every entry of a client list belongs to a goroutine that has joined
    that room and has not yet run its deferred [RemoveClient], and no
    client list holds a connection twice. *)
Record relay_members (st : Relay) : Prop := mkRelayMembers {
  mem_owner : forall p room c, heap st !! p = Some room -> c ∈ clients room ->
                exists h, handlers st !! c = Some h /\ joined h = Some p;
  mem_nodup : forall p room, heap st !! p = Some room -> NoDup (clients room)
}.


(** The event is a step of connection handling, not the passing of time. *)
Definition handling (ev : Event) : Prop :=
  match ev with Elapse _ => False | _ => True end.

(** What a step of connection handling leaves of the rooms: the clock is
    untouched; every room stays at its address with its token and creation
    time; a room that appears is empty and created now; the table keeps its
    entries, and an entry that appears leads to the room that appeared. *)
Record rooms_kept (st st' : Relay) : Prop := mkRoomsKept {
  kept_now : now st' = now st;
  kept_next_tick : next_tick st' = next_tick st;
  kept_heap : forall p room, heap st !! p = Some room ->
                exists room', heap st' !! p = Some room' /\
                  token room' = token room /\ createdAt room' = createdAt room;
  kept_origin : forall p room', heap st' !! p = Some room' ->
                  (exists room, heap st !! p = Some room /\
                     createdAt room = createdAt room') \/
                  (p = length (heap st) /\ createdAt room' = now st /\ clients room' = []);
  kept_table : forall tok p, rooms st !! tok = Some p -> rooms st' !! tok = Some p;
  kept_entries : forall tok p, rooms st' !! tok = Some p ->
                   rooms st !! tok = Some p \/ p = length (heap st)
}.

(** ** Sender.Connect: any number of retries *)

(** The pause after the failed attempt [i] (from 0): [2 * (i + 1)] seconds. *)
Definition backoff_after (i : nat) : Z := (Z.of_nat i + 1) * 2 * Second.

(** [k] attempts that fail, from attempt [a] on, each followed by its pause. *)
Definition failed_attempts (url : string) (a k : nat) : list ConnectEffect :=
  flat_map (fun i => [Dial url; Sleep (backoff_after i)]) (seq a k).

(** The attempts from [a] to [a + k - 1] fail. *)
Definition failing_between (dial : nat -> DialResult) (a k : nat) : Prop :=
  forall i, (a <= i < a + k)%nat -> exists err, dial i = DialErr err.

(** ** Sender.SendFile: in any world *)

(** How the stream of frames after the metadata ends. *)
Inductive StreamEnd : Type :=
| Broken        (* with the last chunk handed to the connection *)
| Cancelled     (* with the cancel message *)
| Completed.    (* with the complete message *)

(** The frames [fs] are the first [k] chunks of [content], sealed, in file
    order, then the frame of the end [e]; the complete message comes only
    after the last chunk. *)
Definition chunk_stream `{Packages} (s : Sender) (content : list Byte.byte) (k : nat)
    (e : StreamEnd) (fs : list (list Byte.byte)) : Prop :=
  exists chunk_frames tail,
    fs = chunk_frames ++ tail /\
    Forall2 (sealed (s_key s)) chunk_frames
      (NewChunkMessage <$> take k (slices_of (ChunkSize (s_config s)) content)) /\
    match e with
    | Broken => tail = []
    | Cancelled =>
        exists f, tail = [f] /\ sealed (s_key s) f (NewCancelMessage "cancelled by sender")
    | Completed =>
        exists f, tail = [f] /\ sealed (s_key s) f NewCompleteMessage /\
          (length (slices_of (ChunkSize (s_config s)) content) <= k)%nat
    end.


(** ** From the sender to the receiver *)

(** The turn brings the frame [f]; the context is not cancelled and the
    disk does not fail. *)
Definition brings (t : RecvTurn) (f : list Byte.byte) : Prop :=
  ctx_done t = false /\ read_msg t = Ok f /\ disk_err t = None.

(** Decryption and decoding undo sealing under the key. *)
Definition opens `{Packages} (key : list Byte.byte) : Prop :=
  forall frame msg, sealed key frame msg ->
    exists data, DecryptChunk frame key = Ok data /\ DecodeMessage data = Ok msg.

(** The payload parses to a record with the name, the size and the
    checksum of [meta], the fields the receiver uses. *)
Definition reads_back `{Packages} (payload : list Byte.byte) (meta : Metadata) : Prop :=
  exists meta', ParseMetadata payload = Ok meta' /\
    Filename meta' = Filename meta /\ Size meta' = Size meta /\
    Checksum meta' = Checksum meta.

(** ** Receiver.ReceiveFile: the paths it writes *)

(** The paths the metadata messages among the turns name: [destDir] joined
    with the file name of each metadata record that parses. *)
Fixpoint declared_paths `{Packages} (r : Receiver) (destDir : string)
    (turns : list RecvTurn) : list string :=
  match turns with
  | [] => []
  | t :: rest =>
      match incoming r t with
      | Ok msg =>
          match msg_Type msg with
          | MsgTypeMetadata =>
              match ParseMetadata (msg_Payload msg) with
              | Ok meta => Join destDir (Filename meta) :: declared_paths r destDir rest
              | Err _ => declared_paths r destDir rest
              end
          | _ => declared_paths r destDir rest
          end
      | Err _ => declared_paths r destDir rest
      end
  end.

(** ** The relay as a pipe *)

(** The steps in which the goroutines of [a] and [b] read the messages
    [msgs], each marked with its direction ([true]: read from [a]). *)
Definition reads_of (a b : Conn) (msgs : list (bool * list Byte.byte)) : list Event :=
  (fun m : bool * list Byte.byte =>
     Run (if m.1 then a else b) (ReadMsg BinaryMessage m.2)) <$> msgs.

(** The same messages, each written to the other connection. *)
Definition writes_of (a b : Conn) (msgs : list (bool * list Byte.byte)) : list Effect :=
  (fun m : bool * list Byte.byte => ConnWriteBinary (if m.1 then b else a) m.2) <$> msgs.

(** ** Receiver.ReceiveFile: how a call can end *)

(** A nil error comes from a [Complete] message, at the last turn the call
    went through, and an error comes with the empty path and zero
    statistics. *)
Definition ends_well `{Packages} (r : Receiver) (turns : list RecvTurn) (n : nat)
    (run : RecvRun) : Prop :=
  match recv_result run with
  | Returned (path, stats, None) =>
      exists k t msg,
        recv_turns run = (n + S k)%nat /\ turns !! k = Some t /\
        delivers r t msg /\ msg_Type msg = MsgTypeComplete /\
        Duration stats = since_start t
  | Returned (path, stats, Some _) => path = "" /\ stats = zeroStats
  | Panicked _ => True
  end.

(** ** internal/history *)

(** An entry of which only the size varies. *)
Definition sized_entry (size : Z) : history.Entry :=
  history.mkEntry 0 "receive" "f" size 0 0%float "ok" "".

(** An instance of the encoder for running the model: one byte per entry,
    its size. *)
Definition tally : history.Json := {|
  history.MarshalIndent entries :=
    Ok ((fun e => default Byte.x00 (Byte.of_N (Z.to_N (history.Size e mod 256)))) <$> entries);
  history.Unmarshal data := Ok ((fun b => sized_entry (Z.of_N (Byte.to_N b))) <$> data)
|}.

(** * Properties *)

(** ** Go base layer *)

Example Clean_examples :
  Clean "a//b/./c/.." = "a/b" /\ Clean "/../a" = "/a" /\ Clean "../../x/.." = "../.." /\
  Clean "" = "." /\ Clean "a/.." = "." /\ Clean "/" = "/" /\ Clean "abc/" = "abc" /\
  Clean "a/../../b" = "../b" /\ Clean "/a/b/../../.." = "/".
Proof. repeat split; reflexivity. Qed.

Example Join_examples :
  Join "downloads" "report.pdf" = "downloads/report.pdf" /\
  Join "" "x" = "x" /\ Join "a" "" = "a" /\ Join "" "" = "" /\
  Join "downloads" "/etc/passwd" = "downloads/etc/passwd" /\
  Join "." "f.txt" = "f.txt".
Proof. repeat split; reflexivity. Qed.

Example Base_Ext_examples :
  Base "/tmp/a.tar.gz" = "a.tar.gz" /\ Base "dir/" = "dir" /\ Base "///" = "/" /\
  Base "" = "." /\ Ext "/tmp/a.tar.gz" = ".gz" /\ Ext "a.b/c" = "" /\ Ext "x" = "".
Proof. repeat split; reflexivity. Qed.

Example inside_examples :
  inside "downloads" "downloads/a/b" = true /\ inside "downloads" "evil" = false /\
  inside "/srv/in" "/srv/in/x" = true /\ inside "/srv/in" "/srv/x" = false /\
  inside "." "x" = true /\ inside "." "../x" = false.
Proof. repeat split; reflexivity. Qed.

Example Seconds_examples :
  Seconds (2 * Second) = 2%float /\ Seconds (1500 * 1000000) = 1.5%float.
Proof. split; vm_compute; reflexivity. Qed.

(** ** 64-bit arithmetic *)

Lemma wrap64_small (z : Z) : - 2 ^ 63 <= z < 2 ^ 63 -> wrap64 z = z.
Proof.
  intros H. unfold wrap64. rewrite Z.mod_small; lia.
Qed.

(** ** Sender.Connect *)

Lemma NewSender_default_retries relay tok key :
  Retries (s_config (NewSender relay tok key default_config)) = 3.
Proof. reflexivity. Qed.

(** C5, as stated, fails: with retries = 3 and a dialer that always fails,
    [Connect] sleeps twice (2s, 4s), never a third time: the sequence of
    backoff intervals is not 2s, 4s, 6s. *)
Lemma Connect_backoff_not_2_4_6 :
  ~ (forall dial : nat -> DialResult, always_failing dial ->
       forall s' tr err,
         Connect dial (NewSender "wss://pulse.relay.app" "t" [] default_config)
           = Some (s', tr, err) ->
         sleeps tr = [2 * Second; 4 * Second; 6 * Second]).
Proof.
  intros H.
  specialize (H (fun _ => DialErr (errorString "refused"))).
  assert (Hf : always_failing (fun _ : nat => DialErr (errorString "refused")))
    by (intros i; eauto).
  specialize (H Hf _ _ _ eq_refl). vm_compute in H. discriminate H.
Qed.

(** C5 (amended): with retries = 3 and a dialer that always fails, [Connect]
    dials exactly 3 times, sleeps [(attempt + 1) * 2] seconds after each
    failed attempt but the last (2s, then 4s), and returns an error that
    wraps the failure of the last attempt; no connection is stored. *)
Theorem Connect_retry_exhaustion (dial : nat -> DialResult) (s : Sender) :
  Retries (s_config s) = 3 ->
  always_failing dial ->
  exists e0 e1 e2,
    dial 0%nat = DialErr e0 /\ dial 1%nat = DialErr e1 /\ dial 2%nat = DialErr e2 /\
    let url := ws_url (s_relayURL s) (s_token s) in
    Connect dial s =
      Some (s,
            [Dial url; Sleep (2 * Second); Dial url; Sleep (4 * Second); Dial url],
            Some (wrapError "failed to connect to relay after 3 attempts: " (Some e2))).
Proof.
  intros HR Hd.
  destruct (Hd 0%nat) as [e0 H0], (Hd 1%nat) as [e1 H1], (Hd 2%nat) as [e2 H2].
  exists e0, e1, e2. repeat split; try assumption.
  unfold Connect. rewrite HR. change (Z.to_nat 3) with 3%nat.
  cbn [connect_loop]. rewrite HR.
  change (0 <? 3) with true. change (0 <? 3 - 1) with true. cbv iota.
  change (Z.to_nat 0) with 0%nat. rewrite H0.
  change (wrap64 (0 + 1)) with 1.
  change (1 <? 3) with true. change (1 <? 3 - 1) with true. cbv iota.
  change (Z.to_nat 1) with 1%nat. rewrite H1.
  change (wrap64 (1 + 1)) with 2.
  change (2 <? 3) with true. change (2 <? 3 - 1) with false. cbv iota.
  change (Z.to_nat 2) with 2%nat. rewrite H2.
  change (wrap64 (2 + 1)) with 3.
  change (3 <? 3) with false. cbv iota.
  reflexivity.
Qed.

Lemma Connect_retry_exhaustion_witness :
  exists e0 e1 e2 : error,
    (fun _ : nat => DialErr (errorString "refused")) 0%nat = DialErr e0 /\
    (fun _ : nat => DialErr (errorString "refused")) 1%nat = DialErr e1 /\
    (fun _ : nat => DialErr (errorString "refused")) 2%nat = DialErr e2 /\
    Connect (fun _ => DialErr (errorString "refused"))
            (NewSender "wss://pulse.relay.app" "tok" [] default_config) =
      Some (NewSender "wss://pulse.relay.app" "tok" [] default_config,
            [Dial "wss://pulse.relay.app/ws/tok"; Sleep 2000000000;
             Dial "wss://pulse.relay.app/ws/tok"; Sleep 4000000000;
             Dial "wss://pulse.relay.app/ws/tok"],
            Some (wrapError "failed to connect to relay after 3 attempts: " (Some e2))).
Proof.
  apply (Connect_retry_exhaustion (fun _ => DialErr (errorString "refused"))
           (NewSender "wss://pulse.relay.app" "tok" [] default_config)).
  - reflexivity.
  - intros i. exists (errorString "refused"). reflexivity.
Defined.

(** ** The relay: rooms hold at most two connections *)

Lemma remove_first_length (c : Conn) (l : list Conn) :
  (length (remove_first c l) <= length l)%nat.
Proof.
  induction l as [|x l IH]; simpl; [lia|].
  destruct (x =? c)%nat; simpl; lia.
Qed.

Lemma remove_first_other (c c' : Conn) (l : list Conn) :
  c <> c' -> c ∈ l -> c ∈ remove_first c' l.
Proof.
  intros Hne. induction l as [|x l IH]; simpl; intros Hin; [assumption|].
  destruct (Nat.eqb_spec x c') as [->|Hx].
  - apply elem_of_cons in Hin as [Heq|Hin]; [congruence|assumption].
  - apply elem_of_cons in Hin as [->|Hin]; [left|right; auto].
Qed.

Lemma heap_cleanup st : heap (cleanup st) = heap st.
Proof. reflexivity. Qed.

Lemma handlers_cleanup st : handlers (cleanup st) = handlers st.
Proof. reflexivity. Qed.

Lemma rooms_cleanup_Some st tok p :
  rooms (cleanup st) !! tok = Some p <-> rooms st !! tok = Some p /\ expired st p = false.
Proof. unfold cleanup; simpl. rewrite map_lookup_filter_Some. reflexivity. Qed.

Lemma heap_iter_tick n st : heap (Nat.iter n tick st) = heap st.
Proof. induction n as [|n IH]; [reflexivity|]. exact IH. Qed.

Lemma handlers_iter_tick n st : handlers (Nat.iter n tick st) = handlers st.
Proof.
  induction n as [|n IH]; [reflexivity|]. exact IH.
Qed.

Lemma rooms_tick_Some st tok p :
  rooms (tick st) !! tok = Some p -> rooms st !! tok = Some p.
Proof. unfold tick. rewrite rooms_cleanup_Some. tauto. Qed.

Lemma rooms_iter_tick_Some n st tok p :
  rooms (Nat.iter n tick st) !! tok = Some p -> rooms st !! tok = Some p.
Proof.
  induction n as [|n IH]; simpl; [tauto|]. intros Hn. apply IH. eapply rooms_tick_Some, Hn.
Qed.

Lemma relay_inv_elapse dt st : relay_inv st -> relay_inv (elapse dt st).
Proof.
  intros [Hc Hr Hh Hj Hd]. unfold elapse.
  split; simpl; rewrite ?heap_iter_tick, ?handlers_iter_tick; try assumption.
  intros tok p Hp. apply rooms_iter_tick_Some in Hp. eauto.
Qed.

Lemma relay_inv_init t0 : relay_inv (NewRoomManager t0).
Proof.
  split; simpl.
  - constructor.
  - intros tok p Hp. rewrite lookup_empty in Hp. discriminate.
  - intros c h p Hc. rewrite lookup_empty in Hc. discriminate.
  - intros c h p Hc. rewrite lookup_empty in Hc. discriminate.
  - intros c tok p. rewrite lookup_empty. discriminate.
Qed.

Lemma relay_inv_emit es st : relay_inv st -> relay_inv (emit es st).
Proof. intros [Hc Hr Hh Hj Hd]. split; assumption. Qed.

Lemma relay_inv_set_handler st c h :
  relay_inv st ->
  (forall p, handler_room h = Some p -> (p < length (heap st))%nat) ->
  (forall p, joined h = Some p -> exists room, heap st !! p = Some room /\ c ∈ clients room) ->
  (forall tok p, h <> AtDeleteRoom tok p) ->
  relay_inv (set_handler c h st).
Proof.
  intros [Hc Hr Hh Hj Hd] H1 H2 H3. split; simpl; try assumption.
  - intros c' h' p. destruct (decide (c = c')) as [<-|Hne].
    + rewrite lookup_insert_eq. intros [= <-]. apply H1.
    + rewrite lookup_insert_ne by assumption. apply Hh.
  - intros c' h' p. destruct (decide (c = c')) as [<-|Hne].
    + rewrite lookup_insert_eq. intros [= <-]. apply H2.
    + rewrite lookup_insert_ne by assumption. apply Hj.
  - intros c' tok p. destruct (decide (c = c')) as [<-|Hne].
    + rewrite lookup_insert_eq. intros [= Heq]. eapply H3, Heq.
    + rewrite lookup_insert_ne by assumption. apply Hd.
Qed.

(** The goroutine of [c] rewrites the room at [p] and moves on to [h]. *)
Lemma relay_inv_update st c h p room room' :
  relay_inv st ->
  heap st !! p = Some room ->
  (length (clients room') <= 2)%nat ->
  (forall c', c' <> c -> c' ∈ clients room -> c' ∈ clients room') ->
  (forall q, handler_room h = Some q -> (q < length (heap st))%nat) ->
  (forall q, joined h = Some q -> q = p /\ c ∈ clients room') ->
  (forall tok q, h <> AtDeleteRoom tok q) ->
  relay_inv (set_handler c h (set_room p room' st)).
Proof.
  intros [Hc Hr Hh Hj Hd] Hp Hlen Hkeep H1 H2 H3.
  assert (Hlt : (p < length (heap st))%nat) by (eapply lookup_lt_Some, Hp).
  split; simpl.
  - apply Forall_insert; assumption.
  - intros tok q Hq. rewrite length_insert. eauto.
  - intros c' h' q. rewrite length_insert. destruct (decide (c = c')) as [<-|Hne].
    + rewrite lookup_insert_eq. intros [= <-]. apply H1.
    + rewrite lookup_insert_ne by assumption. apply Hh.
  - intros c' h' q. destruct (decide (c = c')) as [<-|Hne].
    + rewrite lookup_insert_eq. intros [= <-] Hq. destruct (H2 _ Hq) as [-> Hin].
      exists room'. split; [apply list_lookup_insert_eq; assumption|assumption].
    + rewrite lookup_insert_ne by assumption. intros Hh' Hq.
      destruct (Hj _ _ _ Hh' Hq) as (rm & Hrm & Hin).
      destruct (decide (p = q)) as [<-|Hpq].
      * exists room'. split; [apply list_lookup_insert_eq; assumption|].
        rewrite Hp in Hrm. injection Hrm as <-. apply Hkeep; [congruence|assumption].
      * exists rm. split; [rewrite list_lookup_insert_ne; assumption|assumption].
  - intros c' tok q. destruct (decide (c = c')) as [<-|Hne].
    + rewrite lookup_insert_eq. intros [= Heq]. eapply H3, Heq.
    + rewrite lookup_insert_ne by assumption. apply Hd.
Qed.

Lemma relay_inv_GetOrCreateRoom tok st :
  relay_inv st ->
  relay_inv (GetOrCreateRoom tok st).2 /\
  ((GetOrCreateRoom tok st).1 < length (heap (GetOrCreateRoom tok st).2))%nat.
Proof.
  intros Hinv. pose proof Hinv as [Hc Hr Hh Hj Hd]. unfold GetOrCreateRoom.
  destruct (rooms st !! tok) as [p|] eqn:Htok; simpl.
  - split; [assumption|eauto].
  - split; [|rewrite length_app; simpl; lia].
    split; simpl.
    + apply Forall_app. split; [assumption|]. repeat constructor.
    + intros tok' q. rewrite length_app. simpl.
      destruct (decide (tok = tok')) as [<-|Hne].
      * rewrite lookup_insert_eq. intros [= <-]. lia.
      * rewrite lookup_insert_ne by assumption. intros Hq. apply Hr in Hq. lia.
    + intros c h q Hch Hq. rewrite length_app. simpl. specialize (Hh _ _ _ Hch Hq). lia.
    + intros c h q Hch Hq. destruct (Hj _ _ _ Hch Hq) as (rm & Hrm & Hin).
      exists rm. split; [|assumption]. rewrite lookup_app_l; [assumption|].
      eapply lookup_lt_Some, Hrm.
    + assumption.
Qed.

Lemma relay_inv_run_handler c input st : relay_inv st -> relay_inv (run_handler c input st).
Proof.
  intros Hinv. pose proof Hinv as [Hc Hr Hh Hj Hd]. unfold run_handler.
  destruct (handlers st !! c) as [h|] eqn:Hhc; [|assumption].
  destruct h as [tok|tok p|tok p|tok p|tok p|p| |]; try assumption.
  - (* GetOrCreateRoom *)
    destruct (relay_inv_GetOrCreateRoom tok st Hinv) as [Hinv' Hlt].
    destruct (GetOrCreateRoom tok st) as [p st'] eqn:Hg. simpl in *.
    apply relay_inv_set_handler; try assumption.
    + intros q [= <-]. assumption.
    + intros q [=].
    + intros ? ? [=].
  - (* AddClient *)
    destruct (heap st !! p) as [room|] eqn:Hp; [|assumption].
    unfold AddClient. destruct (Nat.leb_spec 2 (length (clients room))) as [Hfull|Hroom].
    + apply relay_inv_set_handler; [apply relay_inv_emit; assumption| | |]; simpl.
      * intros q [=].
      * intros q [=].
      * intros ? ? [=].
    + eapply relay_inv_update; try eassumption; simpl.
      * rewrite length_app. simpl. lia.
      * intros c' _ Hin. apply elem_of_app. left. assumption.
      * intros q [= <-]. eapply lookup_lt_Some, Hp.
      * intros q [= <-]. split; [reflexivity|]. apply elem_of_app. right. left.
      * intros ? ? [=].
  - (* ReadMessage *)
    destruct (Hj _ _ _ Hhc eq_refl) as (room & Hp & Hin).
    destruct input as [|messageType message].
    + apply relay_inv_set_handler; try assumption.
      * intros q [= <-]. eapply lookup_lt_Some, Hp.
      * intros q [= <-]. eauto.
      * intros ? ? [=].
    + destruct (messageType =? BinaryMessage); [|assumption].
      rewrite Hp. apply relay_inv_emit. assumption.
  - (* the emptiness test *)
    destruct (Hj _ _ _ Hhc eq_refl) as (room & Hp & Hin). rewrite Hp.
    destruct (clients room) as [|x l] eqn:Hcl; [inversion Hin|]. simpl.
    apply relay_inv_set_handler; try assumption.
    + intros q [= <-]. eapply lookup_lt_Some, Hp.
    + intros q [= <-]. exists room. rewrite Hcl. split; assumption.
    + intros ? ? [=].
  - (* DeleteRoom: never reached *)
    exfalso. eapply Hd, Hhc.
  - (* deferred RemoveClient *)
    destruct (heap st !! p) as [room|] eqn:Hp; [|assumption].
    eapply relay_inv_update; try eassumption; simpl.
    + pose proof (remove_first_length c (clients room)).
      rewrite Forall_forall in Hc. specialize (Hc room).
      assert (room ∈ heap st) by (eapply list_elem_of_lookup_2, Hp). specialize (Hc H0). lia.
    + intros c' Hne Hin. apply remove_first_other; assumption.
    + intros q [=].
    + intros q [=].
    + intros ? ? [=].
  - (* deferred Close *)
    apply relay_inv_set_handler; [apply relay_inv_emit; assumption| | |]; simpl.
    + intros q [=].
    + intros q [=].
    + intros ? ? [=].
Qed.

Lemma relay_inv_step st ev : relay_inv st -> relay_inv (step st ev).
Proof.
  intros Hinv. destruct ev as [c tok|c input|dt]; simpl.
  - destruct (String.eqb tok ""); [assumption|].
    destruct (handlers st !! c); [assumption|].
    apply relay_inv_set_handler; try assumption.
    + intros q [=].
    + intros q [=].
    + intros ? ? [=].
  - apply relay_inv_run_handler. assumption.
  - destruct (dt <? 0); [assumption|]. apply relay_inv_elapse. assumption.
Qed.

Lemma relay_inv_run evs st : relay_inv st -> relay_inv (run evs st).
Proof.
  revert st. induction evs as [|ev evs IH]; intros st Hinv; simpl; [assumption|].
  apply IH, relay_inv_step, Hinv.
Qed.

Lemma relay_inv_reachable t0 evs : relay_inv (run evs (NewRoomManager t0)).
Proof. apply relay_inv_run, relay_inv_init. Qed.

(** The steps of a goroutine at [AddClient] and at its deferred [Close]. *)
Lemma run_handler_accept st conn tok p room input :
  handlers st !! conn = Some (AtAddClient tok p) ->
  heap st !! p = Some room ->
  (length (clients room) < 2)%nat ->
  run_handler conn input st =
    set_handler conn (AtReadMessage tok p)
      (set_room p (mkRoom (token room) (clients room ++ [conn]) (createdAt room)) st).
Proof.
  intros Hh Hp Hlen. unfold run_handler. rewrite Hh. cbv beta iota. rewrite Hp.
  unfold AddClient. destruct (Nat.leb_spec 2 (length (clients room))); [lia|reflexivity].
Qed.

Lemma run_handler_reject st conn tok p room input :
  handlers st !! conn = Some (AtAddClient tok p) ->
  heap st !! p = Some room ->
  (2 <= length (clients room))%nat ->
  run_handler conn input st =
    set_handler conn AtDeferClose
      (emit [ConnWriteClose conn ClosePolicyViolation "room full"] st).
Proof.
  intros Hh Hp Hlen. unfold run_handler. rewrite Hh. cbv beta iota. rewrite Hp.
  unfold AddClient. destruct (Nat.leb_spec 2 (length (clients room))); [reflexivity|lia].
Qed.

Lemma run_handler_close st conn input :
  handlers st !! conn = Some AtDeferClose ->
  run_handler conn input st = set_handler conn Finished (emit [ConnClose conn] st).
Proof. intros Hh. unfold run_handler. rewrite Hh. reflexivity. Qed.

(** The first goroutine to ask for the room of a token gets a new room with
    no connection in it, created at the current instant. *)
Lemma first_join_creates_empty_room st conn tok input :
  handlers st !! conn = Some (AtGetOrCreateRoom tok) ->
  rooms st !! tok = None ->
  let st' := run_handler conn input st in
  let p := length (heap st) in
  handlers st' !! conn = Some (AtAddClient tok p) /\
  rooms st' !! tok = Some p /\
  heap st' !! p = Some (mkRoom tok [] (now st)).
Proof.
  intros Hh Htok. cbv zeta. unfold run_handler. rewrite Hh. cbv beta iota.
  unfold GetOrCreateRoom. rewrite Htok. simpl.
  rewrite !lookup_insert_eq. repeat split.
  rewrite lookup_app_r by lia. rewrite Nat.sub_diag. reflexivity.
Qed.

(** Three joins for one token, one after the other: the first two are in the
    room, the third got the policy-violation close and was closed. *)
Example three_joins :
  let st := run [Request 1%nat "t"; Run 1%nat ReadErr; Run 1%nat ReadErr;
                 Request 2%nat "t"; Run 2%nat ReadErr; Run 2%nat ReadErr;
                 Request 3%nat "t"; Run 3%nat ReadErr; Run 3%nat ReadErr;
                 Run 3%nat ReadErr] (NewRoomManager 0) in
  room_of st "t" = Some (mkRoom "t" [1%nat; 2%nat] 0) /\
  log st = [ConnWriteClose 3%nat 1008 "room full"; ConnClose 3%nat] /\
  handlers st !! 3%nat = Some Finished.
Proof. vm_compute. repeat split; reflexivity. Qed.

(** C2: in every state the relay can reach, whatever the order and timing
    of requests, goroutine steps and ticks, every room holds at most two
    connections; a goroutine about to join a room that holds fewer than two
    connections is added to it, and one about to join a room that holds two
    is turned away at once: the room and the table are left as they are,
    the connection is sent a close frame with the policy-violation code and
    is closed by the next step of its goroutine. *)
Theorem room_capacity (t0 : Z) (evs : list Event) (conn : Conn) (tok : string)
    (p : RoomRef) (input next : ReadResult) :
  let st := run evs (NewRoomManager t0) in
  Forall (fun room => (length (clients room) <= 2)%nat) (heap st) /\
  (handlers st !! conn = Some (AtAddClient tok p) ->
   exists room, heap st !! p = Some room /\
     let st' := run_handler conn input st in
     ((length (clients room) < 2)%nat ->
        heap st' = <[p := mkRoom (token room) (clients room ++ [conn]) (createdAt room)]> (heap st) /\
        handlers st' !! conn = Some (AtReadMessage tok p) /\
        log st' = log st) /\
     ((length (clients room) = 2)%nat ->
        heap st' = heap st /\ rooms st' = rooms st /\
        log st' = log st ++ [ConnWriteClose conn ClosePolicyViolation "room full"] /\
        handlers st' !! conn = Some AtDeferClose /\
        log (run_handler conn next st') =
          log st ++ [ConnWriteClose conn ClosePolicyViolation "room full"; ConnClose conn])).
Proof.
  intros st. pose proof (relay_inv_reachable t0 evs) as Hinv. fold st in Hinv.
  split; [apply Hinv|]. intros Hh.
  assert (Hlt : (p < length (heap st))%nat) by (eapply (inv_handlers _ Hinv); [exact Hh|reflexivity]).
  destruct (lookup_lt_is_Some_2 _ _ Hlt) as [room Hp].
  exists room. split; [assumption|]. cbv zeta. split; intros Hlen.
  - rewrite (run_handler_accept st conn tok p room input Hh Hp Hlen). simpl.
    rewrite lookup_insert_eq. repeat split.
  - assert (Hfull : (2 <= length (clients room))%nat) by lia.
    rewrite (run_handler_reject st conn tok p room input Hh Hp Hfull).
    rewrite run_handler_close by (simpl; apply lookup_insert_eq). simpl.
    rewrite lookup_insert_eq, <- app_assoc. repeat split.
Qed.

Lemma room_capacity_witness :
  let st := run [Request 1%nat "t"; Run 1%nat ReadErr; Run 1%nat ReadErr;
                 Request 2%nat "t"; Run 2%nat ReadErr; Run 2%nat ReadErr;
                 Request 3%nat "t"; Run 3%nat ReadErr] (NewRoomManager 0) in
  handlers st !! 3%nat = Some (AtAddClient "t" 0%nat) /\
  Forall (fun room => (length (clients room) <= 2)%nat) (heap st) /\
  exists room, heap st !! 0%nat = Some room /\
    let st' := run_handler 3%nat ReadErr st in
    ((length (clients room) < 2)%nat ->
       heap st' = <[0%nat := mkRoom (token room) (clients room ++ [3%nat]) (createdAt room)]> (heap st) /\
       handlers st' !! 3%nat = Some (AtReadMessage "t" 0%nat) /\
       log st' = log st) /\
    ((length (clients room) = 2)%nat ->
       heap st' = heap st /\ rooms st' = rooms st /\
       log st' = log st ++ [ConnWriteClose 3%nat ClosePolicyViolation "room full"] /\
       handlers st' !! 3%nat = Some AtDeferClose /\
       log (run_handler 3%nat ReadErr st') =
         log st ++ [ConnWriteClose 3%nat ClosePolicyViolation "room full"; ConnClose 3%nat]).
Proof.
  intros st.
  assert (H : handlers st !! 3%nat = Some (AtAddClient "t" 0%nat)) by (vm_compute; reflexivity).
  split; [exact H|].
  destruct (room_capacity 0 [Request 1%nat "t"; Run 1%nat ReadErr; Run 1%nat ReadErr;
                             Request 2%nat "t"; Run 2%nat ReadErr; Run 2%nat ReadErr;
                             Request 3%nat "t"; Run 3%nat ReadErr]
                          3%nat "t" 0%nat ReadErr ReadErr) as [Hcap Hjoin].
  split; [exact Hcap|exact (Hjoin H)].
Defined.

(** ** The relay: leaving a room *)

(** No goroutine ever reaches the call of [DeleteRoom]: when it tests the
    room for emptiness its own connection is still in the list, because the
    [RemoveClient] it deferred has not run yet. *)
Lemma DeleteRoom_never_reached (t0 : Z) (evs : list Event) (c : Conn) (tok : string)
    (p : RoomRef) :
  handlers (run evs (NewRoomManager t0)) !! c <> Some (AtDeleteRoom tok p).
Proof. apply (inv_no_delete _ (relay_inv_reachable t0 evs)). Qed.

(** C3 (the code at the failing input): one connection joins the room of a
    token and then leaves (its read fails); its goroutine runs to the end.
    The room is now empty and is still in the session table, with the
    creation time of the old session: a later join for the token lands in
    it instead of in a fresh room. *)
Theorem last_leave_keeps_room :
  let evs := [Request 1%nat "t"; Run 1%nat ReadErr; Run 1%nat ReadErr; Run 1%nat ReadErr;
              Run 1%nat ReadErr; Run 1%nat ReadErr; Run 1%nat ReadErr] in
  let st := run evs (NewRoomManager 0) in
  handlers st !! 1%nat = Some Finished /\
  log st = [ConnClose 1%nat] /\
  rooms st !! "t" = Some 0%nat /\
  room_of st "t" = Some (mkRoom "t" [] 0) /\
  let st' := run [Elapse (5 * Minute + 30 * Second); Request 2%nat "t"; Run 2%nat ReadErr;
                  Run 2%nat ReadErr] st in
  room_of st' "t" = Some (mkRoom "t" [2%nat] 0).
Proof. vm_compute. repeat split; reflexivity. Qed.

(** ** The relay: the expiry sweep *)

Lemma rooms_cleanup st tok :
  rooms (cleanup st) !! tok =
    match rooms st !! tok with
    | Some p => if expired st p then None else Some p
    | None => None
    end.
Proof.
  unfold cleanup; simpl.
  destruct (rooms st !! tok) as [p|] eqn:Htok.
  - destruct (expired st p) eqn:Hx.
    + apply map_lookup_filter_None. right. intros q Hq. simpl. congruence.
    + apply map_lookup_filter_Some. split; assumption.
  - apply map_lookup_filter_None. left. assumption.
Qed.

Lemma log_cleanup_closes st tok p room c :
  rooms st !! tok = Some p -> heap st !! p = Some room -> expired st p = true ->
  c ∈ clients room -> ConnClose c ∈ log (cleanup st).
Proof.
  intros Htok Hp Hexp Hc. unfold cleanup; simpl.
  apply elem_of_app. right. apply list_elem_of_bind. exists (tok, p). simpl. split.
  - rewrite Hp. apply list_elem_of_fmap. exists c. split; [reflexivity|assumption].
  - apply list_elem_of_filter. split; [assumption|]. apply elem_of_map_to_list. assumption.
Qed.

Lemma log_cleanup_incl st e : e ∈ log st -> e ∈ log (cleanup st).
Proof. intros He. unfold cleanup; simpl. apply elem_of_app. left. assumption. Qed.

Lemma next_tick_iter n st :
  next_tick (Nat.iter n tick st) = next_tick st + Z.of_nat n * (1 * Minute).
Proof.
  induction n as [|n IH]; [simpl; lia|].
  change (Nat.iter (S n) tick st) with (tick (Nat.iter n tick st)).
  change (next_tick (tick (Nat.iter n tick st)))
    with (next_tick (Nat.iter n tick st) + 1 * Minute).
  rewrite IH. lia.
Qed.

(** The room of [tok] over [n] ticks with nothing else happening: after each
    tick it is still in the table, or it is gone and its connections have
    been closed; the [n + 1]-th tick decides by the age at that tick. *)
Section IdleRoom.
Variable st : Relay.
Variable tok : string.
Variable p : RoomRef.
Variable room : Room.
Hypothesis Htok : rooms st !! tok = Some p.
Hypothesis Hp : heap st !! p = Some room.

Lemma expired_at_tick n :
  expired (at_tick (Nat.iter n tick st)) p
  = (10 * Minute <? next_tick st + Z.of_nat n * (1 * Minute) - createdAt room).
Proof.
  unfold expired, at_tick; simpl. rewrite heap_iter_tick, Hp, next_tick_iter. reflexivity.
Qed.

Lemma rooms_tick st' :
  rooms (tick st') !! tok =
    match rooms st' !! tok with
    | Some q => if expired (at_tick st') q then None else Some q
    | None => None
    end.
Proof. unfold tick. rewrite rooms_cleanup. reflexivity. Qed.

Lemma idle_room_cases n :
  rooms (Nat.iter n tick st) !! tok = Some p \/ closed_out tok room (Nat.iter n tick st).
Proof.
  induction n as [|n IH]; [left; exact Htok|].
  change (Nat.iter (S n) tick st) with (tick (Nat.iter n tick st)).
  unfold closed_out. rewrite rooms_tick.
  destruct IH as [IH|[IH1 IH2]].
  - rewrite IH. destruct (expired (at_tick (Nat.iter n tick st)) p) eqn:Hx;
      [right|left; reflexivity].
    split; [reflexivity|]. intros c Hc. unfold tick.
    eapply log_cleanup_closes; [exact IH| |exact Hx|exact Hc].
    simpl. rewrite heap_iter_tick. exact Hp.
  - right. rewrite IH1. split; [reflexivity|].
    intros c Hc. unfold tick. apply log_cleanup_incl. simpl. auto.
Qed.

Lemma idle_room_kept n :
  (n = 0%nat \/ next_tick st + (Z.of_nat n - 1) * (1 * Minute) - createdAt room <= 10 * Minute) ->
  rooms (Nat.iter n tick st) !! tok = Some p.
Proof.
  induction n as [|n IH]; intros Hn; [exact Htok|].
  change (Nat.iter (S n) tick st) with (tick (Nat.iter n tick st)).
  destruct Hn as [Hn|Hn]; [discriminate|].
  rewrite rooms_tick, IH.
  - rewrite expired_at_tick.
    destruct (Z.ltb_spec (10 * Minute)
                (next_tick st + Z.of_nat n * (1 * Minute) - createdAt room)); [|reflexivity].
    unfold Minute, Second in *. lia.
  - destruct n as [|n]; [left; reflexivity|right]. unfold Minute, Second in *. lia.
Qed.

Lemma idle_room_gone n :
  10 * Minute < next_tick st + Z.of_nat n * (1 * Minute) - createdAt room ->
  closed_out tok room (Nat.iter (S n) tick st).
Proof.
  intros Hn. destruct (idle_room_cases (S n)) as [Hs|Hc]; [|exact Hc]. exfalso.
  change (Nat.iter (S n) tick st) with (tick (Nat.iter n tick st)) in Hs.
  rewrite rooms_tick in Hs.
  destruct (rooms (Nat.iter n tick st) !! tok) as [q|] eqn:Hq; [|discriminate].
  assert (q = p) as ->.
  { apply rooms_iter_tick_Some in Hq. congruence. }
  rewrite expired_at_tick in Hs.
  destruct (Z.ltb_spec (10 * Minute)
              (next_tick st + Z.of_nat n * (1 * Minute) - createdAt room)); [discriminate|lia].
Qed.

End IdleRoom.

Lemma ticks_within_spec st dt :
  next_tick st <= now st + dt ->
  exists m : nat,
    ticks_within st dt = S m /\
    next_tick st + Z.of_nat m * (1 * Minute) <= now st + dt
      < next_tick st + Z.of_nat m * (1 * Minute) + 1 * Minute.
Proof.
  intros Hle. unfold ticks_within.
  destruct (Z.leb_spec (next_tick st) (now st + dt)); [|lia].
  exists (Z.to_nat ((now st + dt - next_tick st) / (1 * Minute))). split; [reflexivity|].
  assert (HM : 0 < 1 * Minute) by (unfold Minute, Second; lia).
  pose proof (Z.div_pos (now st + dt - next_tick st) (1 * Minute) ltac:(lia) HM) as Hq.
  rewrite Z2Nat.id by assumption.
  pose proof (Z.div_mod (now st + dt - next_tick st) (1 * Minute) ltac:(lia)) as Hdm.
  pose proof (Z.mod_pos_bound (now st + dt - next_tick st) (1 * Minute) HM) as Hmod.
  lia.
Qed.

(** C7: one round of the cleanup loop removes from the table exactly the
    rooms older than ten minutes, whatever their occupancy, and closes their
    connections; the rounds run at the ticks of a one-minute ticker.  Hence
    a room created at [T], if nothing else happens, is still in the table
    as long as the clock has not passed [T + 10min], and is gone, its
    connections closed, once a tick has fallen after [T + 10min], which is
    the case at [T + 11min] at the latest. *)
Theorem expiry_sweep (st : Relay) (tok : string) (p : RoomRef) (room : Room) (dt : Z) :
  rooms st !! tok = Some p ->
  heap st !! p = Some room ->
  0 <= dt ->
  let T := createdAt room in
  (rooms (cleanup st) !! tok = if 10 * Minute <? now st - T then None else Some p) /\
  (10 * Minute < now st - T -> forall c, c ∈ clients room -> ConnClose c ∈ log (cleanup st)) /\
  (now (tick st) = next_tick st /\ next_tick (tick st) = next_tick st + 1 * Minute) /\
  (now st + dt <= T + 10 * Minute -> rooms (step st (Elapse dt)) !! tok = Some p) /\
  (next_tick st <= now st + dt -> T + 11 * Minute <= now st + dt ->
     rooms (step st (Elapse dt)) !! tok = None /\
     forall c, c ∈ clients room -> ConnClose c ∈ log (step st (Elapse dt))).
Proof.
  intros Htok Hp Hdt T.
  assert (Hexp : expired st p = (10 * Minute <? now st - T)).
  { unfold expired. rewrite Hp. reflexivity. }
  assert (Hstep : step st (Elapse dt) = elapse dt st).
  { simpl. destruct (Z.ltb_spec dt 0); [lia|reflexivity]. }
  repeat split.
  - rewrite rooms_cleanup, Htok, Hexp. reflexivity.
  - intros Hold c Hc. eapply log_cleanup_closes; try eassumption.
    rewrite Hexp. apply Z.ltb_lt. assumption.
  - rewrite Hstep. unfold elapse; simpl. intros Hyoung.
    apply (idle_room_kept st tok p room Htok Hp).
    destruct (Z.le_gt_cases (next_tick st) (now st + dt)) as [Hle|Hgt].
    + destruct (ticks_within_spec st dt Hle) as (m & -> & Hm1 & Hm2). right.
      replace (Z.of_nat (S m) - 1) with (Z.of_nat m) by lia. fold T. lia.
    + left. unfold ticks_within. destruct (Z.leb_spec (next_tick st) (now st + dt)); [lia|reflexivity].
  - rewrite Hstep. unfold elapse; simpl.
    destruct (ticks_within_spec st dt H) as (m & -> & Hm1 & Hm2).
    apply (idle_room_gone st tok p room Htok Hp m). fold T. lia.
  - rewrite Hstep. unfold elapse; simpl.
    destruct (ticks_within_spec st dt H) as (m & -> & Hm1 & Hm2).
    apply (idle_room_gone st tok p room Htok Hp m). fold T. lia.
Qed.

Lemma expiry_sweep_witness :
  let st := run [Request 1%nat "t"; Run 1%nat ReadErr; Run 1%nat ReadErr] (NewRoomManager 0) in
  let room := mkRoom "t" [1%nat] 0 in
  let dt := 11 * Minute in
  rooms st !! "t" = Some 0%nat /\ heap st !! 0%nat = Some room /\ 0 <= dt /\
  let T := createdAt room in
  (rooms (cleanup st) !! "t" = if 10 * Minute <? now st - T then None else Some 0%nat) /\
  (10 * Minute < now st - T -> forall c, c ∈ clients room -> ConnClose c ∈ log (cleanup st)) /\
  (now (tick st) = next_tick st /\ next_tick (tick st) = next_tick st + 1 * Minute) /\
  (now st + dt <= T + 10 * Minute -> rooms (step st (Elapse dt)) !! "t" = Some 0%nat) /\
  (next_tick st <= now st + dt -> T + 11 * Minute <= now st + dt ->
     rooms (step st (Elapse dt)) !! "t" = None /\
     forall c, c ∈ clients room -> ConnClose c ∈ log (step st (Elapse dt))).
Proof.
  intros st room dt.
  assert (H1 : rooms st !! "t" = Some 0%nat) by (vm_compute; reflexivity).
  assert (H2 : heap st !! 0%nat = Some room) by (vm_compute; reflexivity).
  assert (H3 : 0 <= dt) by (vm_compute; discriminate).
  split; [exact H1|]. split; [exact H2|]. split; [exact H3|].
  exact (expiry_sweep st "t" 0%nat room dt H1 H2 H3).
Defined.

(** A room created at instant 0 with one participant: still there after ten
    minutes, gone with its connection closed after eleven. *)
Example expiry_scenario :
  let st := run [Request 1%nat "t"; Run 1%nat ReadErr; Run 1%nat ReadErr] (NewRoomManager 0) in
  room_of (step st (Elapse (10 * Minute))) "t" = Some (mkRoom "t" [1%nat] 0) /\
  room_of (step st (Elapse (11 * Minute))) "t" = None /\
  log (step st (Elapse (11 * Minute))) = [ConnClose 1%nat].
Proof. vm_compute. repeat split; reflexivity. Qed.

(** ** Receiver.ReceiveFile: single steps *)

Section Receive.
Context `{Packages}.
Variable r : Receiver.
Variable destDir : string.
Variable pf : bool.

Lemma recv_iteration_incoming t st fs :
  recv_iteration r destDir pf t st fs =
    if ctx_done t then
      RecvReturn "" zeroStats (Some (errorString "transfer cancelled by receiver"))
                 (remove_if_open st fs)
    else match r_conn r with
         | None => RecvPanic "invalid memory address or nil pointer dereference" fs
         | Some _ =>
             match incoming r t with
             | Err err => RecvReturn "" zeroStats (Some err) (remove_if_open st fs)
             | Ok msg => dispatch destDir pf t msg st fs
             end
         end.
Proof.
  unfold recv_iteration, incoming, dispatch.
  destruct (ctx_done t); [reflexivity|]. destruct (r_conn r); [|reflexivity].
  destruct (read_msg t) as [d|e]; [|reflexivity].
  destruct (DecryptChunk d (r_key r)) as [dec|e]; [|reflexivity].
  destruct (DecodeMessage dec) as [msg|e]; reflexivity.
Qed.

Lemma recv_iteration_delivers t msg st fs c :
  r_conn r = Some c -> delivers r t msg ->
  recv_iteration r destDir pf t st fs = dispatch destDir pf t msg st fs.
Proof.
  intros Hc [Hd Hi]. rewrite recv_iteration_incoming, Hd, Hc, Hi. reflexivity.
Qed.

Lemma received_total_small payloads : forall b,
  0 <= b -> b + Z.of_nat (length (concat payloads)) < 2 ^ 63 ->
  received_total b payloads = b + Z.of_nat (length (concat payloads)).
Proof.
  induction payloads as [|p ps IH]; intros b Hb Hlt.
  - unfold received_total. simpl. lia.
  - change (received_total b (p :: ps))
      with (received_total (wrap64 (b + Z.of_nat (length p))) ps).
    simpl in Hlt. rewrite length_app in Hlt. rewrite wrap64_small by lia.
    rewrite IH by lia. simpl. rewrite length_app. lia.
Qed.

Lemma file_Write_nil path (fs : FS) : file_Write path [] fs = fs.
Proof. unfold file_Write. apply alter_id. intros x _. apply app_nil_r. Qed.

Lemma file_Write_app path a b (fs : FS) :
  file_Write path b (file_Write path a fs) = file_Write path (a ++ b) fs.
Proof.
  unfold file_Write. rewrite alter_alter_eq. apply alter_ext.
  intros x _. simpl. symmetry. apply app_assoc.
Qed.

Lemma file_Write_created path data (fs : FS) :
  file_Write path data (os_Create path fs) = <[path := data]> fs.
Proof. unfold file_Write, os_Create. rewrite alter_insert_eq. reflexivity. Qed.

(** A run of chunks after the metadata: the loop goes through them,
    appending each payload to the file and to the in-memory copy. *)
Lemma receive_loop_chunks c tchunks payloads :
  r_conn r = Some c ->
  Forall2 (delivers_chunk r) tchunks payloads ->
  forall rest st fs pr n path,
    file st = Some path ->
    receive_loop r destDir pf (tchunks ++ rest) st fs pr n =
      receive_loop r destDir pf rest
        (mkRecvState (metadata st) (file st) (received_total (bytesReceived st) payloads)
                     (destPath st) (fileContent st ++ concat payloads))
        (file_Write path (concat payloads) fs)
        (pr ++ chunk_progress pf (Size (metadata st)) (bytesReceived st) payloads)
        (n + length tchunks).
Proof.
  intros Hc Hall. induction Hall as [|t p ts ps [Ht Hd] _ IH]; intros rest st fs pr n path Hf.
  - simpl. rewrite file_Write_nil, !app_nil_r, Nat.add_0_r. destruct st; reflexivity.
  - simpl. rewrite (recv_iteration_delivers t _ st fs c Hc Ht).
    unfold dispatch, on_chunk. simpl. rewrite Hf, Hd.
    rewrite (IH rest _ _ _ _ path) by reflexivity. simpl.
    rewrite file_Write_app, <- !app_assoc. f_equal. lia.
Qed.

End Receive.

(** ** Receiver.ReceiveFile: whole runs *)

(** C9: when the first message is [Complete], with no metadata before it,
    [ReceiveFile] returns without error, with the empty path and zero bytes,
    whatever the checksum function is (it is not consulted), and leaves the
    disk alone; when the first message is a chunk, it returns the error
    "received chunk before metadata". *)
Theorem complete_before_metadata `{Packages} (r : Receiver) (destDir : string) (pf : bool)
    (c : Conn) (t : RecvTurn) (msg : Message) (rest : list RecvTurn) (fs : FS) :
  r_conn r = Some c ->
  delivers r t msg ->
  (msg_Type msg = MsgTypeComplete ->
     ReceiveFile r destDir pf (t :: rest) fs =
       Some (mkRecvRun
               (Returned ("", mkStats (since_start t) 0
                                (PrimFloat.div (float64_of_int64 0) (Seconds (since_start t))),
                          None))
               fs [] 1)) /\
  (msg_Type msg = MsgTypeChunk ->
     ReceiveFile r destDir pf (t :: rest) fs =
       Some (mkRecvRun
               (Returned ("", zeroStats, Some (errorString "received chunk before metadata")))
               fs [] 1)).
Proof.
  intros Hc Ht. unfold ReceiveFile. simpl.
  rewrite (recv_iteration_delivers r destDir pf t msg _ fs c Hc Ht). unfold dispatch.
  split; intros ->; reflexivity.
Qed.

Lemma complete_before_metadata_witness :
  let t := arrives (plain_frame MsgTypeComplete []) (2 * Second) in
  let msg := mkMessage MsgTypeComplete [] in
  r_conn connected_receiver = Some 7%nat /\
  @delivers plain connected_receiver t msg /\
  (msg_Type msg = MsgTypeComplete ->
     @ReceiveFile plain connected_receiver "downloads" true (t :: []) ∅ =
       Some (mkRecvRun
               (Returned ("", mkStats (since_start t) 0
                                (PrimFloat.div (float64_of_int64 0) (Seconds (since_start t))),
                          None))
               ∅ [] 1)) /\
  (msg_Type msg = MsgTypeChunk ->
     @ReceiveFile plain connected_receiver "downloads" true (t :: []) ∅ =
       Some (mkRecvRun
               (Returned ("", zeroStats, Some (errorString "received chunk before metadata")))
               ∅ [] 1)).
Proof.
  intros t msg.
  assert (H1 : r_conn connected_receiver = Some 7%nat) by reflexivity.
  assert (H2 : @delivers plain connected_receiver t msg) by (split; reflexivity).
  split; [exact H1|]. split; [exact H2|].
  exact (@complete_before_metadata plain connected_receiver "downloads" true 7%nat t msg [] ∅ H1 H2).
Defined.

(** The step of the loop on a metadata message that parses, for a file that
    can be created. *)
Lemma recv_iteration_metadata `{Packages} r destDir pf c t msg meta st fs :
  r_conn r = Some c ->
  delivers r t msg ->
  msg_Type msg = MsgTypeMetadata ->
  ParseMetadata (msg_Payload msg) = Ok meta ->
  os_Create_err (Join destDir (Filename meta)) (disk_err t) = None ->
  0 <= Size meta ->
  recv_iteration r destDir pf t st fs =
    RecvNext (mkRecvState meta (Some (Join destDir (Filename meta))) (bytesReceived st)
                          (Join destDir (Filename meta)) [])
             (os_Create (Join destDir (Filename meta)) fs) [].
Proof.
  intros Hc Ht Hty Hparse Hcreate Hsize.
  rewrite (recv_iteration_delivers r destDir pf t msg st fs c Hc Ht).
  unfold dispatch. rewrite Hty. unfold on_metadata. rewrite Hparse, Hcreate.
  destruct (Z.ltb_spec (Size meta) 0); [lia|reflexivity].
Qed.




(** The two outcomes of the comparison on concrete frames: the declared
    checksum 8 against the bytes [07] deletes the file, the declared
    checksum 7 keeps it. *)
Example checksum_scenarios :
  let run declared :=
    @ReceiveFile plain connected_receiver "downloads" false
      [arrives (plain_frame MsgTypeMetadata (plain_meta 1 "a.bin" declared)) 0;
       arrives (plain_frame MsgTypeChunk [Byte.x07]) Second;
       arrives (plain_frame MsgTypeComplete []) (2 * Second)] ∅ in
  run "8" = Some (mkRecvRun
                    (Returned ("", zeroStats,
                               Some (errorString "checksum mismatch: expected 8, got 7")))
                    ∅ [] 3) /\
  run "7" = Some (mkRecvRun
                    (Returned ("downloads/a.bin", mkStats (2 * Second) 1 0.5%float, None))
                    {["downloads/a.bin" := [Byte.x07]]} [] 3).
Proof. split; vm_compute; reflexivity. Qed.



(** ** Receiver.ReceiveFile: what is left on disk *)

Section RunLength.
Context `{Packages}.
Variable r : Receiver.
Variable destDir : string.
Variable pf : bool.

Lemma receive_loop_turns turns : forall st fs pr n run,
  receive_loop r destDir pf turns st fs pr n = Some run ->
  (n < recv_turns run)%nat.
Proof.
  induction turns as [|t rest IH]; intros st fs pr n run Hrun; simpl in Hrun; [discriminate|].
  destruct (recv_iteration r destDir pf t st fs) as [st' fs' calls|p s e fs'|m fs'].
  - apply IH in Hrun. lia.
  - injection Hrun as <-. simpl. lia.
  - injection Hrun as <-. simpl. lia.
Qed.


End RunLength.

Section AfterMetadata.
Context `{Packages}.
Variable r : Receiver.
Variable destDir : string.
Variable pf : bool.




End AfterMetadata.

Section BeforeMetadata.
Context `{Packages}.
Variable r : Receiver.
Variable destDir : string.
Variable pf : bool.



End BeforeMetadata.



(** ** Sender.SendFile *)

Lemma slices_fuel cs l : (0 < cs)%nat -> forall f1 f2,
  (length l <= f1)%nat -> (length l <= f2)%nat -> slices f1 cs l = slices f2 cs l.
Proof.
  intros Hcs f1. revert l. induction f1 as [|f1 IH]; intros l f2 H1 H2.
  - destruct l; [|simpl in H1; lia]. destruct f2; reflexivity.
  - destruct l as [|b l]; [destruct f2; reflexivity|].
    destruct f2 as [|f2]; [simpl in H2; lia|].
    cbn [slices]. f_equal. apply IH; rewrite length_drop; simpl in *; lia.
Qed.

Lemma slices_of_nil cs : slices_of cs [] = [].
Proof. reflexivity. Qed.

Lemma slices_of_cons cs l :
  0 < cs -> l <> [] ->
  slices_of cs l = take (Z.to_nat cs) l :: slices_of cs (drop (Z.to_nat cs) l).
Proof.
  intros Hcs Hl. unfold slices_of. destruct l as [|b l]; [contradiction|].
  cbn [length slices]. f_equal. apply slices_fuel; try lia.
  rewrite length_drop. simpl. lia.
Qed.

Lemma slices_of_concat cs l : 0 < cs -> concat (slices_of cs l) = l.
Proof.
  intros Hcs. unfold slices_of. generalize (le_n (length l)).
  generalize (length l) at 2 3 as fuel. intros fuel. revert l.
  induction fuel as [|fuel IH]; intros l Hl.
  - destruct l; [reflexivity|simpl in Hl; lia].
  - destruct l as [|b l]; [reflexivity|]. cbn [slices concat].
    rewrite IH by (rewrite length_drop; simpl in *; lia). apply take_drop.
Qed.


Lemma frames_app (tr1 tr2 : list SendEffect) : frames (tr1 ++ tr2) = frames tr1 ++ frames tr2.
Proof. unfold frames. apply omap_app. Qed.

Section SendLoop.
Context `{Packages}.
Variable s : Sender.
Variable pf : bool.
Variable w : SendWorld.
Variable content : list Byte.byte.
Variable fileSize : Z.

Hypothesis Hcs : 0 < ChunkSize (s_config s).
Hypothesis Hsmall : Z.of_nat (length content) < 2 ^ 63.
Hypothesis Hread : forall i, read_err w i = None.
Hypothesis Hwrite : forall i, write_err w i = None.
Hypothesis Henc : forall payload, exists frame, sealed (s_key s) frame (NewChunkMessage payload).


Lemma drop_min_slices off :
  (off < length content)%nat ->
  slices_of (ChunkSize (s_config s)) (drop off content) =
    take (Z.to_nat (ChunkSize (s_config s))) (drop off content)
    :: slices_of (ChunkSize (s_config s))
         (drop (Nat.min (off + Z.to_nat (ChunkSize (s_config s))) (length content)) content).
Proof.
  intros Hoff. rewrite slices_of_cons; [|assumption|].
  - f_equal. f_equal. rewrite drop_drop.
    destruct (Nat.le_ge_cases (off + Z.to_nat (ChunkSize (s_config s))) (length content)).
    + rewrite Nat.min_l by assumption. reflexivity.
    + rewrite Nat.min_r by assumption. rewrite !drop_ge by lia. reflexivity.
  - intros Hnil. apply (f_equal length) in Hnil. rewrite length_drop in Hnil. simpl in Hnil. lia.
Qed.



End SendLoop.







(** The run of the model on the ten bytes with chunk size 4: what is
    written to the connection, frame by frame. *)
Example SendFile_ten_bytes :
  exists stats tr,
    @SendFile plain (connected_sender 4) false (calm_world ten_bytes None) "notes.txt" =
      Some (Returned (stats, None), tr) /\
    frames tr =
      [plain_frame MsgTypeMetadata (plain_meta 10 "notes.txt" "55");
       plain_frame MsgTypeChunk [Byte.x01; Byte.x02; Byte.x03; Byte.x04];
       plain_frame MsgTypeChunk [Byte.x05; Byte.x06; Byte.x07; Byte.x08];
       plain_frame MsgTypeChunk [Byte.x09; Byte.x0a];
       plain_frame MsgTypeComplete []] /\
    stats = mkStats (2 * Second) 10 5%float.
Proof. eexists. eexists. split; [vm_compute; reflexivity|]. split; reflexivity. Qed.

(** The end-to-end scenario of the specification, on the model: a file of
    150000 bytes with chunk size 65536.  The frames are one byte longer
    than their payloads (the tag). *)
Example SendFile_150000 :
  let content := repeat Byte.x61 (Z.to_nat 150000) in
  let meta := @file_metadata plain (connected_sender 65536) "big.bin" content in
  (Size meta, Chunks meta) = (150000, 3) /\
  match @SendFile plain (connected_sender 65536) false (calm_world content None) "big.bin" with
  | Some (Returned (stats, None), tr) =>
      BytesSent stats = 150000 /\
      (fun f => (hd Byte.xff f, Z.of_nat (length f) - 1)) <$> tl (frames tr) =
        [(tag_of MsgTypeChunk, 65536); (tag_of MsgTypeChunk, 65536);
         (tag_of MsgTypeChunk, 18928); (tag_of MsgTypeComplete, 0)]
  | _ => False
  end.
Proof. vm_compute. repeat split; reflexivity. Qed.



(** Cancelled after the first of three chunks: metadata, one chunk, cancel. *)
Example SendFile_cancel_run :
  exists tr,
    @SendFile plain (connected_sender 4) false (calm_world ten_bytes (Some 1%nat)) "notes.txt" =
      Some (Returned (zeroStats, Some (errorString "context canceled")), tr) /\
    frames tr =
      [plain_frame MsgTypeMetadata (plain_meta 10 "notes.txt" "55");
       plain_frame MsgTypeChunk [Byte.x01; Byte.x02; Byte.x03; Byte.x04];
       plain_frame MsgTypeCancel (bytes_of_string "cancelled by sender")].
Proof. eexists. split; [vm_compute; reflexivity|reflexivity]. Qed.

(** ** Inputs outside the expected range *)

(** A negative chunk size is not refused: the metadata is written, then the
    allocation of the read buffer panics. *)
Example SendFile_negative_chunk_size :
  @SendFile plain (connected_sender (-1)) false (calm_world ten_bytes None) "notes.txt" =
    Some (Panicked "makeslice: len out of range",
          [FileReadAll; FileSeekStart;
           ConnWrite (plain_frame MsgTypeMetadata (plain_meta 10 "notes.txt" "55"))]).
Proof. vm_compute. reflexivity. Qed.

(** A negative declared size is not refused either: the file is created,
    then the allocation of the in-memory copy panics, and the empty file
    stays. *)
Example ReceiveFile_negative_size :
  @ReceiveFile plain connected_receiver "downloads" false
     [arrives (plain_frame MsgTypeMetadata (plain_meta (-1) "a.bin" "7")) 0] ∅ =
    Some (mkRecvRun (Panicked "makeslice: cap out of range") {["downloads/a.bin" := []]} [] 1).
Proof. vm_compute. reflexivity. Qed.

(** A metadata message that does not parse, after one that did: the error
    return leaves the file of the first on the disk. *)
Example ReceiveFile_second_metadata_malformed :
  @ReceiveFile plain connected_receiver "downloads" false
     [arrives (plain_frame MsgTypeMetadata (plain_meta 4 "a.bin" "7")) 0;
      arrives (plain_frame MsgTypeChunk [Byte.x07]) Second;
      arrives (plain_frame MsgTypeMetadata []) Second] ∅ =
    Some (mkRecvRun
            (Returned ("", zeroStats,
                       Some (wrapError "failed to parse metadata: "
                                       (Some (errorString "malformed metadata")))))
            {["downloads/a.bin" := [Byte.x07]]} [] 3).
Proof. vm_compute. reflexivity. Qed.

(** * Further properties *)

(** ** The relay: who is in a room *)

Lemma remove_first_subset (c x : Conn) (l : list Conn) : c ∈ remove_first x l -> c ∈ l.
Proof.
  induction l as [|y l IH]; simpl; [tauto|].
  destruct (y =? x)%nat; intros Hin.
  - right. assumption.
  - apply elem_of_cons in Hin as [->|Hin]; [left|right; auto].
Qed.

Lemma remove_first_NoDup (x : Conn) (l : list Conn) :
  NoDup l -> NoDup (remove_first x l) /\ x ∉ remove_first x l.
Proof.
  induction 1 as [|y l Hy Hnd [IH1 IH2]]; simpl.
  - split; [constructor|]. intros Hin. inversion Hin.
  - destruct (Nat.eqb_spec y x) as [->|Hne].
    + split; assumption.
    + split.
      * constructor; [|assumption]. intros Hin. apply Hy. eapply remove_first_subset, Hin.
      * intros Hin. apply elem_of_cons in Hin as [Heq|Hin]; [congruence|contradiction].
Qed.

Lemma remove_first_length_in (x : Conn) (l : list Conn) :
  x ∈ l -> S (length (remove_first x l)) = length l.
Proof.
  induction l as [|y l IH]; simpl; intros Hin; [inversion Hin|].
  destruct (Nat.eqb_spec y x) as [->|Hne]; [reflexivity|].
  apply elem_of_cons in Hin as [Heq|Hin]; [congruence|]. simpl. rewrite IH; auto.
Qed.

Lemma relay_members_init t0 : relay_members (NewRoomManager t0).
Proof.
  split; simpl; intros p room; rewrite lookup_nil; discriminate.
Qed.

(** A goroutine that is not in a room moves to a program point that is not
    in a room, the heap unchanged. *)
Lemma relay_members_set_handler st c h h0 :
  relay_members st ->
  handlers st !! c = h0 -> (forall h', h0 = Some h' -> joined h' = joined h) ->
  (h0 = None -> joined h = None) ->
  relay_members (set_handler c h st).
Proof.
  intros [Ho Hn] Hc Hsame Hnew. split; simpl; [|exact Hn].
  intros p room c' Hp Hin. destruct (Ho p room c' Hp Hin) as (h' & Hh' & Hj).
  destruct (decide (c = c')) as [<-|Hne].
  - exists h. rewrite lookup_insert_eq. split; [reflexivity|].
    rewrite <- (Hsame h'); [assumption|congruence].
  - exists h'. rewrite lookup_insert_ne by assumption. split; assumption.
Qed.

Lemma relay_members_emit es st : relay_members st -> relay_members (emit es st).
Proof. intros [Ho Hn]. split; assumption. Qed.

Lemma relay_members_run_handler c input st :
  relay_members st -> relay_members (run_handler c input st).
Proof.
  intros Hm. pose proof Hm as [Ho Hn]. unfold run_handler.
  destruct (handlers st !! c) as [h|] eqn:Hhc; [|assumption].
  destruct h as [tok|tok p|tok p|tok p|tok p|p| |]; try assumption.
  - (* GetOrCreateRoom *)
    unfold GetOrCreateRoom. destruct (rooms st !! tok) as [p|] eqn:Htok.
    + eapply relay_members_set_handler; [assumption|exact Hhc| |discriminate].
      intros h' [= <-]. reflexivity.
    + split; simpl.
      * intros p room c' Hp Hin.
        assert (Hold : heap st !! p = Some room).
        { destruct (decide (p < length (heap st))%nat) as [Hlt|Hge].
          - rewrite lookup_app_l in Hp; assumption.
          - rewrite lookup_app_r in Hp by lia.
            destruct (p - length (heap st))%nat; simpl in Hp; [|discriminate].
            injection Hp as <-. inversion Hin. }
        destruct (Ho p room c' Hold Hin) as (h' & Hh' & Hj).
        exists h'. split; [|assumption]. rewrite lookup_insert_ne; [assumption|].
        intros <-. rewrite Hhc in Hh'. injection Hh' as <-. discriminate.
      * intros p room Hp.
        destruct (decide (p < length (heap st))%nat) as [Hlt|Hge].
        -- rewrite lookup_app_l in Hp by assumption. eauto.
        -- rewrite lookup_app_r in Hp by lia.
           destruct (p - length (heap st))%nat; simpl in Hp; [|discriminate].
           injection Hp as <-. constructor.
  - (* AddClient *)
    destruct (heap st !! p) as [room|] eqn:Hp; [|assumption].
    unfold AddClient. destruct (2 <=? length (clients room))%nat.
    + eapply relay_members_set_handler; [apply relay_members_emit; assumption|exact Hhc| |discriminate].
      intros h' [= <-]. reflexivity.
    + assert (Hfresh : forall q rm, heap st !! q = Some rm -> c ∉ clients rm).
      { intros q rm Hq Hin. destruct (Ho q rm c Hq Hin) as (h' & Hh' & Hj).
        rewrite Hhc in Hh'. injection Hh' as <-. discriminate. }
      assert (Hlt : (p < length (heap st))%nat) by (eapply lookup_lt_Some, Hp).
      split; simpl.
      * intros q rm c' Hq Hin. destruct (decide (q = p)) as [->|Hqp].
        -- rewrite list_lookup_insert_eq in Hq by assumption. injection Hq as <-.
           simpl in Hin. apply elem_of_app in Hin as [Hin|Hin].
           ++ destruct (Ho p room c' Hp Hin) as (h' & Hh' & Hj).
              exists h'. split; [|assumption]. rewrite lookup_insert_ne; [assumption|].
              intros <-. eapply Hfresh; eassumption.
           ++ apply list_elem_of_singleton in Hin as ->. exists (AtReadMessage tok p).
              rewrite lookup_insert_eq. split; reflexivity.
        -- rewrite list_lookup_insert_ne in Hq by congruence.
           destruct (Ho q rm c' Hq Hin) as (h' & Hh' & Hj).
           exists h'. split; [|assumption]. rewrite lookup_insert_ne; [assumption|].
           intros <-. eapply Hfresh; eassumption.
      * intros q rm Hq. destruct (decide (q = p)) as [->|Hqp].
        -- rewrite list_lookup_insert_eq in Hq by assumption. injection Hq as <-. simpl.
           apply NoDup_app. split; [eauto|]. split; [|apply NoDup_singleton].
           intros x Hx Hx'. apply list_elem_of_singleton in Hx' as ->.
           eapply Hfresh; eassumption.
        -- rewrite list_lookup_insert_ne in Hq by congruence. eauto.
  - (* ReadMessage *)
    destruct input as [|messageType message].
    + eapply relay_members_set_handler; [assumption|exact Hhc| |discriminate].
      intros h' [= <-]. reflexivity.
    + destruct (messageType =? BinaryMessage); [|assumption].
      destruct (heap st !! p); [apply relay_members_emit|]; assumption.
  - (* the emptiness test *)
    destruct (heap st !! p) as [room|] eqn:Hp; [|assumption].
    destruct (length (clients room) =? 0)%nat;
      (eapply relay_members_set_handler; [assumption|exact Hhc| |discriminate]);
      intros h' [= <-]; reflexivity.
  - (* DeleteRoom *)
    eapply (relay_members_set_handler (DeleteRoom tok st)); [split; assumption|exact Hhc| |discriminate].
    intros h' [= <-]. reflexivity.
  - (* deferred RemoveClient *)
    destruct (heap st !! p) as [room|] eqn:Hp; [|assumption].
    assert (Hlt : (p < length (heap st))%nat) by (eapply lookup_lt_Some, Hp).
    destruct (remove_first_NoDup c (clients room) (Hn p room Hp)) as [Hnd Hgone].
    split; simpl.
    + intros q rm c' Hq Hin. destruct (decide (q = p)) as [->|Hqp].
      * rewrite list_lookup_insert_eq in Hq by assumption. injection Hq as <-. simpl in Hin.
        destruct (Ho p room c' Hp (remove_first_subset _ _ _ Hin)) as (h' & Hh' & Hj).
        exists h'. split; [|assumption]. rewrite lookup_insert_ne; [assumption|].
        intros <-. contradiction.
      * rewrite list_lookup_insert_ne in Hq by congruence.
        destruct (Ho q rm c' Hq Hin) as (h' & Hh' & Hj).
        exists h'. split; [|assumption]. rewrite lookup_insert_ne; [assumption|].
        intros <-. rewrite Hhc in Hh'. injection Hh' as <-. simpl in Hj. congruence.
    + intros q rm Hq. destruct (decide (q = p)) as [->|Hqp].
      * rewrite list_lookup_insert_eq in Hq by assumption. injection Hq as <-. exact Hnd.
      * rewrite list_lookup_insert_ne in Hq by congruence. eauto.
  - (* deferred Close *)
    eapply relay_members_set_handler; [apply relay_members_emit; assumption|exact Hhc| |discriminate].
    intros h' [= <-]. reflexivity.
Qed.

Lemma relay_members_step st ev : relay_members st -> relay_members (step st ev).
Proof.
  intros Hm. destruct ev as [c tok|c input|dt]; simpl.
  - destruct (String.eqb tok ""); [assumption|].
    destruct (handlers st !! c) eqn:Hc; [assumption|].
    eapply relay_members_set_handler; [assumption|exact Hc|discriminate|reflexivity].
  - apply relay_members_run_handler. assumption.
  - destruct (dt <? 0); [assumption|]. destruct Hm as [Ho Hn]. unfold elapse.
    split; simpl; rewrite ?heap_iter_tick, ?handlers_iter_tick; assumption.
Qed.

Lemma relay_members_reachable t0 evs : relay_members (run evs (NewRoomManager t0)).
Proof.
  unfold run. generalize (relay_members_init t0). generalize (NewRoomManager t0).
  induction evs as [|ev evs IH]; intros st Hm; simpl; [assumption|].
  apply IH, relay_members_step, Hm.
Qed.

(** ** The relay: what connection handling leaves of the rooms *)

Lemma rooms_kept_refl st : rooms_kept st st.
Proof. split; try reflexivity; eauto. Qed.

Lemma rooms_kept_set_handler st st' c h :
  rooms_kept st st' -> rooms_kept st (set_handler c h st').
Proof. intros [H1 H2 H3 H4 H5 H6]. split; assumption. Qed.

Lemma rooms_kept_emit st st' es : rooms_kept st st' -> rooms_kept st (emit es st').
Proof. intros [H1 H2 H3 H4 H5 H6]. split; assumption. Qed.

(** A room is rewritten in place, its token and creation time kept. *)
Lemma rooms_kept_set_room st p room room' :
  heap st !! p = Some room ->
  token room' = token room -> createdAt room' = createdAt room ->
  rooms_kept st (set_room p room' st).
Proof.
  intros Hp Htok Hat.
  assert (Hlt : (p < length (heap st))%nat) by (eapply lookup_lt_Some, Hp).
  split; simpl; try reflexivity; eauto.
  - intros q rm Hq. destruct (decide (q = p)) as [->|Hne].
    + exists room'. rewrite list_lookup_insert_eq by assumption.
      rewrite Hp in Hq. injection Hq as <-. auto.
    + exists rm. rewrite list_lookup_insert_ne by congruence. auto.
  - intros q rm' Hq. left. destruct (decide (q = p)) as [->|Hne].
    + rewrite list_lookup_insert_eq in Hq by assumption. injection Hq as <-. eauto.
    + rewrite list_lookup_insert_ne in Hq by congruence. eauto.
Qed.

Lemma rooms_kept_GetOrCreateRoom tok st : rooms_kept st (GetOrCreateRoom tok st).2.
Proof.
  unfold GetOrCreateRoom. destruct (rooms st !! tok) as [p|] eqn:Htok; simpl;
    [apply rooms_kept_refl|].
  split; simpl; try reflexivity.
  - intros p room Hp. exists room. split; [|auto].
    rewrite lookup_app_l; [assumption|]. eapply lookup_lt_Some, Hp.
  - intros p room' Hp. destruct (decide (p < length (heap st))%nat) as [Hlt|Hge].
    + rewrite lookup_app_l in Hp by assumption. left. eauto.
    + rewrite lookup_app_r in Hp by lia.
      destruct (p - length (heap st))%nat eqn:Hd; simpl in Hp; [|discriminate].
      injection Hp as <-. right. simpl. split; [lia|auto].
  - intros tok' p Hp. rewrite lookup_insert_ne; [assumption|]. congruence.
  - intros tok' p. destruct (decide (tok = tok')) as [<-|Hne].
    + rewrite lookup_insert_eq. intros [= <-]. right. reflexivity.
    + rewrite lookup_insert_ne by assumption. auto.
Qed.

Lemma rooms_kept_run_handler c input st :
  relay_inv st -> rooms_kept st (run_handler c input st).
Proof.
  intros Hinv. unfold run_handler.
  destruct (handlers st !! c) as [h|] eqn:Hhc; [|apply rooms_kept_refl].
  destruct h as [tok|tok p|tok p|tok p|tok p|p| |]; try apply rooms_kept_refl.
  - pose proof (rooms_kept_GetOrCreateRoom tok st) as Hk.
    destruct (GetOrCreateRoom tok st) as [p st']. apply rooms_kept_set_handler, Hk.
  - destruct (heap st !! p) as [room|] eqn:Hp; [|apply rooms_kept_refl].
    unfold AddClient. destruct (2 <=? length (clients room))%nat.
    + apply rooms_kept_set_handler, rooms_kept_emit, rooms_kept_refl.
    + apply rooms_kept_set_handler. eapply rooms_kept_set_room; [exact Hp|reflexivity..].
  - destruct input as [|messageType message].
    + apply rooms_kept_set_handler, rooms_kept_refl.
    + destruct (messageType =? BinaryMessage); [|apply rooms_kept_refl].
      destruct (heap st !! p); [apply rooms_kept_emit|]; apply rooms_kept_refl.
  - destruct (heap st !! p) as [room|]; [|apply rooms_kept_refl].
    destruct (length (clients room) =? 0)%nat; apply rooms_kept_set_handler, rooms_kept_refl.
  - exfalso. eapply (inv_no_delete _ Hinv), Hhc.
  - destruct (heap st !! p) as [room|] eqn:Hp; [|apply rooms_kept_refl].
    apply rooms_kept_set_handler. eapply rooms_kept_set_room; [exact Hp|reflexivity..].
  - apply rooms_kept_set_handler, rooms_kept_emit, rooms_kept_refl.
Qed.

(** X3: handling connections never takes a room out of the session table
    and never changes the token or the creation time of a room: whatever
    request is accepted and whatever goroutine runs, a token that led to a
    room still leads to it, and the room has kept its creation time (so a
    later join does not prolong it).  Only the passing of time, through the
    cleanup loop, removes entries. *)
Theorem handling_keeps_rooms (t0 : Z) (evs : list Event) (ev : Event) (tok : string)
    (p : RoomRef) (room : Room) :
  let st := run evs (NewRoomManager t0) in
  handling ev ->
  rooms st !! tok = Some p ->
  heap st !! p = Some room ->
  rooms (step st ev) !! tok = Some p /\
  exists room', heap (step st ev) !! p = Some room' /\
    token room' = token room /\ createdAt room' = createdAt room.
Proof.
  intros st Hev Htok Hp.
  assert (Hk : rooms_kept st (step st ev)).
  { destruct ev as [c tk|c input|dt]; simpl; [| |contradiction].
    - destruct (String.eqb tk ""); [apply rooms_kept_refl|].
      destruct (handlers st !! c); [apply rooms_kept_refl|].
      apply rooms_kept_set_handler, rooms_kept_refl.
    - apply rooms_kept_run_handler, relay_inv_reachable. }
  split; [apply (kept_table _ _ Hk), Htok|apply (kept_heap _ _ Hk), Hp].
Qed.

Lemma handling_keeps_rooms_witness :
  let evs := [Request 1%nat "t"; Run 1%nat ReadErr; Run 1%nat ReadErr; Run 1%nat ReadErr;
              Run 1%nat ReadErr] in
  let st := run evs (NewRoomManager 0) in
  let ev := Run 1%nat ReadErr in
  handling ev /\ rooms st !! "t" = Some 0%nat /\ heap st !! 0%nat = Some (mkRoom "t" [1%nat] 0) /\
  rooms (step st ev) !! "t" = Some 0%nat /\
  exists room', heap (step st ev) !! 0%nat = Some room' /\
    token room' = "t" /\ createdAt room' = 0.
Proof.
  intros evs st ev.
  assert (H1 : handling ev) by exact I.
  assert (H2 : rooms st !! "t" = Some 0%nat) by (vm_compute; reflexivity).
  assert (H3 : heap st !! 0%nat = Some (mkRoom "t" [1%nat] 0)) by (vm_compute; reflexivity).
  split; [exact H1|]. split; [exact H2|]. split; [exact H3|].
  exact (handling_keeps_rooms 0 evs ev "t" 0%nat (mkRoom "t" [1%nat] 0) H1 H2 H3).
Defined.

(** ** The relay: no room outlives eleven minutes *)











(** ** The relay: forwarding and leaving *)

Lemma filter_other_short (conn : Conn) (l : list Conn) :
  conn ∈ l -> NoDup l -> (length l <= 2)%nat ->
  (length (filter (fun c => c <> conn) l) <= 1)%nat.
Proof.
  intros Hin Hnd Hlen.
  destruct l as [|a [|b [|x l]]]; [inversion Hin| | |simpl in Hlen; lia].
  - apply list_elem_of_singleton in Hin as ->. rewrite filter_cons_False by tauto. simpl. lia.
  - apply elem_of_cons in Hin as [->|Hin].
    + rewrite filter_cons_False by tauto.
      destruct (decide (b = a)) as [->|Hne].
      * rewrite filter_cons_False by tauto. simpl. lia.
      * rewrite filter_cons_True by assumption. simpl. lia.
    + apply list_elem_of_singleton in Hin as ->.
      destruct (decide (a = b)) as [->|Hne].
      * rewrite filter_cons_False by tauto. rewrite filter_cons_False by tauto. simpl. lia.
      * rewrite filter_cons_True by assumption. rewrite filter_cons_False by tauto. simpl. lia.
Qed.

(** X1: a goroutine in its read loop is in the list of its room.  A binary
    message it reads is written, byte for byte, to every other connection of
    the room, once each, to at most one connection in all, and never back to
    the sender; a message of another type is dropped.  Either way the rooms,
    the table and the goroutines are left as they are. *)
Theorem forward_reaches_the_other (t0 : Z) (evs : list Event) (conn : Conn) (tok : string)
    (p : RoomRef) (messageType : Z) (message : list Byte.byte) :
  let st := run evs (NewRoomManager t0) in
  handlers st !! conn = Some (AtReadMessage tok p) ->
  exists room written,
    heap st !! p = Some room /\ conn ∈ clients room /\
    let st' := run_handler conn (ReadMsg messageType message) st in
    heap st' = heap st /\ rooms st' = rooms st /\ handlers st' = handlers st /\
    log st' = log st ++ written /\
    (forall e, e ∈ written <->
       messageType = BinaryMessage /\
       exists c, e = ConnWriteBinary c message /\ c ∈ clients room /\ c <> conn) /\
    NoDup written /\ (length written <= 1)%nat.
Proof.
  intros st Hh.
  pose proof (relay_inv_reachable t0 evs) as Hinv. fold st in Hinv.
  pose proof (relay_members_reachable t0 evs) as Hmem. fold st in Hmem.
  destruct (inv_joined _ Hinv conn _ p Hh eq_refl) as (room & Hp & Hin).
  pose proof (mem_nodup _ Hmem p room Hp) as Hnd.
  assert (Hcap : (length (clients room) <= 2)%nat).
  { pose proof (inv_capacity _ Hinv) as Hall. rewrite Forall_forall in Hall.
    apply Hall. eapply list_elem_of_lookup_2, Hp. }
  exists room.
  exists (if messageType =? BinaryMessage then Broadcast room conn message else []).
  split; [exact Hp|]. split; [exact Hin|]. cbv zeta.
  unfold run_handler. rewrite Hh. cbv beta iota.
  destruct (Z.eqb_spec messageType BinaryMessage) as [->|Hne].
  - rewrite Hp. simpl.
    do 4 (split; [reflexivity|]). split; [|split].
    + intros e. unfold Broadcast. rewrite list_elem_of_fmap. split.
      * intros (c & -> & Hc). apply list_elem_of_filter in Hc as [Hc1 Hc2].
        split; [reflexivity|]. exists c. auto.
      * intros (_ & c & -> & Hc1 & Hc2). exists c. split; [reflexivity|].
        apply list_elem_of_filter. split; assumption.
    + unfold Broadcast. apply NoDup_fmap_2; [|apply NoDup_filter, Hnd].
      intros a b Hab. injection Hab as ->. reflexivity.
    + unfold Broadcast. rewrite length_fmap. apply filter_other_short; assumption.
  - rewrite app_nil_r.
    do 4 (split; [reflexivity|]). split; [|split].
    + intros e. split.
      * intros He. inversion He.
      * intros (Heq & _). contradiction.
    + constructor.
    + simpl. lia.
Qed.

Lemma forward_reaches_the_other_witness :
  let evs := [Request 1%nat "t"; Run 1%nat ReadErr; Run 1%nat ReadErr;
              Request 2%nat "t"; Run 2%nat ReadErr; Run 2%nat ReadErr] in
  let st := run evs (NewRoomManager 0) in
  handlers st !! 1%nat = Some (AtReadMessage "t" 0%nat) /\
  exists room written,
    heap st !! 0%nat = Some room /\ 1%nat ∈ clients room /\
    log (run_handler 1%nat (ReadMsg BinaryMessage [Byte.x2a]) st) = log st ++ written /\
    (forall e, e ∈ written <->
       BinaryMessage = BinaryMessage /\
       exists c, e = ConnWriteBinary c [Byte.x2a] /\ c ∈ clients room /\ c <> 1%nat).
Proof.
  intros evs st.
  assert (H1 : handlers st !! 1%nat = Some (AtReadMessage "t" 0%nat)) by (vm_compute; reflexivity).
  split; [exact H1|].
  destruct (forward_reaches_the_other 0 evs 1%nat "t" 0%nat BinaryMessage [Byte.x2a] H1)
    as (room & written & Hp & Hin & _ & _ & _ & Hlog & Hiff & _).
  exists room, written.
  split; [exact Hp|]. split; [exact Hin|]. split; [exact Hlog|]. exact Hiff.
Defined.

(** Two connections in a room: what the first sends goes to the second and
    nowhere else; a text message goes nowhere. *)
Example forward_scenario :
  let st := run [Request 1%nat "t"; Run 1%nat ReadErr; Run 1%nat ReadErr;
                 Request 2%nat "t"; Run 2%nat ReadErr; Run 2%nat ReadErr] (NewRoomManager 0) in
  log (run_handler 1%nat (ReadMsg BinaryMessage [Byte.x2a]) st) = [ConnWriteBinary 2%nat [Byte.x2a]] /\
  log (run_handler 1%nat (ReadMsg TextMessage [Byte.x2a]) st) = [].
Proof. vm_compute. split; reflexivity. Qed.

(** X2: in every state the relay can reach, a connection that is in the
    list of a room is there once, is in no other room, and belongs to a
    goroutine that has joined that room and has not yet run its deferred
    [RemoveClient]; so a connection whose goroutine has finished is in no
    room, and nothing is forwarded to it any more. *)
Theorem member_of_one_room (t0 : Z) (evs : list Event) (p : RoomRef) (room : Room) (c : Conn) :
  let st := run evs (NewRoomManager t0) in
  heap st !! p = Some room ->
  c ∈ clients room ->
  NoDup (clients room) /\
  (exists h, handlers st !! c = Some h /\ joined h = Some p /\ h <> Finished) /\
  (forall p' room', heap st !! p' = Some room' -> c ∈ clients room' -> p' = p).
Proof.
  intros st Hp Hin. destruct (relay_members_reachable t0 evs) as [Ho Hn]. fold st in Ho, Hn.
  split; [eauto|]. destruct (Ho p room c Hp Hin) as (h & Hh & Hj). split.
  - exists h. repeat split; try assumption. intros ->. discriminate.
  - intros p' room' Hp' Hin'. destruct (Ho p' room' c Hp' Hin') as (h' & Hh' & Hj').
    congruence.
Qed.

Lemma member_of_one_room_witness :
  let evs := [Request 1%nat "t"; Run 1%nat ReadErr; Run 1%nat ReadErr] in
  let st := run evs (NewRoomManager 0) in
  heap st !! 0%nat = Some (mkRoom "t" [1%nat] 0) /\ 1%nat ∈ clients (mkRoom "t" [1%nat] 0) /\
  NoDup [1%nat] /\
  (exists h, handlers st !! 1%nat = Some h /\ joined h = Some 0%nat /\ h <> Finished).
Proof.
  intros evs st.
  assert (H1 : heap st !! 0%nat = Some (mkRoom "t" [1%nat] 0)) by (vm_compute; reflexivity).
  assert (H2 : 1%nat ∈ clients (mkRoom "t" [1%nat] 0)) by (simpl; left).
  split; [exact H1|]. split; [exact H2|].
  destruct (member_of_one_room 0 evs 0%nat (mkRoom "t" [1%nat] 0) 1%nat H1 H2) as (Hnd & Hh & _).
  split; assumption.
Defined.

(** X5: when a goroutine runs the [RemoveClient] it deferred, its room loses
    exactly that connection: the list is one shorter, the connection is no
    longer in it, every other connection is, and the room keeps its token
    and creation time; the session table is not touched. *)
Theorem leave_removes_only_self (t0 : Z) (evs : list Event) (conn : Conn) (p : RoomRef)
    (input : ReadResult) :
  let st := run evs (NewRoomManager t0) in
  handlers st !! conn = Some (AtDeferRemoveClient p) ->
  exists room room',
    heap st !! p = Some room /\
    let st' := run_handler conn input st in
    heap st' !! p = Some room' /\
    S (length (clients room')) = length (clients room) /\
    (conn ∉ clients room') /\
    (forall c, c <> conn -> (c ∈ clients room' <-> c ∈ clients room)) /\
    token room' = token room /\ createdAt room' = createdAt room /\
    rooms st' = rooms st /\ log st' = log st.
Proof.
  intros st Hh.
  pose proof (relay_inv_reachable t0 evs) as Hinv. fold st in Hinv.
  pose proof (relay_members_reachable t0 evs) as Hmem. fold st in Hmem.
  destruct (inv_joined _ Hinv conn _ p Hh eq_refl) as (room & Hp & Hin).
  destruct (remove_first_NoDup conn (clients room) (mem_nodup _ Hmem p room Hp)) as [_ Hgone].
  exists room, (RemoveClient room conn). split; [exact Hp|]. cbv zeta.
  unfold run_handler. rewrite Hh. cbv beta iota. rewrite Hp. simpl.
  split; [apply list_lookup_insert_eq; eapply lookup_lt_Some, Hp|].
  split; [apply remove_first_length_in, Hin|]. split; [exact Hgone|].
  split; [|repeat split].
  intros c Hc. split; [apply remove_first_subset|apply remove_first_other, Hc].
Qed.

Lemma leave_removes_only_self_witness :
  let evs := [Request 1%nat "t"; Run 1%nat ReadErr; Run 1%nat ReadErr;
              Request 2%nat "t"; Run 2%nat ReadErr; Run 2%nat ReadErr;
              Run 1%nat ReadErr; Run 1%nat ReadErr] in
  let st := run evs (NewRoomManager 0) in
  handlers st !! 1%nat = Some (AtDeferRemoveClient 0%nat) /\
  exists room room',
    heap st !! 0%nat = Some room /\
    heap (run_handler 1%nat ReadErr st) !! 0%nat = Some room' /\
    S (length (clients room')) = length (clients room) /\
    1%nat ∉ clients room'.
Proof.
  intros evs st.
  assert (H1 : handlers st !! 1%nat = Some (AtDeferRemoveClient 0%nat)) by (vm_compute; reflexivity).
  split; [exact H1|].
  destruct (leave_removes_only_self 0 evs 1%nat 0%nat ReadErr H1)
    as (room & room' & Hp & Hp' & Hlen & Hgone & _).
  exists room, room'. repeat split; assumption.
Defined.

(** ** Sender.Connect: any number of retries *)

Section ConnectLoop.
Variable dial : nat -> DialResult.
Variable s : Sender.
Hypothesis Hretries : Retries (s_config s) <= 2 ^ 32.

Lemma connect_loop_failed (fuel a : nat) (err : error) (lastErr : option error)
    (tr : list ConnectEffect) :
  Z.of_nat a < Retries (s_config s) - 1 ->
  dial a = DialErr err ->
  connect_loop dial s (S fuel) (Z.of_nat a) lastErr tr =
    connect_loop dial s fuel (Z.of_nat (S a)) (Some err)
      (tr ++ [Dial (ws_url (s_relayURL s) (s_token s)); Sleep (backoff_after a)]).
Proof.
  intros Ha Hd. cbn [connect_loop].
  replace (Z.of_nat a <? Retries (s_config s)) with true by (symmetry; apply Z.ltb_lt; lia).
  rewrite Nat2Z.id, Hd.
  replace (Z.of_nat a <? Retries (s_config s) - 1) with true by (symmetry; apply Z.ltb_lt; lia).
  rewrite (wrap64_small (Z.of_nat a + 1)) by lia.
  rewrite (wrap64_small ((Z.of_nat a + 1) * 2)) by lia.
  rewrite wrap64_small by (unfold Second; lia).
  rewrite <- app_assoc. replace (Z.of_nat a + 1) with (Z.of_nat (S a)) by lia.
  unfold backoff_after. replace (Z.of_nat (S a)) with (Z.of_nat a + 1) at 2 by lia.
  reflexivity.
Qed.

Lemma connect_loop_retries (k : nat) : forall (fuel a : nat) (lastErr : option error)
    (tr : list ConnectEffect),
  Z.of_nat (a + k) < Retries (s_config s) ->
  failing_between dial a k ->
  exists lastErr',
    connect_loop dial s (k + fuel) (Z.of_nat a) lastErr tr =
      connect_loop dial s fuel (Z.of_nat (a + k)) lastErr'
        (tr ++ failed_attempts (ws_url (s_relayURL s) (s_token s)) a k) /\
    (k = 0%nat -> lastErr' = lastErr) /\
    (forall j err, k = S j -> dial (a + j)%nat = DialErr err -> lastErr' = Some err).
Proof.
  induction k as [|k IH]; intros fuel a lastErr tr Hlt Hfail.
  - exists lastErr. rewrite Nat.add_0_r. unfold failed_attempts. simpl. rewrite app_nil_r.
    split; [reflexivity|]. split; [reflexivity|discriminate].
  - destruct (Hfail a ltac:(lia)) as [err Herr].
    destruct (IH fuel (S a) (Some err)
                (tr ++ [Dial (ws_url (s_relayURL s) (s_token s)); Sleep (backoff_after a)])
                ltac:(lia) ltac:(intros i Hi; apply Hfail; lia))
      as (lastErr' & Hrun & H0 & HS).
    exists lastErr'. split; [|split; [discriminate|]].
    + change (S k + fuel)%nat with (S (k + fuel)).
      rewrite (connect_loop_failed _ _ err) by (assumption || lia).
      rewrite Hrun. replace (S a + k)%nat with (a + S k)%nat by lia.
      rewrite <- app_assoc. reflexivity.
    + intros j e [= <-] He. destruct k as [|k'].
      * rewrite Nat.add_0_r in He. rewrite (H0 eq_refl). congruence.
      * apply (HS k' e eq_refl). replace (S a + k')%nat with (a + S k')%nat by lia. exact He.
Qed.

End ConnectLoop.

(** X6: when the first [k] attempts fail and attempt [k] (from 0), still
    within the configured number of retries, succeeds, [Connect] dials
    [k + 1] times, pauses [2 * (i + 1)] seconds after each failed attempt
    [i], stores the connection it got and returns nil. *)
Theorem Connect_succeeds_after (dial : nat -> DialResult) (s : Sender) (k : nat) (c : Conn) :
  Retries (s_config s) <= 2 ^ 32 ->
  Z.of_nat k < Retries (s_config s) ->
  failing_between dial 0 k ->
  dial k = DialOk c ->
  let url := ws_url (s_relayURL s) (s_token s) in
  Connect dial s =
    Some (mkSender (s_relayURL s) (s_token s) (s_key s) (Some c) (s_config s),
          failed_attempts url 0 k ++ [Dial url], None).
Proof.
  intros HR Hk Hfail Hok url. unfold Connect.
  replace (Z.to_nat (Retries (s_config s)))
    with (k + S (Z.to_nat (Retries (s_config s)) - S k))%nat by lia.
  destruct (connect_loop_retries dial s HR k (S (Z.to_nat (Retries (s_config s)) - S k))
              0%nat None [] ltac:(simpl; lia) Hfail) as (lastErr & Hrun & _).
  change (Z.of_nat 0) with 0 in Hrun. rewrite Hrun.
  cbn [connect_loop plus app].
  replace (Z.of_nat k <? Retries (s_config s)) with true by (symmetry; apply Z.ltb_lt; lia).
  rewrite Nat2Z.id, Hok. reflexivity.
Qed.

Lemma Connect_succeeds_after_witness :
  let dial := fun i : nat => if (i <? 2)%nat then DialErr (errorString "refused") else DialOk 7%nat in
  let s := NewSender "wss://pulse.relay.app" "tok" [] (mkConfig 0 0 5 false) in
  Retries (s_config s) <= 2 ^ 32 /\ 2 < Retries (s_config s) /\
  failing_between dial 0 2 /\ dial 2%nat = DialOk 7%nat /\
  Connect dial s =
    Some (mkSender "wss://pulse.relay.app" "tok" [] (Some 7%nat) (s_config s),
          [Dial "wss://pulse.relay.app/ws/tok"; Sleep (2 * Second);
           Dial "wss://pulse.relay.app/ws/tok"; Sleep (4 * Second);
           Dial "wss://pulse.relay.app/ws/tok"], None).
Proof.
  intros dial s.
  assert (H1 : Retries (s_config s) <= 2 ^ 32) by (vm_compute; discriminate).
  assert (H2 : Z.of_nat 2 < Retries (s_config s)) by reflexivity.
  assert (H3 : failing_between dial 0 2).
  { intros i Hi. exists (errorString "refused"). unfold dial.
    destruct (Nat.ltb_spec i 2); [reflexivity|lia]. }
  assert (H4 : dial 2%nat = DialOk 7%nat) by reflexivity.
  split; [exact H1|]. split; [exact H2|]. split; [exact H3|]. split; [exact H4|].
  exact (Connect_succeeds_after dial s 2 7%nat H1 H2 H3 H4).
Defined.

(** X7: when every attempt fails, [Connect] with [n] retries dials [n]
    times, pauses [2 * (i + 1)] seconds after each failed attempt but the
    last, stores no connection, and returns an error that wraps the error of
    the last attempt.  With no retry allowed ([n <= 0], which [NewSender]
    lets through for a negative setting) it dials not once and the error
    wraps nil. *)
Theorem Connect_gives_up (dial : nat -> DialResult) (s : Sender) :
  Retries (s_config s) <= 2 ^ 32 ->
  failing_between dial 0 (Z.to_nat (Retries (s_config s))) ->
  let url := ws_url (s_relayURL s) (s_token s) in
  let msg := "failed to connect to relay after " +:+ pretty (Retries (s_config s))
             +:+ " attempts: " in
  match Z.to_nat (Retries (s_config s)) with
  | O => Connect dial s = Some (s, [], Some (wrapError msg None))
  | S k =>
      exists err, dial k = DialErr err /\
        Connect dial s =
          Some (s, failed_attempts url 0 k ++ [Dial url], Some (wrapError msg (Some err)))
  end.
Proof.
  intros HR Hfail url msg. unfold Connect.
  destruct (Z.to_nat (Retries (s_config s))) as [|k] eqn:Hn.
  - cbn [connect_loop].
    replace (0 <? Retries (s_config s)) with false by (symmetry; apply Z.ltb_ge; lia).
    reflexivity.
  - destruct (Hfail k ltac:(lia)) as [err Herr]. exists err. split; [exact Herr|].
    replace (S k) with (k + 1)%nat by lia.
    destruct (connect_loop_retries dial s HR k 1 0%nat None [] ltac:(simpl; lia)
                ltac:(intros i Hi; apply Hfail; lia)) as (lastErr & Hrun & _).
    change (Z.of_nat 0) with 0 in Hrun. rewrite Hrun.
    cbn [connect_loop plus app].
    replace (Z.of_nat k <? Retries (s_config s)) with true by (symmetry; apply Z.ltb_lt; lia).
    rewrite Nat2Z.id, Herr.
    replace (Z.of_nat k <? Retries (s_config s) - 1) with false
      by (symmetry; apply Z.ltb_ge; lia).
    rewrite wrap64_small by lia.
    replace (Z.of_nat k + 1 <? Retries (s_config s)) with false
      by (symmetry; apply Z.ltb_ge; lia).
    reflexivity.
Qed.

Lemma Connect_gives_up_witness :
  let dial := fun _ : nat => DialErr (errorString "refused") in
  let s := NewSender "wss://pulse.relay.app" "tok" [] (mkConfig 0 0 4 false) in
  Retries (s_config s) <= 2 ^ 32 /\
  failing_between dial 0 (Z.to_nat (Retries (s_config s))) /\
  exists err, dial 3%nat = DialErr err /\
    Connect dial s =
      Some (s, failed_attempts "wss://pulse.relay.app/ws/tok" 0 3
               ++ [Dial "wss://pulse.relay.app/ws/tok"],
            Some (wrapError "failed to connect to relay after 4 attempts: " (Some err))).
Proof.
  intros dial s.
  assert (H1 : Retries (s_config s) <= 2 ^ 32) by (vm_compute; discriminate).
  assert (H2 : failing_between dial 0 (Z.to_nat (Retries (s_config s))))
    by (intros i _; exists (errorString "refused"); reflexivity).
  split; [exact H1|]. split; [exact H2|].
  exact (Connect_gives_up dial s H1 H2).
Defined.

(** A negative number of retries: no dial, and an error around nil. *)
Example Connect_negative_retries :
  Connect (fun _ => DialOk 7%nat)
          (NewSender "wss://pulse.relay.app" "tok" [] (mkConfig 0 0 (-1) false)) =
    Some (NewSender "wss://pulse.relay.app" "tok" [] (mkConfig 0 0 (-1) false), [],
          Some (wrapError "failed to connect to relay after -1 attempts: " None)).
Proof. vm_compute. reflexivity. Qed.

(** ** Sender.SendFile: in any world *)

Lemma chunk_stream_cons `{Packages} (s : Sender) (l l' x f : list Byte.byte) (k : nat)
    (e : StreamEnd) (fs : list (list Byte.byte)) :
  sealed (s_key s) f (NewChunkMessage x) ->
  slices_of (ChunkSize (s_config s)) l = x :: slices_of (ChunkSize (s_config s)) l' ->
  chunk_stream s l' k e fs ->
  chunk_stream s l (S k) e (f :: fs).
Proof.
  intros Hf Hl (cf & tail & -> & Hall & He).
  exists (f :: cf), tail. split; [reflexivity|]. split.
  - rewrite Hl. cbn [take fmap list_fmap]. constructor; assumption.
  - destruct e; try assumption.
    destruct He as (g & -> & Hg & Hk). exists g. repeat split; try assumption.
    rewrite Hl. simpl. lia.
Qed.

Section SendAny.
Context `{Packages}.
Variable s : Sender.
Variable pf : bool.
Variable w : SendWorld.
Variable content : list Byte.byte.
Variable fileSize : Z.

Hypothesis Hcs : 0 < ChunkSize (s_config s).

(** Whatever the world answers, the loop ends: at the end of the file, with
    every chunk sent, or in an error return with zero statistics, after the
    first chunks of the file. *)
Lemma send_loop_any fuel : forall i off bytesSent tr,
  (off <= length content)%nat -> (length content - off < fuel)%nat ->
  exists r ext,
    send_loop s pf w content fileSize fuel i off bytesSent tr = Some (r, tr ++ ext) /\
    match r with
    | inl (i', b') =>
        Forall2 (sealed (s_key s)) (frames ext)
          (NewChunkMessage <$> slices_of (ChunkSize (s_config s)) (drop off content)) /\
        (bytesSent = Z.of_nat off -> Z.of_nat (length content) < 2 ^ 63 ->
           b' = Z.of_nat (length content))
    | inr o =>
        exists err k e,
          o = Returned (zeroStats, Some err) /\ e <> Completed /\
          (e = Cancelled -> err = ctx_Err w) /\
          chunk_stream s (drop off content) k e (frames ext)
    end.
Proof.
  induction fuel as [|fuel IH]; intros i off bytesSent tr Hoff Hfuel; [lia|].
  cbn [send_loop].
  destruct (send_ctx_done w i).
  { (* the context is cancelled *)
    destruct (EncryptChunk (EncodeMessage (NewCancelMessage "cancelled by sender")) (s_key s))
      as [encMsg|e] eqn:Henc.
    - exists (inr (Returned (zeroStats, Some (ctx_Err w)))), [ConnWrite encMsg].
      split; [reflexivity|]. exists (ctx_Err w), 0%nat, Cancelled.
      split; [reflexivity|]. split; [discriminate|]. split; [reflexivity|].
      exists [], [encMsg]. split; [reflexivity|]. split; [constructor|].
      exists encMsg. split; [reflexivity|exact Henc].
    - exists (inr (Returned (zeroStats, Some (ctx_Err w)))), [].
      split; [rewrite app_nil_r; reflexivity|]. exists (ctx_Err w), 0%nat, Broken.
      split; [reflexivity|]. split; [discriminate|]. split; [discriminate|].
      exists [], []. split; [reflexivity|]. split; [constructor|reflexivity]. }
  unfold file_Read.
  destruct (Nat.eqb_spec (Z.to_nat (ChunkSize (s_config s))) 0) as [Hz|_]; [lia|].
  destruct (Nat.leb_spec (length content) off) as [Hle|Hlt].
  { (* io.EOF *)
    exists (inl (i, bytesSent)), [FileReadEOF]. split; [reflexivity|].
    rewrite drop_ge by lia. rewrite slices_of_nil. split; [constructor|].
    intros -> _. f_equal. lia. }
  set (n := Nat.min (Z.to_nat (ChunkSize (s_config s))) (length content - off)).
  assert (Hbroken : forall err ext, frames ext = [] ->
            exists err0 k e,
              Returned (zeroStats, Some err) = Returned (zeroStats, Some err0) /\ e <> Completed /\
              (e = Cancelled -> err0 = ctx_Err w) /\
              chunk_stream s (drop off content) k e (frames ext)).
  { intros err ext Hext. exists err, 0%nat, Broken.
    split; [reflexivity|]. split; [discriminate|]. split; [discriminate|].
    exists [], []. rewrite Hext. split; [reflexivity|]. split; [constructor|reflexivity]. }
  destruct (read_err w i) as [err|].
  { eexists (inr _), []. split; [rewrite app_nil_r; reflexivity|]. apply Hbroken. reflexivity. }
  destruct (EncryptChunk (EncodeMessage (NewChunkMessage (take n (drop off content)))) (s_key s))
    as [frame|err] eqn:Hframe.
  2:{ eexists (inr _), [FileRead n]. split; [reflexivity|]. apply Hbroken. reflexivity. }
  assert (Htake : take n (drop off content)
                  = take (Z.to_nat (ChunkSize (s_config s))) (drop off content)).
  { unfold n. destruct (Nat.le_ge_cases (Z.to_nat (ChunkSize (s_config s)))
                                        (length content - off)) as [Hmin|Hmin].
    - rewrite Nat.min_l by assumption. reflexivity.
    - rewrite Nat.min_r by assumption.
      rewrite !take_ge by (rewrite length_drop; lia). reflexivity. }
  assert (Hoff' : (off + n)%nat
                  = Nat.min (off + Z.to_nat (ChunkSize (s_config s))) (length content))
    by (unfold n; lia).
  pose proof (drop_min_slices s content Hcs off Hlt) as Hslices.
  rewrite <- Hoff', <- Htake in Hslices.
  destruct (write_err w (S i)) as [err|].
  { eexists (inr _), [FileRead n; ConnWrite frame]. split; [rewrite <- app_assoc; reflexivity|].
    exists (wrapError "failed to send chunk: " (Some err)), 1%nat, Broken.
    split; [reflexivity|]. split; [discriminate|]. split; [discriminate|].
    exists [frame], []. split; [reflexivity|]. split; [|reflexivity].
    rewrite Hslices. cbn [take fmap list_fmap]. rewrite take_0. repeat constructor. exact Hframe. }
  set (step := [FileRead n; ConnWrite frame]
               ++ if pf then [ProgressCall (wrap64 (bytesSent + Z.of_nat n)) fileSize] else []).
  assert (Hstep : frames step = [frame]) by (unfold step; destruct pf; reflexivity).
  destruct (IH (S i) (off + n)%nat (wrap64 (bytesSent + Z.of_nat n)) (tr ++ step)
              ltac:(unfold n; lia) ltac:(unfold n; lia)) as (r & ext & Hrun & Hr).
  exists r, (step ++ ext). split.
  { rewrite app_assoc, <- Hrun. f_equal.
    unfold step. destruct pf; rewrite <- ?app_assoc; simpl; rewrite ?app_nil_r; reflexivity. }
  rewrite frames_app, Hstep. cbn [app].
  destruct r as [[i' b']|o].
  - destruct Hr as [Hall Hb]. split.
    + rewrite Hslices. cbn [fmap list_fmap]. constructor; assumption.
    + intros -> Hsmall. apply Hb; [|assumption].
      rewrite wrap64_small by (unfold n; lia). lia.
  - destruct Hr as (err & k & e & -> & He & Hc & Hstream).
    exists err, (S k), e. split; [reflexivity|]. split; [exact He|]. split; [exact Hc|].
    eapply chunk_stream_cons; eassumption.
Qed.

End SendAny.

(** A call that returns nil had a positive chunk size and a connection. *)
Lemma SendFile_nil_needs `{Packages} s pf w filePath stats tr :
  SendFile s pf w filePath = Some (Returned (stats, None), tr) ->
  0 < ChunkSize (s_config s) /\ is_Some (s_conn s).
Proof.
  unfold SendFile. intros Hrun.
  destruct (open_file w) as [content|e]; [|discriminate].
  destruct (stat_err w); [discriminate|].
  destruct (readall_err w); [discriminate|].
  destruct (seek_err w); [discriminate|].
  destruct (Z.eqb_spec (ChunkSize (s_config s)) 0); [discriminate|].
  destruct (NewMetadataMessage _); [|discriminate].
  destruct (EncryptChunk _ _); [|discriminate].
  destruct (s_conn s) as [c|]; [|discriminate].
  destruct (write_err w 0%nat); [discriminate|].
  destruct (Z.ltb_spec (ChunkSize (s_config s)) 0); [discriminate|]. split; [lia|eauto].
Qed.

(** Every way a call with a positive chunk size and a connection can go. *)
Lemma SendFile_run `{Packages} s pf w filePath c :
  0 < ChunkSize (s_config s) -> s_conn s = Some c ->
  exists stats err tr,
    SendFile s pf w filePath = Some (Returned (stats, err), tr) /\
    ((frames tr = [] /\ stats = zeroStats /\ err <> None) \/
     exists content metaMsg fm rest k e,
       open_file w = Ok content /\
       NewMetadataMessage (file_metadata s filePath content) = Ok metaMsg /\
       sealed (s_key s) fm metaMsg /\
       tr = FileReadAll :: FileSeekStart :: ConnWrite fm :: rest /\
       chunk_stream s content k e (frames rest) /\
       (e = Cancelled -> err = Some (ctx_Err w)) /\
       (err = None ->
          e = Completed /\ Duration stats = send_since_start w /\
          (Z.of_nat (length content) < 2 ^ 63 -> BytesSent stats = Z.of_nat (length content))) /\
       (err <> None -> stats = zeroStats)).
Proof.
  intros Hcs Hconn. unfold SendFile.
  destruct (open_file w) as [content|e] eqn:Hopen;
    [|do 3 eexists; split; [reflexivity|left; repeat split; discriminate]].
  destruct (stat_err w);
    [do 3 eexists; split; [reflexivity|left; repeat split; discriminate]|].
  destruct (readall_err w);
    [do 3 eexists; split; [reflexivity|left; repeat split; discriminate]|].
  destruct (seek_err w);
    [do 3 eexists; split; [reflexivity|left; repeat split; discriminate]|].
  destruct (Z.eqb_spec (ChunkSize (s_config s)) 0); [lia|].
  destruct (NewMetadataMessage (file_metadata s filePath content)) as [metaMsg|e] eqn:Hmeta;
    [|do 3 eexists; split; [reflexivity|left; repeat split; discriminate]].
  destruct (EncryptChunk (EncodeMessage metaMsg) (s_key s)) as [fm|e] eqn:Hfm;
    [|do 3 eexists; split; [reflexivity|left; repeat split; discriminate]].
  rewrite Hconn. cbn [app].
  assert (Hshape : forall stats err rest k e,
            chunk_stream s content k e (frames rest) ->
            (e = Cancelled -> err = Some (ctx_Err w)) ->
            (err = None ->
               e = Completed /\ Duration stats = send_since_start w /\
               (Z.of_nat (length content) < 2 ^ 63 ->
                  BytesSent stats = Z.of_nat (length content))) ->
            (err <> None -> stats = zeroStats) ->
            exists stats0 err0 tr0,
              Some (Returned (stats, err), FileReadAll :: FileSeekStart :: ConnWrite fm :: rest)
                = Some (Returned (stats0, err0), tr0) /\
              ((frames tr0 = [] /\ stats0 = zeroStats /\ err0 <> None) \/
               exists content0 metaMsg0 fm0 rest0 k0 e0,
                 Ok content = Ok content0 /\
                 NewMetadataMessage (file_metadata s filePath content0) = Ok metaMsg0 /\
                 sealed (s_key s) fm0 metaMsg0 /\
                 tr0 = FileReadAll :: FileSeekStart :: ConnWrite fm0 :: rest0 /\
                 chunk_stream s content0 k0 e0 (frames rest0) /\
                 (e0 = Cancelled -> err0 = Some (ctx_Err w)) /\
                 (err0 = None ->
                    e0 = Completed /\ Duration stats0 = send_since_start w /\
                    (Z.of_nat (length content0) < 2 ^ 63 ->
                       BytesSent stats0 = Z.of_nat (length content0))) /\
                 (err0 <> None -> stats0 = zeroStats))).
  { intros stats err rest k e H1 H2 H3 H4. exists stats, err. eexists. split; [reflexivity|].
    right. exists content, metaMsg, fm, rest, k, e.
    split; [reflexivity|]. split; [exact Hmeta|]. split; [exact Hfm|]. split; [reflexivity|].
    split; [exact H1|]. split; [exact H2|]. split; [exact H3|exact H4]. }
  destruct (write_err w 0%nat) as [err|].
  { apply (Hshape _ _ [] 0%nat Broken); try discriminate; [|reflexivity].
    exists [], []. split; [reflexivity|]. split; [rewrite take_0; constructor|reflexivity]. }
  destruct (Z.ltb_spec (ChunkSize (s_config s)) 0); [lia|].
  destruct (send_loop_any s pf w content (Z.of_nat (length content)) Hcs
              (S (length content)) 0%nat 0%nat 0
              [FileReadAll; FileSeekStart; ConnWrite fm] ltac:(lia) ltac:(lia))
    as (r & ext & -> & Hr).
  cbn [app]. destruct r as [[i' b']|o].
  - destruct Hr as [Hall Hb]. rewrite drop_0 in Hall. unfold send_complete.
    destruct (EncryptChunk (EncodeMessage NewCompleteMessage) (s_key s)) as [fc|e] eqn:Hfc.
    + destruct (write_err w (S i')) as [err|].
      * apply (Hshape _ _ (ext ++ [ConnWrite fc])
                 (length (slices_of (ChunkSize (s_config s)) content)) Completed);
          try discriminate; [|reflexivity].
        exists (frames ext), [fc]. split; [apply frames_app|].
        split; [rewrite firstn_all; exact Hall|]. exists fc. split; [reflexivity|]. split; [exact Hfc|lia].
      * apply (Hshape _ _ (ext ++ [ConnWrite fc])
                 (length (slices_of (ChunkSize (s_config s)) content)) Completed);
          try discriminate.
        -- exists (frames ext), [fc]. split; [apply frames_app|].
           split; [rewrite firstn_all; exact Hall|]. exists fc. split; [reflexivity|]. split; [exact Hfc|lia].
        -- intros _. split; [reflexivity|]. split; [reflexivity|].
           intros Hsmall. apply Hb; [reflexivity|exact Hsmall].
        -- intros Hn. contradiction.
    + apply (Hshape _ _ ext (length (slices_of (ChunkSize (s_config s)) content)) Broken);
        try discriminate; [|reflexivity].
      exists (frames ext), []. split; [rewrite app_nil_r; reflexivity|].
      split; [rewrite firstn_all; exact Hall|reflexivity].
  - destruct Hr as (err & k & e & -> & He & Hc & Hstream). rewrite drop_0 in Hstream.
    apply (Hshape _ _ ext k e); try assumption.
    + intros ->. f_equal. apply Hc. reflexivity.
    + discriminate.
    + reflexivity.
Qed.



(** X9: however a call of [SendFile] ends, what it has handed to the
    connection is a beginning of the protocol stream: nothing at all, or
    the metadata of the file, sealed, written after the file was read to
    the end and rewound, then the first chunks of the file in file order,
    then nothing more, or the cancel message, or, only after the last
    chunk, the complete message.  No chunk is skipped, repeated or sent out
    of order, and nothing follows the cancel or the complete message. *)
Theorem SendFile_sends_a_prefix `{Packages} (s : Sender) (pf : bool) (w : SendWorld)
    (filePath : string) (res : outcome (Stats * option error)) (tr : list SendEffect) :
  SendFile s pf w filePath = Some (res, tr) ->
  frames tr = [] \/
  exists content metaMsg fm rest k e,
    open_file w = Ok content /\
    NewMetadataMessage (file_metadata s filePath content) = Ok metaMsg /\
    sealed (s_key s) fm metaMsg /\
    tr = FileReadAll :: FileSeekStart :: ConnWrite fm :: rest /\
    chunk_stream s content k e (frames rest).
Proof.
  intros Hrun.
  destruct (Z.ltb_spec 0 (ChunkSize (s_config s))) as [Hcs|Hcs].
  - destruct (s_conn s) as [c|] eqn:Hconn.
    + destruct (SendFile_run s pf w filePath c Hcs Hconn) as (stats & err & tr0 & Hrun0 & Hshape).
      rewrite Hrun in Hrun0. injection Hrun0 as -> ->.
      destruct Hshape as [(Hfr & _)|(content & metaMsg & fm & rest & k & e & H1 & H2 & H3 & H4
                                      & H5 & _)]; [left; exact Hfr|].
      right. exists content, metaMsg, fm, rest, k, e. repeat split; assumption.
    + left. unfold SendFile in Hrun.
      destruct (open_file w); [|injection Hrun as <- <-; reflexivity].
      destruct (stat_err w); [injection Hrun as <- <-; reflexivity|].
      destruct (readall_err w); [injection Hrun as <- <-; reflexivity|].
      destruct (seek_err w); [injection Hrun as <- <-; reflexivity|].
      destruct (ChunkSize (s_config s) =? 0); [injection Hrun as <- <-; reflexivity|].
      destruct (NewMetadataMessage _); [|injection Hrun as <- <-; reflexivity].
      destruct (EncryptChunk _ _); [|injection Hrun as <- <-; reflexivity].
      rewrite Hconn in Hrun. injection Hrun as <- <-. reflexivity.
  - unfold SendFile in Hrun.
    destruct (open_file w) as [content|] eqn:Hopen;
      [|left; injection Hrun as <- <-; reflexivity].
    destruct (stat_err w); [left; injection Hrun as <- <-; reflexivity|].
    destruct (readall_err w); [left; injection Hrun as <- <-; reflexivity|].
    destruct (seek_err w); [left; injection Hrun as <- <-; reflexivity|].
    destruct (Z.eqb_spec (ChunkSize (s_config s)) 0);
      [left; injection Hrun as <- <-; reflexivity|].
    destruct (NewMetadataMessage (file_metadata s filePath content)) as [metaMsg|] eqn:Hmeta;
      [|left; injection Hrun as <- <-; reflexivity].
    destruct (EncryptChunk (EncodeMessage metaMsg) (s_key s)) as [fm|] eqn:Hfm;
      [|left; injection Hrun as <- <-; reflexivity].
    destruct (s_conn s); [|left; injection Hrun as <- <-; reflexivity].
    assert (Hend : tr = FileReadAll :: FileSeekStart :: ConnWrite fm :: []).
    { destruct (write_err w 0%nat); [injection Hrun as <- <-; reflexivity|].
      destruct (Z.ltb_spec (ChunkSize (s_config s)) 0); [|lia].
      injection Hrun as <- <-. reflexivity. }
    right. exists content, metaMsg, fm, [], 0%nat, Broken.
    split; [reflexivity|]. split; [exact Hmeta|]. split; [exact Hfm|]. split; [exact Hend|].
    exists [], []. split; [reflexivity|]. split; [rewrite take_0; constructor|reflexivity].
Qed.

Lemma SendFile_sends_a_prefix_witness :
  let w := mkSendWorld (Ok ten_bytes) None None None (fun _ => None)
             (fun i => if (i =? 2)%nat then Some (errorString "broken pipe") else None)
             (fun _ => false) (errorString "context canceled") (2 * Second) in
  let tr := [FileReadAll; FileSeekStart;
             ConnWrite (plain_frame MsgTypeMetadata (plain_meta 10 "notes.txt" "55"));
             FileRead 4; ConnWrite (plain_frame MsgTypeChunk (take 4 ten_bytes));
             ProgressCall 4 10;
             FileRead 4; ConnWrite (plain_frame MsgTypeChunk (take 4 (drop 4 ten_bytes)))] in
  @SendFile plain (connected_sender 4) true w "notes.txt" =
    Some (Returned (zeroStats,
                    Some (wrapError "failed to send chunk: " (Some (errorString "broken pipe")))),
          tr) /\
  (frames tr = [] \/
   exists content metaMsg fm rest k e,
     open_file w = Ok content /\
     @NewMetadataMessage plain (@file_metadata plain (connected_sender 4) "notes.txt" content)
       = Ok metaMsg /\
     @sealed plain (s_key (connected_sender 4)) fm metaMsg /\
     tr = FileReadAll :: FileSeekStart :: ConnWrite fm :: rest /\
     @chunk_stream plain (connected_sender 4) content k e (frames rest)).
Proof.
  intros w tr.
  assert (H1 : @SendFile plain (connected_sender 4) true w "notes.txt" =
                 Some (Returned (zeroStats,
                         Some (wrapError "failed to send chunk: "
                                 (Some (errorString "broken pipe")))), tr))
    by (vm_compute; reflexivity).
  split; [exact H1|].
  exact (@SendFile_sends_a_prefix plain (connected_sender 4) true w "notes.txt" _ tr H1).
Defined.

(** What a call that returned nil has sent. *)
Lemma SendFile_nil_stream `{Packages} (s : Sender) (pf : bool) (w : SendWorld)
    (filePath : string) (stats : Stats) (tr : list SendEffect) :
  SendFile s pf w filePath = Some (Returned (stats, None), tr) ->
  exists content metaMsg fm rest,
    open_file w = Ok content /\
    NewMetadataMessage (file_metadata s filePath content) = Ok metaMsg /\
    tr = FileReadAll :: FileSeekStart :: ConnWrite fm :: rest /\
    Forall2 (sealed (s_key s)) (fm :: frames rest)
      (metaMsg :: (NewChunkMessage <$> slices_of (ChunkSize (s_config s)) content)
                  ++ [NewCompleteMessage]) /\
    Duration stats = send_since_start w /\
    (Z.of_nat (length content) < 2 ^ 63 -> BytesSent stats = Z.of_nat (length content)).
Proof.
  intros Hrun.
  destruct (SendFile_nil_needs s pf w filePath stats tr Hrun) as [Hcs [c Hconn]].
  destruct (SendFile_run s pf w filePath c Hcs Hconn) as (stats0 & err & tr0 & Hrun0 & Hshape).
  rewrite Hrun in Hrun0. injection Hrun0 as <- <- <-.
  destruct Hshape as [(_ & _ & Herr)|(content & metaMsg & fm & rest & k & e & H1 & H2 & H3 & H4
                                      & H5 & _ & Hnil & _)]; [contradiction|].
  destruct (Hnil eq_refl) as (-> & Hd & Hb).
  destruct H5 as (cf & tail & Hfr & Hall & fc & -> & Hfc & Hk).
  rewrite take_ge in Hall by (rewrite length_fmap || idtac; lia).
  exists content, metaMsg, fm, rest. repeat split; try assumption.
  rewrite Hfr. constructor; [exact H3|]. apply Forall2_app; [exact Hall|].
  repeat constructor. exact Hfc.
Qed.

(** X10: a nil error from [SendFile] means that everything was handed to the
    connection: the metadata of the file, one chunk for every slice of the
    file, in file order, and the complete message, each sealed under the
    key, and nothing else; the byte count returned is the length of the
    file and the duration the time since the start. *)
Theorem SendFile_nil_means_all_sent `{Packages} (s : Sender) (pf : bool) (w : SendWorld)
    (filePath : string) (stats : Stats) (tr : list SendEffect) :
  SendFile s pf w filePath = Some (Returned (stats, None), tr) ->
  exists content metaMsg fm rest,
    open_file w = Ok content /\
    NewMetadataMessage (file_metadata s filePath content) = Ok metaMsg /\
    tr = FileReadAll :: FileSeekStart :: ConnWrite fm :: rest /\
    Forall2 (sealed (s_key s)) (fm :: frames rest)
      (metaMsg :: (NewChunkMessage <$> slices_of (ChunkSize (s_config s)) content)
                  ++ [NewCompleteMessage]) /\
    Duration stats = send_since_start w /\
    (Z.of_nat (length content) < 2 ^ 63 -> BytesSent stats = Z.of_nat (length content)).
Proof. apply SendFile_nil_stream. Qed.

Lemma SendFile_nil_means_all_sent_witness :
  exists stats tr,
    @SendFile plain (connected_sender 4) true (calm_world ten_bytes None) "notes.txt"
      = Some (Returned (stats, None), tr) /\
    exists content metaMsg fm rest,
      open_file (calm_world ten_bytes None) = Ok content /\
      @NewMetadataMessage plain (@file_metadata plain (connected_sender 4) "notes.txt" content)
        = Ok metaMsg /\
      tr = FileReadAll :: FileSeekStart :: ConnWrite fm :: rest /\
      Forall2 (@sealed plain (s_key (connected_sender 4))) (fm :: frames rest)
        (metaMsg :: (NewChunkMessage <$> slices_of 4 content) ++ [NewCompleteMessage]).
Proof.
  destruct (@SendFile plain (connected_sender 4) true (calm_world ten_bytes None) "notes.txt")
    as [[[[stats [err|]]|msg] tr]|] eqn:Hrun; try (vm_compute in Hrun; discriminate Hrun).
  exists stats, tr. split; [reflexivity|].
  destruct (@SendFile_nil_means_all_sent plain (connected_sender 4) true
              (calm_world ten_bytes None) "notes.txt" stats tr Hrun)
    as (content & metaMsg & fm & rest & H1 & H2 & H3 & H4 & _).
  exists content, metaMsg, fm, rest. repeat split; assumption.
Defined.

(** ** From the sender to the receiver *)

Lemma Clean_nonempty (path : string) : Clean path <> "".
Proof.
  unfold Clean. destruct (list_ascii_of_string path) as [|c p]; [discriminate|].
  destruct (Ascii.eqb c slash); [discriminate|].
  destruct (join_slash (clean_elems (c :: p))); discriminate.
Qed.

Lemma last_elem_of {A} (l : list A) (d : A) : List.last l d ∈ d :: l.
Proof.
  induction l as [|x l IH]; [left|].
  destruct l as [|y l]; [right; left|].
  change (List.last (x :: y :: l) d) with (List.last (y :: l) d).
  apply elem_of_cons in IH as [->|IH]; [left|right; right; exact IH].
Qed.

Lemma Base_nonempty (path : string) : Base path <> "".
Proof.
  unfold Base. destruct (list_ascii_of_string path) as [|c p]; [discriminate|].
  destruct (filter _ (split_slash [] (c :: p))) as [|e es] eqn:Hf; [discriminate|].
  pose proof (last_elem_of es e) as Hin. rewrite <- Hf in Hin.
  apply list_elem_of_filter in Hin as [Hne _].
  destruct (List.last es e); [contradiction|discriminate].
Qed.

Lemma Join_nonempty (a b : string) : b <> "" -> Join a b <> "".
Proof.
  intros Hb. unfold Join. destruct (String.eqb a ""); [|apply Clean_nonempty].
  destruct (String.eqb_spec b ""); [contradiction|apply Clean_nonempty].
Qed.

Section Delivery.
Context `{Packages}.
Variable r : Receiver.
Variable destDir : string.
Variable pf : bool.
Variable c : Conn.
Hypothesis Hconn : r_conn r = Some c.
Hypothesis Hopens : opens (r_key r).

Lemma brings_delivers t f msg :
  sealed (r_key r) f msg -> brings t f -> delivers r t msg.
Proof.
  intros Hs (Hctx & Hread & _). destruct (Hopens f msg Hs) as (data & Hdec & Hmsg).
  split; [exact Hctx|]. unfold incoming. rewrite Hread, Hdec, Hmsg. reflexivity.
Qed.

Lemma brings_chunks ts fs : Forall2 brings ts fs -> forall payloads,
  Forall2 (sealed (r_key r)) fs (NewChunkMessage <$> payloads) ->
  Forall2 (delivers_chunk r) ts payloads.
Proof.
  induction 1 as [|t f ts fs Ht _ IH]; intros payloads Hall.
  - destruct payloads; [constructor|inversion Hall].
  - destruct payloads as [|p ps]; [inversion Hall|].
    cbn [fmap list_fmap] in Hall. apply Forall2_cons in Hall as [Hf Hall].
    constructor; [|apply IH, Hall]. split; [eapply brings_delivers; eassumption|apply Ht].
Qed.

(** The metadata of a file of [payloads], then its chunks: the file is
    created and holds the chunks, and the loop goes on. *)
Lemma ReceiveFile_after_chunks tm fm mmsg meta tchunks payloads rest fs :
  brings tm fm -> sealed (r_key r) fm mmsg -> msg_Type mmsg = MsgTypeMetadata ->
  ParseMetadata (msg_Payload mmsg) = Ok meta ->
  Join destDir (Filename meta) <> "" -> 0 <= Size meta ->
  Forall2 (delivers_chunk r) tchunks payloads ->
  Z.of_nat (length (concat payloads)) < 2 ^ 63 ->
  let path := Join destDir (Filename meta) in
  ReceiveFile r destDir pf (tm :: tchunks ++ rest) fs =
    receive_loop r destDir pf rest
      (mkRecvState meta (Some path) (Z.of_nat (length (concat payloads))) path (concat payloads))
      (<[path := concat payloads]> fs)
      (chunk_progress pf (Size meta) 0 payloads)
      (S (length tchunks)).
Proof.
  intros Htm Hfm Hty Hparse Hne Hsize Hchunks Hlen path.
  assert (Hcreate : os_Create_err path (disk_err tm) = None).
  { unfold os_Create_err. destruct (String.eqb_spec path ""); [contradiction|apply Htm]. }
  unfold ReceiveFile, initRecvState. cbn [receive_loop].
  rewrite (recv_iteration_metadata r destDir pf c tm mmsg meta _ fs Hconn
             (brings_delivers tm fm mmsg Hfm Htm) Hty Hparse Hcreate Hsize).
  rewrite (receive_loop_chunks r destDir pf c tchunks payloads Hconn Hchunks
             rest _ _ _ _ path) by reflexivity.
  cbn [metadata file bytesReceived destPath fileContent].
  rewrite file_Write_created, app_nil_l.
  rewrite received_total_small by lia. rewrite Z.add_0_l. reflexivity.
Qed.

End Delivery.

(** What the receiver makes of the frames of a call of [SendFile] that
    returned nil. *)
Lemma transfer_run `{Packages} (s : Sender) (pf : bool) (w : SendWorld)
    (filePath : string) (stats : Stats) (tr : list SendEffect) (content : list Byte.byte)
    (r : Receiver) (destDir : string) (pfr : bool) (c : Conn) (turns : list RecvTurn)
    (fs : FS) :
  SendFile s pf w filePath = Some (Returned (stats, None), tr) ->
  open_file w = Ok content ->
  Z.of_nat (length content) < 2 ^ 63 ->
  r_key r = s_key s -> r_conn r = Some c -> opens (s_key s) ->
  (forall payload, MarshalMetadata (file_metadata s filePath content) = Ok payload ->
     reads_back payload (file_metadata s filePath content)) ->
  Forall2 brings turns (frames tr) ->
  let path := Join destDir (Base filePath) in
  exists run rstats,
    ReceiveFile r destDir pfr turns fs = Some run /\
    recv_result run = Returned (path, rstats, None) /\
    recv_fs run = <[path := content]> fs /\
    BytesSent rstats = Z.of_nat (length content) /\
    BytesSent rstats = BytesSent stats /\
    recv_progress run =
      chunk_progress pfr (Z.of_nat (length content)) 0
        (slices_of (ChunkSize (s_config s)) content) /\
    recv_turns run = length turns.
Proof.
  intros Hrun Hopen Hsmall Hkey Hconn Hopens Hback Hturns path.
  destruct (SendFile_nil_needs s pf w filePath stats tr Hrun) as [Hcs _].
  destruct (SendFile_nil_stream s pf w filePath stats tr Hrun)
    as (content0 & metaMsg & fm & rest & Hopen0 & Hmeta & -> & Hall & _ & Hsent).
  rewrite Hopen in Hopen0. injection Hopen0 as <-.
  unfold NewMetadataMessage in Hmeta.
  destruct (MarshalMetadata (file_metadata s filePath content)) as [payload|] eqn:Hmarshal;
    [|discriminate]. injection Hmeta as <-.
  destruct (Hback payload eq_refl) as (meta & Hparse & Hname & Hsize & Hsum).
  cbn [file_metadata Filename Size Checksum] in Hname, Hsize, Hsum.
  change (frames (FileReadAll :: FileSeekStart :: ConnWrite fm :: rest))
    with (fm :: frames rest) in Hturns.
  apply Forall2_cons in Hall as [Hfm Hall].
  apply Forall2_app_inv_r in Hall as (cf & tail & Hcf & Htail & Hrest).
  apply Forall2_cons_inv_r in Htail as (fc & tail' & Hfc & Hnil & ->).
  apply Forall2_nil_inv_r in Hnil as ->.
  rewrite Hrest in Hturns.
  apply Forall2_cons_inv_r in Hturns as (tm & turns' & Htm & Hturns & ->).
  apply Forall2_app_inv_r in Hturns as (tchunks & tlast & Htchunks & Htlast & ->).
  apply Forall2_cons_inv_r in Htlast as (tc & tnil & Htc & Hnil & ->).
  apply Forall2_nil_inv_r in Hnil as ->.
  rewrite <- Hkey in Hopens, Hfm, Hcf, Hfc.
  pose proof (brings_chunks r Hopens tchunks cf Htchunks _ Hcf) as Hchunks.
  pose proof (slices_of_concat (ChunkSize (s_config s)) content Hcs) as Hcat.
  assert (Hpath : Join destDir (Filename meta) = path) by (rewrite Hname; reflexivity).
  rewrite (ReceiveFile_after_chunks r destDir pfr c Hconn Hopens tm fm
             (mkMessage MsgTypeMetadata payload) meta tchunks
             (slices_of (ChunkSize (s_config s)) content) [tc] fs Htm Hfm eq_refl Hparse
             ltac:(rewrite Hname; apply Join_nonempty, Base_nonempty) ltac:(lia) Hchunks
             ltac:(rewrite Hcat; exact Hsmall)).
  rewrite Hcat, Hpath, Hsize. cbn [receive_loop].
  rewrite (recv_iteration_delivers r destDir pfr tc NewCompleteMessage _ _ c Hconn
             (brings_delivers r Hopens tc fc _ Hfc Htc)).
  unfold dispatch. cbn [msg_Type NewCompleteMessage]. unfold on_complete.
  cbn [metadata file bytesReceived destPath fileContent].
  rewrite Hsum, String.eqb_refl. cbn [negb].
  assert (Hlen : S (S (length tchunks)) = length (tm :: tchunks ++ [tc]))
    by (cbn [length]; rewrite length_app; simpl; lia).
  destruct (negb (ComputeChecksum content =? ""))%string;
    (eexists; eexists; split; [reflexivity|]; cbn [recv_result recv_fs recv_progress recv_turns BytesSent];
     split; [reflexivity|]; split; [reflexivity|]; split; [reflexivity|];
     split; [symmetry; apply Hsent, Hsmall|]; split; [reflexivity|exact Hlen]).
Qed.

(** X11: the file arrives.  When [SendFile] has returned nil and the frames
    it wrote reach a connected receiver with the same key, in order, the
    context not cancelled and the disk not failing, [ReceiveFile] returns
    nil after the last frame, with the path [destDir] joined with the base
    name of the sent file; the file at that path holds exactly the content
    the sender read, both sides report the length of the file as byte
    count, and the progress callback was called once per chunk.  The
    packages are only assumed to undo each other. *)
Theorem transfer_delivers_file `{Packages} (s : Sender) (pf : bool) (w : SendWorld)
    (filePath : string) (stats : Stats) (tr : list SendEffect) (content : list Byte.byte)
    (r : Receiver) (destDir : string) (pfr : bool) (c : Conn) (turns : list RecvTurn)
    (fs : FS) :
  SendFile s pf w filePath = Some (Returned (stats, None), tr) ->
  open_file w = Ok content ->
  Z.of_nat (length content) < 2 ^ 63 ->
  r_key r = s_key s -> r_conn r = Some c -> opens (s_key s) ->
  (forall payload, MarshalMetadata (file_metadata s filePath content) = Ok payload ->
     reads_back payload (file_metadata s filePath content)) ->
  Forall2 brings turns (frames tr) ->
  let path := Join destDir (Base filePath) in
  exists run rstats,
    ReceiveFile r destDir pfr turns fs = Some run /\
    recv_result run = Returned (path, rstats, None) /\
    recv_fs run = <[path := content]> fs /\
    BytesSent rstats = Z.of_nat (length content) /\
    BytesSent rstats = BytesSent stats /\
    recv_progress run =
      chunk_progress pfr (Z.of_nat (length content)) 0
        (slices_of (ChunkSize (s_config s)) content) /\
    recv_turns run = length turns.
Proof. apply transfer_run. Qed.

Lemma arrives_brings (since : Z) (fs : list (list Byte.byte)) :
  Forall2 brings ((fun f => arrives f since) <$> fs) fs.
Proof. induction fs; constructor; [repeat split|assumption]. Qed.

Lemma plain_opens (key : list Byte.byte) : @opens plain key.
Proof.
  intros frame msg Hs. exists frame. split; [reflexivity|].
  injection Hs as <-. destruct msg as [[] payload]; reflexivity.
Qed.

Lemma transfer_delivers_file_witness :
  exists stats tr,
    @SendFile plain (connected_sender 4) true (calm_world ten_bytes None) "notes.txt"
      = Some (Returned (stats, None), tr) /\
    exists run rstats,
      @ReceiveFile plain connected_receiver "downloads" true
        ((fun f => arrives f (3 * Second)) <$> frames tr) ∅ = Some run /\
      recv_result run = Returned ("downloads/notes.txt", rstats, None) /\
      recv_fs run = <["downloads/notes.txt" := ten_bytes]> ∅ /\
      BytesSent rstats = 10.
Proof.
  destruct (@SendFile plain (connected_sender 4) true (calm_world ten_bytes None) "notes.txt")
    as [[[[stats [err|]]|msg] tr]|] eqn:Hrun; try (vm_compute in Hrun; discriminate Hrun).
  exists stats, tr. split; [reflexivity|].
  assert (Hback : forall payload,
            @MarshalMetadata plain (@file_metadata plain (connected_sender 4) "notes.txt" ten_bytes)
              = Ok payload ->
            @reads_back plain payload
              (@file_metadata plain (connected_sender 4) "notes.txt" ten_bytes)).
  { intros payload Hm. injection Hm as <-.
    exists (mkMetadata "notes.txt" 10 0 "55" "" 0 1). repeat split; vm_compute; reflexivity. }
  destruct (@transfer_delivers_file plain (connected_sender 4) true (calm_world ten_bytes None)
              "notes.txt" stats tr ten_bytes connected_receiver "downloads" true 7%nat
              ((fun f => arrives f (3 * Second)) <$> frames tr) ∅
              Hrun eq_refl ltac:(vm_compute; reflexivity) eq_refl eq_refl (plain_opens [])
              Hback (arrives_brings _ _))
    as (run & rstats & H1 & H2 & H3 & H4 & _).
  exists run, rstats. repeat split; assumption.
Defined.



(** ** Receiver.ReceiveFile: how a call can end *)

Lemma ends_well_next `{Packages} r t turns n run :
  ends_well r turns (S n) run -> ends_well r (t :: turns) n run.
Proof.
  unfold ends_well. destruct (recv_result run) as [[[path stats] [err|]]|msg]; try tauto.
  intros (k & t' & msg & Hn & Hk & Hrest). exists (S k), t', msg.
  split; [lia|]. split; [exact Hk|exact Hrest].
Qed.

Lemma receive_loop_ends_well `{Packages} r destDir pf turns : forall st fs pr n run,
  receive_loop r destDir pf turns st fs pr n = Some run -> ends_well r turns n run.
Proof.
  induction turns as [|t turns IH]; intros st fs pr n run Hrun; [discriminate|].
  cbn [receive_loop] in Hrun. rewrite recv_iteration_incoming in Hrun.
  destruct (ctx_done t) eqn:Hctx; [injection Hrun as <-; split; reflexivity|].
  destruct (r_conn r) eqn:Hc; [|injection Hrun as <-; exact I].
  destruct (incoming r t) as [msg|e] eqn:Hin; [|injection Hrun as <-; split; reflexivity].
  unfold dispatch in Hrun. destruct (msg_Type msg) eqn:Hty.
  - apply ends_well_next, (IH _ _ _ _ _ Hrun).
  - unfold on_metadata in Hrun. destruct (ParseMetadata (msg_Payload msg));
      [|injection Hrun as <-; split; reflexivity].
    destruct (os_Create_err _ _); [injection Hrun as <-; split; reflexivity|].
    destruct (Size a <? 0); [injection Hrun as <-; exact I|].
    apply ends_well_next, (IH _ _ _ _ _ Hrun).
  - unfold on_chunk in Hrun. destruct (file st); [|injection Hrun as <-; split; reflexivity].
    destruct (disk_err t); [injection Hrun as <-; split; reflexivity|].
    apply ends_well_next, (IH _ _ _ _ _ Hrun).
  - assert (Hfinish : ends_well r (t :: turns) n
              (mkRecvRun (Returned (destPath st,
                            mkStats (since_start t) (bytesReceived st)
                              (PrimFloat.div (float64_of_int64 (bytesReceived st))
                                             (Seconds (since_start t))), None))
                         fs pr (S n))).
    { exists 0%nat, t, msg. split; [simpl; lia|]. split; [reflexivity|].
      split; [split; assumption|]. split; [exact Hty|reflexivity]. }
    unfold on_complete in Hrun.
    destruct (negb (Checksum (metadata st) =? ""))%string;
      [|injection Hrun as <-; exact Hfinish].
    destruct (negb (ComputeChecksum (fileContent st) =? Checksum (metadata st)))%string;
      injection Hrun as <-; [split; reflexivity|exact Hfinish].
  - injection Hrun as <-. split; reflexivity.
  - injection Hrun as <-. split; reflexivity.
Qed.

(** X13: [ReceiveFile] returns nil only for a [Complete] message: the last
    turn it went through brought one, the context not cancelled, and the
    duration returned is the time since the start read at that turn.  When
    it returns an error, the path is empty and the statistics are zero. *)
Theorem ReceiveFile_nil_only_on_complete `{Packages} (r : Receiver) (destDir : string)
    (pf : bool) (turns : list RecvTurn) (fs : FS) (run : RecvRun)
    (path : string) (stats : Stats) (err : option error) :
  ReceiveFile r destDir pf turns fs = Some run ->
  recv_result run = Returned (path, stats, err) ->
  match err with
  | None =>
      exists t msg,
        (0 < recv_turns run)%nat /\ turns !! (recv_turns run - 1)%nat = Some t /\
        delivers r t msg /\ msg_Type msg = MsgTypeComplete /\
        Duration stats = since_start t
  | Some _ => path = "" /\ stats = zeroStats
  end.
Proof.
  intros Hrun Hres. apply receive_loop_ends_well in Hrun. unfold ends_well in Hrun.
  rewrite Hres in Hrun. destruct err as [e|]; [exact Hrun|].
  destruct Hrun as (k & t & msg & Hn & Hk & Hrest). exists t, msg.
  split; [lia|]. split; [|exact Hrest]. rewrite Hn. simpl. rewrite Nat.sub_0_r. exact Hk.
Qed.

Lemma ReceiveFile_nil_only_on_complete_witness :
  let turns := [arrives (plain_frame MsgTypeMetadata (plain_meta 3 "a.bin" "")) Second;
                arrives (plain_frame MsgTypeChunk [Byte.x01; Byte.x02; Byte.x03]) Second;
                arrives (plain_frame MsgTypeComplete []) (2 * Second)] in
  exists run stats,
    @ReceiveFile plain connected_receiver "downloads" true turns ∅ = Some run /\
    recv_result run = Returned ("downloads/a.bin", stats, None) /\
    exists t msg,
      (0 < recv_turns run)%nat /\ turns !! (recv_turns run - 1)%nat = Some t /\
      @delivers plain connected_receiver t msg /\ msg_Type msg = MsgTypeComplete /\
      Duration stats = since_start t.
Proof.
  intros turns.
  destruct (@ReceiveFile plain connected_receiver "downloads" true turns ∅) as [run|] eqn:Hrun;
    [|vm_compute in Hrun; discriminate Hrun].
  assert (Hres : recv_result run =
                 Returned ("downloads/a.bin",
                           mkStats (2 * Second) 3
                             (PrimFloat.div (float64_of_int64 3) (Seconds (2 * Second))), None)).
  { vm_compute in Hrun. injection Hrun as <-. vm_compute. reflexivity. }
  exists run. eexists. split; [reflexivity|]. split; [exact Hres|].
  exact (@ReceiveFile_nil_only_on_complete plain connected_receiver "downloads" true turns ∅
           run _ _ None Hrun Hres).
Defined.

(** ** The handshake *)

(** X14: the handshake.  When the dial succeeds and the write goes through,
    [Receiver.Connect] stores the connection and writes one frame, the
    [Ready] message sealed under the receiver's key, and returns nil; a
    connected sender with the same key that reads this frame in
    [WaitForReceiver] returns nil, and it returns the error "unexpected
    message type" for a frame that opens to a message of any other type. *)
Theorem handshake `{Packages} (r : Receiver) (s : Sender) (conn c : Conn)
    (type_code : MsgType -> Z) :
  r_key r = s_key s -> s_conn s = Some c -> opens (s_key s) ->
  (exists frame, sealed (r_key r) frame NewReadyMessage) ->
  (exists frame,
     Receiver_Connect (DialOk conn) None r =
       (mkReceiver (r_relayURL r) (r_token r) (r_key r) (Some conn) (r_debug r),
        [HDial (ws_url (r_relayURL r) (r_token r)); HWrite frame], None) /\
     sealed (r_key r) frame NewReadyMessage /\
     WaitForReceiver type_code (Ok frame) s = Returned None) /\
  (forall frame msg, sealed (s_key s) frame msg -> msg_Type msg <> MsgTypeReady ->
     WaitForReceiver type_code (Ok frame) s =
       Returned (Some (errorString ("unexpected message type: "
                                    +:+ pretty (type_code (msg_Type msg)))))).
Proof.
  intros Hkey Hc Hopens [frame Hframe]. split.
  - exists frame. unfold Receiver_Connect. pose proof Hframe as Hs. unfold sealed in Hs.
    cbv zeta. cbn [r_key r_relayURL r_token r_debug]. rewrite Hs. split; [reflexivity|]. split; [exact Hframe|].
    rewrite Hkey in Hframe. destruct (Hopens frame _ Hframe) as (data & Hdec & Hmsg).
    unfold WaitForReceiver. rewrite Hc, Hdec, Hmsg. reflexivity.
  - intros f msg Hf Hty. destruct (Hopens f msg Hf) as (data & Hdec & Hmsg).
    unfold WaitForReceiver. rewrite Hc, Hdec, Hmsg.
    destruct (msg_Type msg); [contradiction|reflexivity..].
Qed.

Lemma handshake_witness :
  r_key connected_receiver = s_key (connected_sender 4) /\
  s_conn (connected_sender 4) = Some 7%nat /\
  exists frame,
    @Receiver_Connect plain (DialOk 9%nat) None (NewReceiver "wss://pulse.relay.app" "tok" []) =
      (mkReceiver "wss://pulse.relay.app" "tok" [] (Some 9%nat) false,
       [HDial "wss://pulse.relay.app/ws/tok"; HWrite frame], None) /\
    @WaitForReceiver plain (fun _ => 0) (Ok frame) (connected_sender 4) = Returned None.
Proof.
  assert (H1 : r_key (NewReceiver "wss://pulse.relay.app" "tok" []) = s_key (connected_sender 4))
    by reflexivity.
  assert (H2 : s_conn (connected_sender 4) = Some 7%nat) by reflexivity.
  split; [exact H1|]. split; [exact H2|].
  destruct (@handshake plain (NewReceiver "wss://pulse.relay.app" "tok" []) (connected_sender 4)
              9%nat 7%nat (fun _ => 0) H1 H2 (plain_opens [])
              ltac:(eexists; reflexivity)) as [(frame & Hc & _ & Hw) _].
  exists frame. split; [exact Hc|exact Hw].
Defined.

(** ** internal/history *)

Lemma keep_last_100_drop (entries : list history.Entry) (e : history.Entry) :
  history.keep_last_100 entries e = drop (S (length entries) - 100) entries ++ [e].
Proof.
  unfold history.keep_last_100. rewrite length_app. cbn [length].
  replace (length entries + 1)%nat with (S (length entries)) by lia.
  destruct (Nat.ltb_spec 100 (S (length entries))) as [Hlt|Hle].
  - apply drop_app_le. lia.
  - replace (S (length entries) - 100)%nat with 0%nat by lia. reflexivity.
Qed.

(** X15: saving an entry and loading the history again.  When the history
    can be loaded, encoded and written, [SaveEntry] returns nil and rewrites
    the history file, and a [LoadEntries] after it returns the old entries
    without the oldest ones beyond ninety-nine, followed by the new entry:
    the new entry is last, the history never holds more than 100 entries,
    and no other file is touched.  A history file that does not exist
    counts as an empty history. *)
Theorem SaveEntry_then_LoadEntries `{history.Json} (w : history.World) (e : history.Entry)
    (fs : FS) (path : string) (old : list history.Entry) (data : list Byte.byte) :
  (forall k, history.historyFile w k = Ok path) ->
  history.read_err w = None -> history.write_err w = None ->
  history.LoadEntries w 0 fs = Ok old ->
  let new := drop (S (length old) - 100) old ++ [e] in
  history.MarshalIndent new = Ok data ->
  history.Unmarshal data = Ok new ->
  history.SaveEntry w e fs = (None, <[path := data]> fs) /\
  history.LoadEntries w 2 (<[path := data]> fs) = Ok new /\
  last new = Some e /\ length new = Nat.min (S (length old)) 100 /\
  (forall p, p <> path -> (<[path := data]> fs : FS) !! p = fs !! p) /\
  (fs !! path = None -> old = []).
Proof.
  intros Hpath Hread Hwrite Hload new Hmarshal Hunmarshal.
  split; [|split; [|split; [|split; [|split]]]].
  - unfold history.SaveEntry. rewrite Hload, Hpath, keep_last_100_drop. fold new.
    rewrite Hmarshal, Hwrite. reflexivity.
  - unfold history.LoadEntries. rewrite Hpath, lookup_insert_eq, Hread. exact Hunmarshal.
  - apply last_snoc.
  - unfold new. rewrite length_app, length_drop. simpl. lia.
  - intros p Hp. apply lookup_insert_ne. congruence.
  - intros Hnone. unfold history.LoadEntries in Hload. rewrite Hpath, Hnone in Hload.
    congruence.
Qed.

Lemma SaveEntry_then_LoadEntries_witness :
  let w := history.mkWorld (fun _ => Ok "/home/u/.pulse/history.json") None None in
  let fs : FS := {["/home/u/.pulse/history.json" := [Byte.x05; Byte.x06]]} in
  let old := [sized_entry 5; sized_entry 6] in
  let new := [sized_entry 5; sized_entry 6; sized_entry 7] in
  @history.LoadEntries tally w 0 fs = Ok old /\
  @history.SaveEntry tally w (sized_entry 7) fs
    = (None, <["/home/u/.pulse/history.json" := [Byte.x05; Byte.x06; Byte.x07]]> fs) /\
  @history.LoadEntries tally w 2
    (<["/home/u/.pulse/history.json" := [Byte.x05; Byte.x06; Byte.x07]]> fs) = Ok new /\
  last new = Some (sized_entry 7).
Proof.
  intros w fs old new.
  assert (H1 : @history.LoadEntries tally w 0 fs = Ok old) by (vm_compute; reflexivity).
  split; [exact H1|].
  destruct (@SaveEntry_then_LoadEntries tally w (sized_entry 7) fs
              "/home/u/.pulse/history.json" old [Byte.x05; Byte.x06; Byte.x07]
              (fun _ => eq_refl) eq_refl eq_refl H1 ltac:(vm_compute; reflexivity)
              ltac:(vm_compute; reflexivity)) as (H2 & H3 & H4 & _).
  split; [exact H2|]. split; [exact H3|exact H4].
Defined.

(** X16: what [SaveEntry] leaves alone.  Whatever happens, every file other
    than the history file is as before.  When the history cannot be loaded
    (the file cannot be read or parsed) or the entries cannot be encoded,
    [SaveEntry] returns that error and the history file too is as before:
    a history that cannot be parsed is never replaced. *)
Theorem SaveEntry_touches_only_history `{history.Json} (w : history.World)
    (e : history.Entry) (fs : FS) :
  (forall p, history.historyFile w 1 <> Ok p -> (history.SaveEntry w e fs).2 !! p = fs !! p) /\
  (forall err, history.LoadEntries w 0 fs = Err err ->
     history.SaveEntry w e fs = (Some err, fs)) /\
  (forall old err, history.LoadEntries w 0 fs = Ok old ->
     history.MarshalIndent (history.keep_last_100 old e) = Err err ->
     (history.SaveEntry w e fs).2 = fs /\ (history.SaveEntry w e fs).1 <> None).
Proof.
  split; [|split].
  - intros p Hp. unfold history.SaveEntry.
    destruct (history.LoadEntries w 0 fs) as [entries|]; [|reflexivity].
    destruct (history.historyFile w 1) as [path|]; [|reflexivity].
    destruct (history.MarshalIndent _) as [data|]; [|reflexivity].
    destruct (history.write_err w) as [[err [n|]]|]; cbn [snd]; try reflexivity;
      apply lookup_insert_ne; congruence.
  - intros err Hload. unfold history.SaveEntry. rewrite Hload. reflexivity.
  - intros old err Hload Hmarshal. unfold history.SaveEntry. rewrite Hload.
    destruct (history.historyFile w 1) as [path|]; [|split; [reflexivity|discriminate]].
    rewrite Hmarshal. split; [reflexivity|discriminate].
Qed.

Lemma SaveEntry_touches_only_history_witness :
  let w := history.mkWorld (fun _ => Ok "/home/u/.pulse/history.json")
             (Some (errorString "permission denied")) None in
  let fs : FS := {["/home/u/.pulse/history.json" := [Byte.x05]]} in
  @history.LoadEntries tally w 0 fs = Err (errorString "permission denied") /\
  @history.SaveEntry tally w (sized_entry 7) fs
    = (Some (errorString "permission denied"), fs).
Proof.
  intros w fs.
  assert (H1 : @history.LoadEntries tally w 0 fs = Err (errorString "permission denied"))
    by (vm_compute; reflexivity).
  split; [exact H1|].
  exact (proj1 (proj2 (@SaveEntry_touches_only_history tally w (sized_entry 7) fs)) _ H1).
Defined.

(** ** cmd/pulse: the receive command *)

(** X17: [cmdReceive] panics when [ReceiveFile] returns nil with the empty
    path.  After the directory, the QR code and the connection have
    succeeded, a [Complete] message that arrives first, before any
    metadata, makes [ReceiveFile] return the empty path and nil,
    [os.Stat] of it returns a nil [FileInfo], and the call of [fi.Name()]
    panics; nothing is written to the disk and no history entry is saved. *)
Theorem cmdReceive_complete_first_panics `{Packages} `{history.Json} (w : cli.ReceiveWorld)
    (relay destDir : string) (debug : bool) (fs : FS) (c : Conn) (t : RecvTurn)
    (msg : Message) (rest : list RecvTurn) :
  cli.mkdir_err w = None -> cli.qr_err w = None ->
  cli.dial w = DialOk c -> cli.ready_write_err w = None ->
  (exists frame, sealed (cli.key w) frame NewReadyMessage) ->
  cli.turns w = t :: rest ->
  delivers (mkReceiver relay (cli.token w) (cli.key w) (Some c) debug) t msg ->
  msg_Type msg = MsgTypeComplete ->
  cli.cmdReceive w relay destDir debug fs =
    Some (Panicked "invalid memory address or nil pointer dereference", fs).
Proof.
  intros Hmk Hqr Hdial Hwrite [frame Hframe] Hturns Ht Hty.
  unfold cli.cmdReceive. rewrite Hmk, Hqr, Hdial, Hwrite, Hturns.
  unfold Receiver_Connect, NewReceiverWithDebug. cbv zeta.
  cbn [r_key r_relayURL r_token r_debug]. unfold sealed in Hframe. rewrite Hframe.
  unfold ReceiveFile. cbn [receive_loop].
  rewrite (recv_iteration_delivers (mkReceiver relay (cli.token w) (cli.key w) (Some c) debug)
             destDir true t msg _ fs c eq_refl Ht).
  unfold dispatch. rewrite Hty. reflexivity.
Qed.

Lemma cmdReceive_complete_first_panics_witness :
  let w := cli.mkReceiveWorld None "tok" [] None (DialOk 7%nat) None
             [arrives (plain_frame MsgTypeComplete []) (2 * Second)] 0
             (history.mkWorld (fun _ => Ok "/home/u/.pulse/history.json") None None) in
  @delivers plain (mkReceiver "wss://pulse.relay.app" "tok" [] (Some 7%nat) false)
    (arrives (plain_frame MsgTypeComplete []) (2 * Second)) NewCompleteMessage /\
  @cli.cmdReceive plain tally w "wss://pulse.relay.app" "downloads" false ∅ =
    Some (Panicked "invalid memory address or nil pointer dereference", ∅).
Proof.
  intros w.
  assert (H1 : @delivers plain (mkReceiver "wss://pulse.relay.app" "tok" [] (Some 7%nat) false)
                 (arrives (plain_frame MsgTypeComplete []) (2 * Second)) NewCompleteMessage)
    by (split; reflexivity).
  split; [exact H1|].
  exact (@cmdReceive_complete_first_panics plain tally w "wss://pulse.relay.app" "downloads"
           false ∅ 7%nat _ NewCompleteMessage [] eq_refl eq_refl eq_refl eq_refl
           ltac:(eexists; reflexivity) eq_refl H1 eq_refl).
Defined.

Lemma chunk_progress_in_range (size : Z) (payloads : list (list Byte.byte)) : forall b,
  0 <= b -> b + Z.of_nat (length (concat payloads)) <= size -> size < 2 ^ 63 ->
  (payloads = [] \/ 0 < size) ->
  forallb cli.bar_in_range (chunk_progress true size b payloads) = true.
Proof.
  induction payloads as [|p ps IH]; intros b Hb Hle Hsize Hpos; [reflexivity|].
  destruct Hpos as [Hnil|Hpos]; [discriminate|].
  simpl in Hle. rewrite length_app in Hle.
  cbn [chunk_progress app forallb cli.bar_in_range]. rewrite wrap64_small by lia.
  rewrite IH by (try lia; right; exact Hpos). rewrite andb_true_r.
  apply andb_true_intro. split; [apply andb_true_intro; split|]; lia.
Qed.

(** X18: [cmdReceive] on a transfer that goes through.  When the frames of
    a call of [SendFile] that returned nil reach the receive command, the
    directory, the QR code and the connection having succeeded,
    [cmdReceive] returns nil; the file [destDir] joined with the base name
    of the sent file holds the content the sender read, and
    [history.SaveEntry] was called on that disk with an entry of direction
    "receive" and status "ok" that names the saved file and gives the
    length of the content as size. *)
Theorem cmdReceive_records_transfer `{Packages} `{history.Json} (s : Sender) (pf : bool)
    (sw : SendWorld) (filePath : string) (stats : Stats) (tr : list SendEffect)
    (content : list Byte.byte) (w : cli.ReceiveWorld) (relay destDir : string)
    (debug : bool) (fs : FS) (c : Conn) :
  SendFile s pf sw filePath = Some (Returned (stats, None), tr) ->
  open_file sw = Ok content ->
  Z.of_nat (length content) < 2 ^ 63 ->
  cli.key w = s_key s -> opens (s_key s) ->
  (forall payload, MarshalMetadata (file_metadata s filePath content) = Ok payload ->
     reads_back payload (file_metadata s filePath content)) ->
  cli.mkdir_err w = None -> cli.qr_err w = None ->
  cli.dial w = DialOk c -> cli.ready_write_err w = None ->
  (exists frame, sealed (cli.key w) frame NewReadyMessage) ->
  Forall2 brings (cli.turns w) (frames tr) ->
  let path := Join destDir (Base filePath) in
  exists rstats,
    cli.cmdReceive w relay destDir debug fs =
      Some (Returned None,
            (history.SaveEntry (cli.hist w)
               (history.mkEntry (cli.clock w) "receive" (Base path)
                  (Z.of_nat (length content)) (Duration rstats) (Speed rstats) "ok" "")
               (<[path := content]> fs)).2).
Proof.
  intros Hrun Hopen Hsmall Hkey Hopens Hback Hmk Hqr Hdial Hwrite [frame Hframe] Hturns path.
  destruct (SendFile_nil_needs s pf sw filePath stats tr Hrun) as [Hcs _].
  destruct (transfer_run s pf sw filePath stats tr content
              (mkReceiver relay (cli.token w) (cli.key w) (Some c) debug) destDir true c
              (cli.turns w) fs Hrun Hopen Hsmall Hkey eq_refl Hopens Hback Hturns)
    as (run & rstats & Hrecv & Hres & Hfs & _ & _ & Hprogress & _).
  exists rstats. unfold cli.cmdReceive. rewrite Hmk, Hqr, Hdial, Hwrite.
  unfold Receiver_Connect, NewReceiverWithDebug. cbv zeta.
  cbn [r_key r_relayURL r_token r_debug]. unfold sealed in Hframe. rewrite Hframe.
  rewrite Hrecv, Hprogress, Hres, Hfs.
  rewrite chunk_progress_in_range.
  - cbn [negb]. fold path.
    assert (Hne : path <> "") by apply Join_nonempty, Base_nonempty.
    unfold cli.os_Stat. destruct (String.eqb_spec path ""); [contradiction|].
    rewrite lookup_insert_eq.
    destruct (history.SaveEntry _ _ _) as [err fs']. reflexivity.
  - lia.
  - rewrite slices_of_concat by exact Hcs. lia.
  - exact Hsmall.
  - destruct content as [|b content']; [left; reflexivity|right; simpl; lia].
Qed.

Lemma cmdReceive_records_transfer_witness :
  let w := cli.mkReceiveWorld None "tok" [] None (DialOk 7%nat) None
             ((fun f => arrives f (3 * Second)) <$>
                [plain_frame MsgTypeMetadata (plain_meta 10 "notes.txt" "55");
                 plain_frame MsgTypeChunk (take 4 ten_bytes);
                 plain_frame MsgTypeChunk (take 4 (drop 4 ten_bytes));
                 plain_frame MsgTypeChunk (drop 8 ten_bytes);
                 plain_frame MsgTypeComplete []]) 0
             (history.mkWorld (fun _ => Ok "/home/u/.pulse/history.json") None None) in
  exists stats tr,
    @SendFile plain (connected_sender 4) true (calm_world ten_bytes None) "notes.txt"
      = Some (Returned (stats, None), tr) /\
    Forall2 brings (cli.turns w) (frames tr) /\
    exists rstats,
      @cli.cmdReceive plain tally w "wss://pulse.relay.app" "downloads" false ∅ =
        Some (Returned None,
              (@history.SaveEntry tally (cli.hist w)
                 (history.mkEntry (cli.clock w) "receive" (Base "downloads/notes.txt") 10
                    (Duration rstats) (Speed rstats) "ok" "")
                 (<["downloads/notes.txt" := ten_bytes]> ∅)).2).
Proof.
  intros w.
  destruct (@SendFile plain (connected_sender 4) true (calm_world ten_bytes None) "notes.txt")
    as [[[[stats [err|]]|msg] tr]|] eqn:Hrun; try (vm_compute in Hrun; discriminate Hrun).
  exists stats, tr. split; [reflexivity|].
  assert (Hturns : Forall2 brings (cli.turns w) (frames tr)).
  { vm_compute in Hrun. injection Hrun as _ <-. apply (arrives_brings (3 * Second)). }
  split; [exact Hturns|].
  assert (Hback : forall payload,
            @MarshalMetadata plain (@file_metadata plain (connected_sender 4) "notes.txt" ten_bytes)
              = Ok payload ->
            @reads_back plain payload
              (@file_metadata plain (connected_sender 4) "notes.txt" ten_bytes)).
  { intros payload Hm. injection Hm as <-.
    exists (mkMetadata "notes.txt" 10 0 "55" "" 0 1). repeat split; vm_compute; reflexivity. }
  exact (@cmdReceive_records_transfer plain tally (connected_sender 4) true
           (calm_world ten_bytes None) "notes.txt" stats tr ten_bytes w
           "wss://pulse.relay.app" "downloads" false ∅ 7%nat
           Hrun eq_refl ltac:(vm_compute; reflexivity) eq_refl (plain_opens [])
           Hback eq_refl eq_refl eq_refl eq_refl ltac:(eexists; reflexivity) Hturns).
Defined.

(** ** From NewSender to SendFile *)




(** ** A batch of files *)

Lemma receive_loop_more `{Packages} r destDir pf more turns : forall st fs pr n run,
  receive_loop r destDir pf turns st fs pr n = Some run ->
  receive_loop r destDir pf (turns ++ more) st fs pr n = Some run.
Proof.
  induction turns as [|t turns IH]; intros st fs pr n run Hrun; [discriminate|].
  cbn [receive_loop app] in Hrun |- *.
  destruct (recv_iteration r destDir pf t st fs); [apply IH, Hrun|exact Hrun..].
Qed.

(** X20: [ReceiveFile] receives one file.  It returns at the [Complete]
    message of the first file and reads nothing after it: when the frames
    of a call of [SendFile] that returned nil are followed on the
    connection by anything else, as by the frames of the next file of a
    batch that [cmdSend] sends over the same connection, the result and
    the disk are those of the first file alone. *)
Theorem batch_delivers_first_file_only `{Packages} (s : Sender) (pf : bool) (w : SendWorld)
    (filePath : string) (stats : Stats) (tr : list SendEffect) (content : list Byte.byte)
    (r : Receiver) (destDir : string) (pfr : bool) (c : Conn)
    (turns more : list RecvTurn) (fs : FS) :
  SendFile s pf w filePath = Some (Returned (stats, None), tr) ->
  open_file w = Ok content ->
  Z.of_nat (length content) < 2 ^ 63 ->
  r_key r = s_key s -> r_conn r = Some c -> opens (s_key s) ->
  (forall payload, MarshalMetadata (file_metadata s filePath content) = Ok payload ->
     reads_back payload (file_metadata s filePath content)) ->
  Forall2 brings turns (frames tr) ->
  let path := Join destDir (Base filePath) in
  exists run rstats,
    ReceiveFile r destDir pfr (turns ++ more) fs = Some run /\
    recv_result run = Returned (path, rstats, None) /\
    recv_fs run = <[path := content]> fs /\
    recv_turns run = length turns.
Proof.
  intros Hrun Hopen Hsmall Hkey Hconn Hopens Hback Hturns path.
  destruct (transfer_run s pf w filePath stats tr content r destDir pfr c turns fs
              Hrun Hopen Hsmall Hkey Hconn Hopens Hback Hturns)
    as (run & rstats & Hrecv & Hres & Hfs & _ & _ & _ & Hn).
  exists run, rstats. split; [|split; [exact Hres|split; [exact Hfs|exact Hn]]].
  apply receive_loop_more, Hrecv.
Qed.

Lemma batch_delivers_first_file_only_witness :
  exists stats tr,
    @SendFile plain (connected_sender 4) true (calm_world ten_bytes None) "notes.txt"
      = Some (Returned (stats, None), tr) /\
    let turns := (fun f => arrives f (3 * Second)) <$> frames tr in
    let more := [arrives (plain_frame MsgTypeMetadata (plain_meta 1 "second.txt" "")) Second;
                 arrives (plain_frame MsgTypeChunk [Byte.x09]) Second;
                 arrives (plain_frame MsgTypeComplete []) Second] in
    exists run rstats,
      @ReceiveFile plain connected_receiver "downloads" true (turns ++ more) ∅ = Some run /\
      recv_result run = Returned ("downloads/notes.txt", rstats, None) /\
      recv_fs run = <["downloads/notes.txt" := ten_bytes]> ∅ /\
      recv_turns run = length turns.
Proof.
  destruct (@SendFile plain (connected_sender 4) true (calm_world ten_bytes None) "notes.txt")
    as [[[[stats [err|]]|msg] tr]|] eqn:Hrun; try (vm_compute in Hrun; discriminate Hrun).
  exists stats, tr. split; [reflexivity|].
  assert (Hback : forall payload,
            @MarshalMetadata plain (@file_metadata plain (connected_sender 4) "notes.txt" ten_bytes)
              = Ok payload ->
            @reads_back plain payload
              (@file_metadata plain (connected_sender 4) "notes.txt" ten_bytes)).
  { intros payload Hm. injection Hm as <-.
    exists (mkMetadata "notes.txt" 10 0 "55" "" 0 1). repeat split; vm_compute; reflexivity. }
  exact (@batch_delivers_first_file_only plain (connected_sender 4) true
           (calm_world ten_bytes None) "notes.txt" stats tr ten_bytes connected_receiver
           "downloads" true 7%nat _ _ ∅
           Hrun eq_refl ltac:(vm_compute; reflexivity) eq_refl eq_refl (plain_opens [])
           Hback (arrives_brings _ _)).
Defined.

(** ** Sender.SendFile: the progress callback *)





(** ** The relay as a pipe *)

Lemma filter_other_pair (a b : Conn) (l : list Conn) :
  a ∈ l -> b ∈ l -> b <> a -> NoDup l -> (length l <= 2)%nat ->
  filter (fun c => c <> a) l = [b].
Proof.
  intros Ha Hb Hne Hnd Hlen.
  destruct l as [|x [|y [|z l]]]; [inversion Ha| | |simpl in Hlen; lia].
  - apply list_elem_of_singleton in Ha, Hb. congruence.
  - apply NoDup_cons in Hnd as [Hxy _]. rewrite list_elem_of_singleton in Hxy.
    apply elem_of_cons in Ha as [->|Ha]; apply elem_of_cons in Hb as [->|Hb];
      rewrite ?list_elem_of_singleton in *; subst; try congruence.
    + rewrite filter_cons_False by tauto. rewrite filter_cons_True by assumption. reflexivity.
    + rewrite filter_cons_True by assumption. rewrite filter_cons_False by tauto. reflexivity.
Qed.

Lemma emit_emit (l1 l2 : list Effect) (st : Relay) :
  emit l2 (emit l1 st) = emit (l1 ++ l2) st.
Proof. unfold emit. simpl. rewrite <- app_assoc. reflexivity. Qed.

Lemma emit_nil (st : Relay) : emit [] st = st.
Proof. unfold emit. rewrite app_nil_r. destruct st; reflexivity. Qed.

(** X22: the relay is a pipe between the two connections of a room.  In
    every state the relay can reach, when the goroutines of two different
    connections are both in the read loop of the same room, any sequence of
    binary messages read from the two, in either direction, is written to
    the other one each, unchanged, in the order read, with nothing lost,
    repeated or added; nothing else of the relay changes. *)
Theorem relay_is_a_pipe (t0 : Z) (evs : list Event) (a b : Conn) (tok tok' : string)
    (p : RoomRef) (msgs : list (bool * list Byte.byte)) :
  let st := run evs (NewRoomManager t0) in
  handlers st !! a = Some (AtReadMessage tok p) ->
  handlers st !! b = Some (AtReadMessage tok' p) ->
  a <> b ->
  run (reads_of a b msgs) st = emit (writes_of a b msgs) st.
Proof.
  intros st Ha Hb Hab.
  pose proof (relay_inv_reachable t0 evs) as Hinv. fold st in Hinv.
  pose proof (relay_members_reachable t0 evs) as Hmem. fold st in Hmem.
  destruct (inv_joined _ Hinv a _ p Ha eq_refl) as (room & Hp & Hina).
  destruct (inv_joined _ Hinv b _ p Hb eq_refl) as (room' & Hp' & Hinb).
  rewrite Hp in Hp'. injection Hp' as <-.
  pose proof (mem_nodup _ Hmem p room Hp) as Hnd.
  assert (Hcap : (length (clients room) <= 2)%nat).
  { pose proof (inv_capacity _ Hinv) as Hall. rewrite Forall_forall in Hall.
    apply Hall. eapply list_elem_of_lookup_2, Hp. }
  pose proof (filter_other_pair a b _ Hina Hinb ltac:(congruence) Hnd Hcap) as Hfa.
  pose proof (filter_other_pair b a _ Hinb Hina Hab Hnd Hcap) as Hfb.
  assert (Hgen : forall done,
            run (reads_of a b msgs) (emit done st) = emit (done ++ writes_of a b msgs) st).
  { induction msgs as [|[dir m] msgs IH]; intros done.
    - simpl. rewrite app_nil_r. reflexivity.
    - cbn [reads_of writes_of fmap list_fmap run fold_left step fst snd].
      change (fold_left step (reads_of a b msgs) ?x) with (run (reads_of a b msgs) x).
      unfold run_handler. cbn [emit handlers heap].
      destruct dir.
      + rewrite Ha. cbn [Z.eqb BinaryMessage Pos.eqb]. rewrite Hp. unfold Broadcast.
        rewrite Hfa. cbn [fmap list_fmap].
        change (emit [ConnWriteBinary b m]
                  {| heap := heap st; rooms := rooms st; handlers := handlers st;
                     now := now st; next_tick := next_tick st; log := log st ++ done |})
          with (emit [ConnWriteBinary b m] (emit done st)).
        rewrite emit_emit, IH, <- app_assoc. reflexivity.
      + rewrite Hb. cbn [Z.eqb BinaryMessage Pos.eqb]. rewrite Hp. unfold Broadcast.
        rewrite Hfb. cbn [fmap list_fmap].
        change (emit [ConnWriteBinary a m]
                  {| heap := heap st; rooms := rooms st; handlers := handlers st;
                     now := now st; next_tick := next_tick st; log := log st ++ done |})
          with (emit [ConnWriteBinary a m] (emit done st)).
        rewrite emit_emit, IH, <- app_assoc. reflexivity. }
  specialize (Hgen []). rewrite emit_nil in Hgen. exact Hgen.
Qed.

Lemma relay_is_a_pipe_witness :
  let evs := [Request 1%nat "t"; Run 1%nat ReadErr; Run 1%nat ReadErr;
              Request 2%nat "t"; Run 2%nat ReadErr; Run 2%nat ReadErr] in
  let st := run evs (NewRoomManager 0) in
  let msgs := [(true, [Byte.x01]); (false, [Byte.x02]); (true, [Byte.x03])] in
  handlers st !! 1%nat = Some (AtReadMessage "t" 0%nat) /\
  handlers st !! 2%nat = Some (AtReadMessage "t" 0%nat) /\
  log (run (reads_of 1%nat 2%nat msgs) st) =
    [ConnWriteBinary 2%nat [Byte.x01]; ConnWriteBinary 1%nat [Byte.x02];
     ConnWriteBinary 2%nat [Byte.x03]].
Proof.
  intros evs st msgs.
  assert (H1 : handlers st !! 1%nat = Some (AtReadMessage "t" 0%nat)) by (vm_compute; reflexivity).
  assert (H2 : handlers st !! 2%nat = Some (AtReadMessage "t" 0%nat)) by (vm_compute; reflexivity).
  split; [exact H1|]. split; [exact H2|].
  pose proof (relay_is_a_pipe 0 evs 1%nat 2%nat "t" "t" 0%nat msgs H1 H2 ltac:(lia)) as H3.
  cbv zeta in H3. fold st in H3. rewrite H3. vm_compute. reflexivity.
Defined.

(** ** Receiver.ReceiveFile: the paths it writes *)

Lemma os_Remove_other (path p : string) (fs : FS) :
  (path <> "" -> p <> path) -> os_Remove path fs !! p = fs !! p.
Proof.
  intros Hp. unfold os_Remove. destruct (String.eqb_spec path ""); [reflexivity|].
  apply lookup_delete_ne. intros ->. apply Hp; [assumption|reflexivity].
Qed.

Lemma receive_loop_frame `{Packages} r destDir pf turns : forall st fs pr n run,
  receive_loop r destDir pf turns st fs pr n = Some run ->
  forall p,
    p ∉ declared_paths r destDir (take (recv_turns run - n) turns) ->
    (destPath st <> "" -> p <> destPath st) ->
    (forall h, file st = Some h -> p <> h) ->
    recv_fs run !! p = fs !! p.
Proof.
  induction turns as [|t turns IH]; intros st fs pr n run Hrun p Hp Hdest Hfile;
    [discriminate|].
  pose proof (receive_loop_turns r destDir pf _ _ _ _ _ _ Hrun) as Hn.
  replace (recv_turns run - n)%nat with (S (recv_turns run - S n)) in Hp by lia.
  cbn [take declared_paths] in Hp.
  cbn [receive_loop] in Hrun. rewrite recv_iteration_incoming in Hrun.
  assert (Hopen : remove_if_open st fs !! p = fs !! p).
  { unfold remove_if_open. destruct (file st); [apply os_Remove_other, Hdest|reflexivity]. }
  destruct (ctx_done t); [injection Hrun as <-; exact Hopen|].
  destruct (r_conn r); [|injection Hrun as <-; reflexivity].
  destruct (incoming r t) as [msg|e]; [|injection Hrun as <-; exact Hopen].
  unfold dispatch in Hrun. destruct (msg_Type msg).
  - exact (IH _ _ _ _ _ Hrun p Hp Hdest Hfile).
  - unfold on_metadata in Hrun.
    destruct (ParseMetadata (msg_Payload msg)) as [meta|];
      [|injection Hrun as <-; reflexivity].
    apply not_elem_of_cons in Hp as [Hne Hp].
    destruct (os_Create_err _ _); [injection Hrun as <-; reflexivity|].
    assert (Hcreate : os_Create (Join destDir (Filename meta)) fs !! p = fs !! p)
      by (apply lookup_insert_ne; congruence).
    destruct (Size meta <? 0); [injection Hrun as <-; exact Hcreate|].
    rewrite <- Hcreate. apply (IH _ _ _ _ _ Hrun p Hp).
    + intros _. exact Hne.
    + intros h [= <-]. exact Hne.
  - unfold on_chunk in Hrun. destruct (file st) as [h|] eqn:Hh;
      [|injection Hrun as <-; reflexivity].
    destruct (disk_err t); [injection Hrun as <-; apply os_Remove_other, Hdest|].
    assert (Hwrite : file_Write h (msg_Payload msg) fs !! p = fs !! p).
    { unfold file_Write. apply lookup_alter_ne. intros ->. exact (Hfile _ eq_refl eq_refl). }
    rewrite <- Hwrite. apply (IH _ _ _ _ _ Hrun p Hp); [exact Hdest|].
    cbn [file]. exact Hfile.
  - unfold on_complete in Hrun.
    destruct (negb (Checksum (metadata st) =? ""))%string;
      [|injection Hrun as <-; reflexivity].
    destruct (negb (ComputeChecksum (fileContent st) =? Checksum (metadata st)))%string;
      injection Hrun as <-; [apply os_Remove_other, Hdest|reflexivity].
  - injection Hrun as <-. apply os_Remove_other, Hdest.
  - injection Hrun as <-. apply os_Remove_other, Hdest.
Qed.

(** X23: [ReceiveFile] touches no file but those the metadata names.
    However a call ends, every path of the disk other than [destDir] joined
    with the file name of a metadata message it went through is as before:
    neither created, nor written, nor removed; a call that sees no
    metadata leaves the disk as it was. *)
Theorem ReceiveFile_touches_only_declared_paths `{Packages} (r : Receiver) (destDir : string)
    (pf : bool) (turns : list RecvTurn) (fs : FS) (run : RecvRun) (p : string) :
  ReceiveFile r destDir pf turns fs = Some run ->
  p ∉ declared_paths r destDir (seen turns run) ->
  recv_fs run !! p = fs !! p.
Proof.
  intros Hrun Hp. unfold ReceiveFile in Hrun.
  apply (receive_loop_frame r destDir pf turns _ _ _ _ _ Hrun p).
  - rewrite Nat.sub_0_r. exact Hp.
  - intros Hne. contradiction.
  - intros h Hh. discriminate Hh.
Qed.

Lemma ReceiveFile_touches_only_declared_paths_witness :
  let turns := [arrives (plain_frame MsgTypeMetadata (plain_meta 3 "a.bin" "")) Second;
                arrives (plain_frame MsgTypeChunk [Byte.x01; Byte.x02]) Second;
                arrives (plain_frame MsgTypeCancel []) Second] in
  let fs : FS := {["downloads/b.bin" := [Byte.x07]]} in
  exists run,
    @ReceiveFile plain connected_receiver "downloads" true turns fs = Some run /\
    ("downloads/b.bin" ∉ @declared_paths plain connected_receiver "downloads" (seen turns run)) /\
    recv_fs run !! "downloads/b.bin" = fs !! "downloads/b.bin".
Proof.
  intros turns fs.
  destruct (@ReceiveFile plain connected_receiver "downloads" true turns fs) as [run|] eqn:Hrun;
    [|vm_compute in Hrun; discriminate Hrun].
  assert (H1 : "downloads/b.bin" ∉ @declared_paths plain connected_receiver "downloads"
                                     (seen turns run)).
  { pose proof Hrun as Hrun'. vm_compute in Hrun'. injection Hrun' as <-.
    vm_compute. intros Hin. apply list_elem_of_singleton in Hin. discriminate Hin. }
  exists run. split; [reflexivity|]. split; [exact H1|].
  exact (@ReceiveFile_touches_only_declared_paths plain connected_receiver "downloads" true
           turns fs run "downloads/b.bin" Hrun H1).
Defined.
